(** * GitSight profile analyzer: scoring and aggregation pipeline

    A shallow embedding of the numeric core of the analyzer
    ([src/analyzer.py], [src/scoring.py]), of the choice of the highlighted
    repositories ([src/report.py]) and of the parsing of the profile
    argument ([main.py]), together with the properties stated about it.

    Conventions of the embedding.
    - Python [int] is [Z].  Python [float] is IEEE-754 binary64 with
      round-to-nearest-even, modelled in [Float64] as the exact rational
      value of the double together with the two infinities and NaN; every
      arithmetic operation rounds its exact result, so the sums of the
      composite and readiness scores carry the rounding of the source.
      Signed zeros are identified (no modelled operation observes the sign
      of a zero).
    - A Python [str] is a [string], one [ascii] per character; [str.lower]
      is modelled on the ASCII letters.
    - A dict with a fixed set of keys is a record; exceptions are values of
      [exn] threaded through the [result] monad, and [try/except Exception]
      is [try_except].
    - The working tree of a clone is a [tree] of regular files and
      directories, listed in the order the file system reports them.  The
      clone itself, the text-insight provider, radon's [cc_visit] and the
      user lookup of the hosting API are parameters of the functions that
      call them.
    - Entries of other kinds (symbolic links, files that [open] refuses)
      and provider answers other than a dict with an integer score and two
      lists of strings are outside this domain, and the source can raise on
      them where the embedding returns.  The ranges of an analysis are
      therefore stated for every analysis that returns, and a statement
      that a function raises names the entry that makes it raise. *)

From Stdlib Require Import ZArith QArith Qround Qabs Lia Lra Lqa.
From Stdlib Require Import List ListSet String Ascii Bool Permutation Sorted.
Import ListNotations.
Local Open Scope Z_scope.
Local Open Scope string_scope.
Local Open Scope list_scope.

(* ================================================================== *)
(** * Definitions *)
(* ================================================================== *)

(** ** IEEE-754 binary64 *)

Module Float64.

(** Every finite double is an integer multiple of [2^-1074]; a real number
    is rounded by scaling it to these units, rounding the scaled magnitude
    to 53 significant bits (ties to even) and scaling back. *)
Definition ulp0 : Z := 2 ^ 1074.
Definition huge : Z := 2 ^ 1024.

Inductive float : Type :=
| Fin (q : Q)
| PInf
| NInf
| NaN.

(** Nearest integer, ties to the even one. *)
Definition rne (x : Q) : Z :=
  let f := Qfloor x in
  match Qcompare (x - inject_Z f) (1 # 2) with
  | Lt => f
  | Gt => f + 1
  | Eq => if Z.even f then f else f + 1
  end.

(** Rounding of a non-negative magnitude given in units of [2^-1074]: below
    [2^53] units the spacing is one unit (subnormals and the first binade),
    above it the spacing is [2^(e-52)] for a magnitude in [[2^e, 2^(e+1))]. *)
Definition rnd_mag (x : Q) : Z :=
  let s := Z.max (Z.log2 (Qfloor x) - 52) 0 in
  rne (x / inject_Z (2 ^ s)) * 2 ^ s.

Definition rnd_units (x : Q) : Z :=
  match Qcompare x 0 with
  | Lt => - rnd_mag (- x)
  | _ => rnd_mag x
  end.

(** Rounding with unbounded exponent range above; the result is in lowest
    terms, so equal doubles are equal terms. *)
Definition rnd (x : Q) : Q :=
  Qred (inject_Z (rnd_units (x * inject_Z ulp0)) / inject_Z ulp0).

(** Rounding to a double: results of magnitude [2^1024] or more overflow. *)
Definition round64 (x : Q) : float :=
  let r := rnd x in
  if Qle_bool (inject_Z huge) r then PInf
  else if Qle_bool r (- inject_Z huge) then NInf
  else Fin r.

Definition fneg (a : float) : float :=
  match a with
  | Fin x => Fin (Qred (- x))
  | PInf => NInf
  | NInf => PInf
  | NaN => NaN
  end.

Definition fadd (a b : float) : float :=
  match a, b with
  | Fin x, Fin y => round64 (x + y)
  | NaN, _ | _, NaN => NaN
  | PInf, NInf | NInf, PInf => NaN
  | PInf, _ | _, PInf => PInf
  | NInf, _ | _, NInf => NInf
  end.

Definition fsub (a b : float) : float := fadd a (fneg b).

(** Sign of an operand of a product: [Lt], [Eq] (zero) or [Gt]. *)
Definition fsign (a : float) : option comparison :=
  match a with
  | Fin x => Some (Qcompare x 0)
  | PInf => Some Gt
  | NInf => Some Lt
  | NaN => None
  end.

Definition fmul (a b : float) : float :=
  match a, b with
  | Fin x, Fin y => round64 (x * y)
  | _, _ =>
      match fsign a, fsign b with
      | Some Gt, Some Gt | Some Lt, Some Lt => PInf
      | Some Gt, Some Lt | Some Lt, Some Gt => NInf
      | _, _ => NaN
      end
  end.

(** [a > n] for a double [a] and a real [n]. *)
Definition fgt (a : float) (n : Q) : bool :=
  match a with
  | Fin x => negb (Qle_bool x n)
  | PInf => true
  | NInf | NaN => false
  end.

(** Truncation toward zero of a finite value. *)
Definition trunc (x : Q) : Z := Z.quot (Qnum x) (Zpos (Qden x)).

(** The error analysis below works on reals of magnitude at most [bound],
    where half a unit in the last place is at most [eps]. *)
Definition bound : Q := inject_Z (2 ^ 20).
Definition eps : Q := 1 # (2 ^ 33).

End Float64.

(** ** Python values, exceptions and numeric operators *)

Module Py.
Import Float64.

Inductive exn : Type :=
| ZeroDivisionError
| OverflowError
| ValueError
| AttributeError
| IsADirectoryError
| SyntaxError.

Inductive result (A : Type) : Type :=
| Ok (a : A)
| Raise (e : exn).
Arguments Ok {A} a.
Arguments Raise {A} e.

Definition bind {A B : Type} (m : result A) (k : A -> result B) : result B :=
  match m with
  | Ok a => k a
  | Raise e => Raise e
  end.

(** [try: body / except Exception: handler]. *)
Definition try_except {A : Type} (body : result A) (handler : A) : A :=
  match body with
  | Ok a => a
  | Raise _ => handler
  end.

Inductive pynum : Type :=
| PyInt (n : Z)
| PyFloat (f : float).

(** Conversion of an [int] operand of a mixed operation. *)
Definition float_of_int (n : Z) : result float :=
  match round64 (inject_Z n) with
  | Fin q => Ok (Fin q)
  | _ => Raise OverflowError
  end.

(** A float literal [n/d] written in decimal. *)
Definition literal (n : Z) (d : positive) : pynum := PyFloat (round64 (n # d)).

Definition to_float (a : pynum) : result float :=
  match a with
  | PyInt n => float_of_int n
  | PyFloat f => Ok f
  end.

Definition py_add (a b : pynum) : result pynum :=
  match a, b with
  | PyInt x, PyInt y => Ok (PyInt (x + y))
  | _, _ =>
      bind (to_float a) (fun x =>
      bind (to_float b) (fun y => Ok (PyFloat (fadd x y))))
  end.

Definition py_sub (a b : pynum) : result pynum :=
  match a, b with
  | PyInt x, PyInt y => Ok (PyInt (x - y))
  | _, _ =>
      bind (to_float a) (fun x =>
      bind (to_float b) (fun y => Ok (PyFloat (fsub x y))))
  end.

Definition py_mul (a b : pynum) : result pynum :=
  match a, b with
  | PyInt x, PyInt y => Ok (PyInt (x * y))
  | _, _ =>
      bind (to_float a) (fun x =>
      bind (to_float b) (fun y => Ok (PyFloat (fmul x y))))
  end.

(** [a / b] on two [int]s: the correctly rounded quotient. *)
Definition int_truediv (a b : Z) : result pynum :=
  if (b =? 0)%Z then Raise ZeroDivisionError
  else
    match round64 (inject_Z a / inject_Z b) with
    | Fin q => Ok (PyFloat (Fin q))
    | _ => Raise OverflowError
    end.

(** [a > b]. *)
Definition py_gt (a : pynum) (b : Z) : bool :=
  match a with
  | PyInt x => (b <? x)%Z
  | PyFloat f => fgt f (inject_Z b)
  end.

(** [max(n, a)] with the [int] first: [a] only when it is greater. *)
Definition py_max (n : Z) (a : pynum) : pynum :=
  if py_gt a n then a else PyInt n.

(** [int(a)]. *)
Definition py_int (a : pynum) : result Z :=
  match a with
  | PyInt n => Ok n
  | PyFloat (Fin q) => Ok (trunc q)
  | PyFloat NaN => Raise ValueError
  | PyFloat _ => Raise OverflowError
  end.

(** Truth value of an optional string ([None] and the empty string are
    false). *)
Definition truthy (s : option string) : bool :=
  match s with
  | Some (String _ _) => true
  | _ => false
  end.

Definition lower_char (c : ascii) : ascii :=
  let n := nat_of_ascii c in
  if (65 <=? n)%nat && (n <=? 90)%nat then ascii_of_nat (n + 32) else c.

Fixpoint lower (s : string) : string :=
  match s with
  | EmptyString => EmptyString
  | String c s' => String (lower_char c) (lower s')
  end.

(** [needle in hay]. *)
Fixpoint contains (needle hay : string) : bool :=
  String.prefix needle hay ||
  match hay with
  | EmptyString => false
  | String _ hay' => contains needle hay'
  end.

Definition startswith (s p : string) : bool := String.prefix p s.

Definition endswith (s suffix : string) : bool :=
  let n := String.length s in
  let k := String.length suffix in
  (k <=? n)%nat && String.eqb (String.substring (n - k) k s) suffix.

(** [x in xs] for a list of strings. *)
Definition elem (x : string) (xs : list string) : bool :=
  existsb (String.eqb x) xs.

Definition sum (l : list Z) : Z := fold_left Z.add l 0.

Definition len {A : Type} (l : list A) : Z := Z.of_nat (List.length l).

End Py.

Declare Scope py_scope.
Delimit Scope py_scope with py.
Notation "x <- m ;; k" := (Py.bind m (fun x => k))
  (at level 61, m at next level, right associativity) : py_scope.
Local Open Scope py_scope.

(** ** The per-repository heuristic scorer ([src/analyzer.py]) *)

Module Analyzer.
Import Float64 Py.

(** *** Working tree of a clone *)

#[warnings="-register-all"]
Inductive entry : Type :=
| File (content : string)
| Dir (children : list (string * entry)).

(** The listing of the repository root, in [os.listdir] order. *)
Definition tree : Type := list (string * entry).

(** [os.path.join a b]. *)
Definition join (a b : string) : string :=
  if startswith b "/" then b
  else if String.eqb a EmptyString || endswith a "/" then (a ++ b)%string
  else (a ++ "/" ++ b)%string.

Definition dirnames (ch : tree) : list string :=
  flat_map (fun p => match snd p with Dir _ => [fst p] | File _ => [] end) ch.

(** The files of a directory, each with the text that [open(..).read()]
    returns for it. *)
Definition files_of (ch : tree) : list (string * string) :=
  flat_map (fun p => match snd p with File c => [(fst p, c)] | Dir _ => [] end) ch.

(** One [(root, dirs, files)] triple of [os.walk]. *)
Record walk_entry : Type := WalkEntry {
  root : string;
  dirs : list string;
  files : list (string * string)
}.

(** [os.walk top], top-down. *)
Fixpoint walk_dir (top : string) (e : entry) : list walk_entry :=
  match e with
  | File _ => []
  | Dir ch =>
      WalkEntry top (dirnames ch) (files_of ch)
      :: (fix sub (l : tree) : list walk_entry :=
            match l with
            | [] => []
            | (n, c) :: l' => walk_dir (join top n) c ++ sub l'
            end) ch
  end.

Definition walk (path : string) (t : tree) : list walk_entry :=
  walk_dir path (Dir t).

(** [os.path.exists (os.path.join path d)] for a plain name [d]. *)
Definition exists_at_root (t : tree) (d : string) : bool :=
  existsb (fun p => String.eqb (fst p) d) t.

(** *** Data model *)

Record Notes : Type := mkNotes {
  note_strengths : list string;
  note_weaknesses : list string
}.

Record ScoreBreakdown : Type := mkBreakdown {
  code_structure : Z;
  testing_ci : Z;
  readme : Z;
  project_value : Z;
  deployability : Z;
  complexity : Z;
  security : Z
}.

(** The repository object of the hosting API. *)
Record Repo : Type := mkRepo {
  name : string;
  html_url : string;
  clone_url : string;
  repo_language : option string;
  stargazers_count : Z;
  forks_count : Z;
  repo_description : option string
}.

Record RepositoryAnalysis : Type := mkAnalysis {
  repo_name : string;
  repo_url : string;
  language : option string;
  stars : Z;
  forks : Z;
  description : option string;
  composite_score : Z;
  rating : string;
  score_breakdown : ScoreBreakdown;
  strengths : list string;
  weaknesses : list string;
  critical_flags : list string;
  improvement_suggestions : list string
}.

(** A well-formed answer of the text-insight provider: a dict with an
    integer score and two lists of strings.  Every other answer ([None], an
    empty dict, a score that cannot be averaged) leaves the heuristic score
    in place and is the oracle's [None]. *)
Record LlmReadme : Type := mkLlmReadme {
  llm_score : Z;
  llm_strengths : list string;
  llm_weaknesses : list string
}.

(** *** [_analyze_structure] *)

Definition src_dirs : list string := ["src"; "lib"; "app"; "core"].

Definition file_count (w : list walk_entry) : Z :=
  sum (map (fun e => len (files e)) w).

Definition _analyze_structure (path : string) (t : tree) (language : option string)
  : Z * Notes :=
  let score := 50 in
  let found_dirs := filter (exists_at_root t) src_dirs in
  let '(score, st) :=
    match found_dirs with
    | [] => (score, [])
    | _ => (score + 20,
            [("Structured project layout (" ++ String.concat ", " found_dirs ++ ")")%string])
    end in
  let n := file_count (walk path t) in
  let '(score, wk) :=
    if (n <? 3)%Z then (score - 20, ["Very small codebase (skeleton?)"])
    else if (50 <? n)%Z then (score + 10, [])
    else (score, []) in
  (Z.min 100 (Z.max 0 score), mkNotes st wk).

(** *** [_analyze_readme] *)

(** The first name of the listing that starts with "readme", any case. *)
Fixpoint find_readme (t : tree) : option entry :=
  match t with
  | [] => None
  | (f, e) :: t' =>
      if startswith (lower f) "readme" then Some e else find_readme t'
  end.

Definition readme_heuristic (content : string) : Z :=
  let score := 0 + 30 in
  let score := if (500 <? len (list_ascii_of_string content))%Z then score + 20 else score in
  let score := if contains "install" content then score + 10 else score in
  let score := if contains "usage" content then score + 10 else score in
  let score := if contains "contributing" content then score + 10 else score in
  let score := if contains "license" content then score + 10 else score in
  let score := if contains "##" content then score + 10 else score in
  score.

(** The second component is [None] for the empty dict [{}]. *)
Definition _analyze_readme (llm : option (string -> option LlmReadme))
    (path : string) (t : tree) : result (Z * option Notes) :=
  match find_readme t with
  | None => Ok (Z.min 100 0, None)
  | Some (Dir _) => Raise IsADirectoryError
  | Some (File text) =>
      let content := lower text in
      let score := readme_heuristic content in
      let heuristic_only := (Z.min 100 score, None) in
      match llm with
      | None => Ok heuristic_only
      | Some analyze =>
          match analyze content with
          | None => Ok heuristic_only
          | Some llm_analysis =>
              Ok (try_except
                    (avg <- int_truediv (score + llm_score llm_analysis) 2 ;;
                     n <- py_int avg ;;
                     Ok (Z.min 100 n,
                         Some (mkNotes (llm_strengths llm_analysis)
                                       (llm_weaknesses llm_analysis))))
                    heuristic_only)
          end
      end
  end.

(** *** [_analyze_testing] *)

Definition test_dirs : list string := ["tests"; "test"; "__tests__"; "spec"].

Definition config_files : list string :=
  [".travis.yml"; ".circleci"; "Jenkinsfile"; ".github/workflows";
   "pytest.ini"; "jest.config.js"].

(** First loop: stop at the first directory of the walk that has a test
    directory (+40) or else a file whose name mentions "test" (+20). *)
Fixpoint scan_tests (score : Z) (w : list walk_entry) : Z :=
  match w with
  | [] => score
  | e :: w' =>
      if existsb (fun d => elem d test_dirs) (dirs e) then score + 40
      else if existsb (fun f => contains "test" (lower (fst f))) (files e)
      then score + 20
      else scan_tests score w'
  end.

(** Second loop: +40 and return at the first file that is a CI marker or
    lies under a path mentioning ".github". *)
Fixpoint scan_ci (score : Z) (w : list walk_entry) : Z :=
  match w with
  | [] => Z.min 100 score
  | e :: w' =>
      if existsb (fun f => elem (fst f) config_files || contains ".github" (root e))
                 (files e)
      then Z.min 100 (score + 40)
      else scan_ci score w'
  end.

Definition _analyze_testing (path : string) (t : tree) : Z * option Notes :=
  let score := scan_tests 0 (walk path t) in
  (scan_ci score (walk path t), None).

(** *** [_analyze_complexity_python] *)

(** The mapping of the average complexity to a score, [return 50] apart. *)
Definition complexity_score (total_cc function_count : Z) : result Z :=
  avg_cc <- int_truediv total_cc function_count ;;
  d <- py_sub avg_cc (PyInt 5) ;;
  k <- int_truediv 100 15 ;;
  p <- py_mul d k ;;
  score <- py_sub (PyInt 100) p ;;
  py_int (py_max 0 score).

(** The blocks of one file: [cc_visit] raises on text it cannot parse. *)
Definition visit_file (cc_visit : string -> option (list Z))
    (acc : Z * Z) (f : string * string) : result (Z * Z) :=
  if endswith (fst f) ".py" then
    match cc_visit (snd f) with
    | None => Raise SyntaxError
    | Some results =>
        Ok (fold_left (fun a c => (fst a + 1, snd a + c)) results acc)
    end
  else Ok acc.

Fixpoint visit_files (cc_visit : string -> option (list Z))
    (acc : Z * Z) (fs : list (string * string)) : result (Z * Z) :=
  match fs with
  | [] => Ok acc
  | f :: fs' =>
      acc' <- visit_file cc_visit acc f ;;
      visit_files cc_visit acc' fs'
  end.

Fixpoint visit_walk (cc_visit : string -> option (list Z))
    (acc : Z * Z) (w : list walk_entry) : result (Z * Z) :=
  match w with
  | [] => Ok acc
  | e :: w' =>
      acc' <- visit_files cc_visit acc (files e) ;;
      visit_walk cc_visit acc' w'
  end.

(** The accumulator is [(file_count, total_cc)]; the source's [file_count]
    counts the blocks radon reports. *)
Definition _analyze_complexity_python (cc_visit : string -> option (list Z))
    (path : string) (t : tree) : Z :=
  try_except
    (acc <- visit_walk cc_visit (0, 0) (walk path t) ;;
     if (0 <? fst acc)%Z then complexity_score (snd acc) (fst acc)
     else Ok 50)
    50.

(** *** [_analyze_sec_deploy] *)

Definition deploy_files : list string :=
  ["Dockerfile"; "docker-compose.yml"; "Procfile"; "requirements.txt";
   "package.json"; ".vercelignore"; "netlify.toml"].

Definition deploy_file (deploy_score : Z) (f : string * string) : Z :=
  let file := fst f in
  let deploy_score := if elem file deploy_files then deploy_score + 20 else deploy_score in
  let deploy_score := if String.eqb file "Dockerfile" then deploy_score + 30 else deploy_score in
  let deploy_score := if endswith file ".tf" then deploy_score + 30 else deploy_score in
  deploy_score.

Definition _analyze_sec_deploy (path : string) (t : tree) : Z * Z :=
  let sec_score := 80 in
  let deploy_score :=
    fold_left (fun s e => fold_left deploy_file (files e) s) (walk path t) 0 in
  (Z.min 100 sec_score, Z.min 100 deploy_score).

(** *** [_calculate_composite] and [_get_rating_label] *)

Definition _calculate_composite (breakdown : ScoreBreakdown) : result Z :=
  t1 <- py_mul (PyInt (code_structure breakdown)) (literal 25 100) ;;
  t2 <- py_mul (PyInt (testing_ci breakdown)) (literal 20 100) ;;
  s <- py_add t1 t2 ;;
  t3 <- py_mul (PyInt (readme breakdown)) (literal 15 100) ;;
  s <- py_add s t3 ;;
  t4 <- py_mul (PyInt (project_value breakdown)) (literal 15 100) ;;
  s <- py_add s t4 ;;
  t5 <- py_mul (PyInt (deployability breakdown)) (literal 10 100) ;;
  s <- py_add s t5 ;;
  t6 <- py_mul (PyInt (complexity breakdown)) (literal 8 100) ;;
  s <- py_add s t6 ;;
  t7 <- py_mul (PyInt (security breakdown)) (literal 7 100) ;;
  score <- py_add s t7 ;;
  py_int score.

Definition _get_rating_label (score : Z) : string :=
  if (85 <=? score)%Z then "‚≠ê Exceptional"
  else if (70 <=? score)%Z then "‚úÖ Strong"
  else if (55 <=? score)%Z then "üìà Solid"
  else if (40 <=? score)%Z then "‚ö†Ô∏è Needs Work"
  else "üî¥ Weak".

(** *** [analyze_repo] *)

Section AnalyzeRepo.

(** The temporary directory of the run, the content fetcher ([None] when
    [clone_repo] returns [False]), the optional provider and radon. *)
Variable temp_dir : string.
Variable clone_repo : string -> string -> option tree.
Variable llm : option (string -> option LlmReadme).
Variable cc_visit : string -> option (list Z).

Definition is_empty_notes (n : option Notes) : bool :=
  match n with
  | None => true
  | Some _ => false
  end.

Definition analyze_repo (repo : Repo) : result RepositoryAnalysis :=
  let breakdown := mkBreakdown 0 0 0 0 0 0 0 in
  let stars := stargazers_count repo in
  let forks := forks_count repo in
  let project_value := Z.min 100 (stars * 2 + forks * 5) in
  let breakdown :=
    mkBreakdown (code_structure breakdown) (testing_ci breakdown) (readme breakdown)
                project_value (deployability breakdown) (complexity breakdown)
                (security breakdown) in
  let strengths :=
    if (50 <? project_value)%Z then ["High community interest (stars/forks)"] else [] in
  let repo_path := join temp_dir (name repo) in
  deep <-
    match clone_repo (clone_url repo) repo_path with
    | Some t =>
        let '(struct_score, struct_notes) :=
          _analyze_structure repo_path t (repo_language repo) in
        let strengths := strengths ++ note_strengths struct_notes in
        let weaknesses := note_weaknesses struct_notes in
        rd <- _analyze_readme llm repo_path t ;;
        let '(readme_score, readme_notes) := rd in
        let strengths :=
          match readme_notes with
          | Some n => strengths ++ note_strengths n
          | None => strengths
          end in
        let weaknesses :=
          match readme_notes with
          | Some n => weaknesses ++ note_weaknesses n
          | None => weaknesses
          end in
        let '(strengths, weaknesses) :=
          if (70 <? readme_score)%Z && is_empty_notes readme_notes
          then (strengths ++ ["Detailed README"], weaknesses)
          else if (readme_score <=? 40)%Z && is_empty_notes readme_notes
          then (strengths, weaknesses ++ ["README lacks depth"])
          else (strengths, weaknesses) in
        let '(test_score, _) := _analyze_testing repo_path t in
        let '(strengths, weaknesses) :=
          if (0 <? test_score)%Z
          then (strengths ++ ["Testing infrastructure detected"], weaknesses)
          else (strengths, weaknesses ++ ["No tests found"]) in
        let comp_score :=
          match repo_language repo with
          | Some "Python" => _analyze_complexity_python cc_visit repo_path t
          | _ => 50
          end in
        let '(sec_score, deploy_score) := _analyze_sec_deploy repo_path t in
        Ok (mkBreakdown struct_score test_score readme_score project_value
                        deploy_score comp_score sec_score,
            strengths, weaknesses, [])
    | None =>
        Ok (breakdown, strengths, [], ["Clone failed - manual inspection required"])
    end ;;
  let '(breakdown, strengths, weaknesses, critical_flags) := deep in
  composite <- _calculate_composite breakdown ;;
  Ok (mkAnalysis (name repo) (html_url repo) (repo_language repo) stars forks
                 (repo_description repo) composite (_get_rating_label composite)
                 breakdown strengths weaknesses critical_flags []).

End AnalyzeRepo.

End Analyzer.

(** ** Profile-level scores ([src/scoring.py]) *)

Module Scoring.
Import Float64 Py Analyzer.

(** The part of [profile_data] the two calculators read. *)
Record ProfileData : Type := mkProfile {
  username : string;
  profile_url : string;
  repositories : list RepositoryAnalysis
}.

Record HiringReadiness : Type := mkReadiness {
  score : Z;
  tier : string;
  tier_label : string
}.

(** One role: its ["score"] and its ["fit_label"]. *)
Record RoleFit : Type := mkRoleFit {
  fit_score : Z;
  fit_label : string
}.

Record RoleScores : Type := mkRoles {
  ml_engineer : RoleFit;
  backend_engineer : RoleFit;
  sre : RoleFit
}.

(** [for x in xs: state = step state x], stopping at the first exception. *)
Fixpoint for_each {S A : Type} (step : S -> A -> result S) (s : S) (xs : list A)
  : result S :=
  match xs with
  | [] => Ok s
  | x :: xs' => s' <- step s x ;; for_each step s' xs'
  end.

(** *** Helpers of the module *)

Definition get_fit_label (score : Z) : string :=
  if (80 <? score)%Z then "High Fit"
  else if (50 <? score)%Z then "Moderate Fit"
  else "Low Fit".

Definition tier_labels : list (string * string) :=
  [("🏆 Hire-Ready", "Strong candidate; portfolio speaks for itself");
   ("✅ Competitive", "Solid candidate; minor gaps to address");
   ("📈 Developing", "Promising; needs focused improvement in 2-3 areas");
   ("⚠️ Early Stage", "Real potential; portfolio needs significant work");
   ("🔴 Not Ready", "Foundational gaps; focus on fundamentals first")].

(** [labels.get(tier, default)] with the empty string as default. *)
Definition get_tier_label (tier : string) : string :=
  match find (fun p => String.eqb (fst p) tier) tier_labels with
  | Some p => snd p
  | None => EmptyString
  end.

(** The set of the non-empty languages, as a duplicate-free list. *)
Definition load_languages (repos : list RepositoryAnalysis) : list string :=
  fold_left
    (fun s r =>
       match language r with
       | Some l => if truthy (Some l) then ListSet.set_add string_dec l s else s
       | None => s
       end)
    repos [].

(** [sorted(xs, reverse=True)]. *)
Fixpoint insert_desc (x : Z) (l : list Z) : list Z :=
  match l with
  | [] => [x]
  | y :: l' => if (y <=? x)%Z then x :: l else y :: insert_desc x l'
  end.

Definition sorted_desc (xs : list Z) : list Z := fold_right insert_desc [] xs.

(** *** [compute_hiring_readiness] *)

Definition mean (xs : list Z) : result pynum :=
  match xs with
  | [] => Ok (PyInt 0)
  | _ => int_truediv (sum xs) (len xs)
  end.

(** The share, in percent, of the repositories whose sub-score is positive. *)
Definition presence (field : ScoreBreakdown -> Z) (repos : list RepositoryAnalysis)
  : result pynum :=
  let hits := filter (fun r => (0 <? field (score_breakdown r))%Z) repos in
  share <- int_truediv (len hits) (len repos) ;;
  py_mul share (PyInt 100).

(** [r.get("critical_flags")] is true for a non-empty list. *)
Definition has_critical_flags (r : RepositoryAnalysis) : bool :=
  match critical_flags r with
  | [] => false
  | _ :: _ => true
  end.

Definition security_baseline (repos : list RepositoryAnalysis) : Z :=
  let security_baseline :=
    fold_left (fun sb r => if has_critical_flags r then sb - 20 else sb) repos 100 in
  Z.max 0 security_baseline.

Definition tier_of (final_score : Z) : string :=
  if (85 <=? final_score)%Z then "🏆 Hire-Ready"
  else if (70 <=? final_score)%Z then "✅ Competitive"
  else if (55 <=? final_score)%Z then "📈 Developing"
  else if (40 <=? final_score)%Z then "⚠️ Early Stage"
  else "🔴 Not Ready".

Definition compute_hiring_readiness (profile_data : ProfileData)
  : result HiringReadiness :=
  let repos := repositories profile_data in
  match repos with
  | [] =>
      Ok (mkReadiness 0 "🔴 Not Ready"
                      "Foundational gaps; focus on fundamentals first")
  | _ =>
      let repo_scores := map composite_score repos in
      avg_repo_score <- mean repo_scores ;;
      let best_3 := firstn 3 (sorted_desc repo_scores) in
      best_3_repos_avg <- mean best_3 ;;
      let langs := load_languages repos in
      let portfolio_diversity := Z.min 100 (len langs * 20) in
      testing_ci_presence <- presence testing_ci repos ;;
      deployability_presence <- presence deployability repos ;;
      let security_baseline := security_baseline repos in
      t1 <- py_mul avg_repo_score (literal 35 100) ;;
      t2 <- py_mul best_3_repos_avg (literal 25 100) ;;
      s <- py_add t1 t2 ;;
      t3 <- py_mul (PyInt portfolio_diversity) (literal 15 100) ;;
      s <- py_add s t3 ;;
      t4 <- py_mul testing_ci_presence (literal 10 100) ;;
      s <- py_add s t4 ;;
      t5 <- py_mul deployability_presence (literal 10 100) ;;
      s <- py_add s t5 ;;
      t6 <- py_mul (PyInt security_baseline) (literal 5 100) ;;
      score <- py_add s t6 ;;
      final_score <- py_int score ;;
      let tier := tier_of final_score in
      Ok (mkReadiness final_score tier (get_tier_label tier))
  end.

(** *** [compute_role_fit] *)

Definition ml_keywords : list string :=
  ["model"; "train"; "dataset"; "jupyter"; "pandas"; "numpy"; "sklearn";
   "tensorflow"; "pytorch"].

Definition be_keywords : list string :=
  ["api"; "server"; "database"; "sql"; "rest"; "graphql"; "docker"; "auth"].

Definition sre_keywords : list string :=
  ["kubernetes"; "docker"; "terraform"; "ansible"; "cloud"; "aws"; "gcp";
   "azure"; "monitor"; "prometheus"].

Definition be_languages : list string :=
  ["Python"; "Go"; "Java"; "JavaScript"; "TypeScript"; "Rust"].

(** [description.lower()]: [None] has no such method. *)
Definition str_lower (description : option string) : result string :=
  match description with
  | Some s => Ok (lower s)
  | None => Raise AttributeError
  end.

(** [any(k in description.lower() for k in keywords if description)]: the
    filter is evaluated before the element, for each keyword in turn. *)
Fixpoint keyword_hit (keywords : list string) (description : option string)
  : result bool :=
  match keywords with
  | [] => Ok false
  | k :: keywords' =>
      if truthy description then
        text <- str_lower description ;;
        if contains k text then Ok true else keyword_hit keywords' description
      else keyword_hit keywords' description
  end.

Definition language_is (r : RepositoryAnalysis) (l : string) : bool :=
  match language r with
  | Some x => String.eqb x l
  | None => false
  end.

Definition language_in (r : RepositoryAnalysis) (ls : list string) : bool :=
  match language r with
  | Some x => elem x ls
  | None => false
  end.

Definition ml_step (ml_score : Z) (r : RepositoryAnalysis) : result Z :=
  let ml_score :=
    if language_is r "Jupyter Notebook" || language_is r "Python"
    then ml_score + 10 else ml_score in
  hit <- keyword_hit ml_keywords (description r) ;;
  Ok (if hit then ml_score + 15 else ml_score).

Definition be_step (be_score : pynum) (r : RepositoryAnalysis) : result pynum :=
  be_score <- (if language_in r be_languages
               then py_add be_score (PyInt 10) else Ok be_score) ;;
  hit <- keyword_hit be_keywords (description r) ;;
  be_score <- (if hit then py_add be_score (PyInt 15) else Ok be_score) ;;
  bonus <- int_truediv (code_structure (score_breakdown r)) 10 ;;
  py_add be_score bonus.

Definition sre_step (sre_score : pynum) (r : RepositoryAnalysis) : result pynum :=
  hit <- keyword_hit sre_keywords (description r) ;;
  sre_score <- (if hit then py_add sre_score (PyInt 20) else Ok sre_score) ;;
  bonus <- int_truediv (deployability (score_breakdown r)) 2 ;;
  py_add sre_score bonus.

Definition compute_role_fit (profile_data : ProfileData) : result RoleScores :=
  let roles :=
    mkRoles (mkRoleFit 0 EmptyString) (mkRoleFit 0 EmptyString)
            (mkRoleFit 0 EmptyString) in
  let repos := repositories profile_data in
  match repos with
  | [] => Ok roles
  | _ =>
      ml_score <- for_each ml_step 0 repos ;;
      let ml := Z.min 100 ml_score in
      let roles := mkRoles (mkRoleFit ml (get_fit_label ml))
                           (backend_engineer roles) (sre roles) in
      be_score <- for_each be_step (PyInt 0) repos ;;
      be_int <- py_int be_score ;;
      let be := Z.min 100 be_int in
      let roles := mkRoles (ml_engineer roles) (mkRoleFit be (get_fit_label be))
                           (sre roles) in
      sre_score <- for_each sre_step (PyInt 0) repos ;;
      sre_int <- py_int sre_score ;;
      let sre_final := Z.min 100 sre_int in
      let roles := mkRoles (ml_engineer roles) (backend_engineer roles)
                           (mkRoleFit sre_final (get_fit_label sre_final)) in
      Ok roles
  end.

End Scoring.

(** ** Reference definitions for the stated properties *)

Module Spec.
Import Float64 Py Analyzer Scoring.

(** The doubles denoted by the weight literals of the composite score. *)
Definition w025 : Q := Eval vm_compute in rnd (25 # 100).
Definition w020 : Q := Eval vm_compute in rnd (20 # 100).
Definition w015 : Q := Eval vm_compute in rnd (15 # 100).
Definition w010 : Q := Eval vm_compute in rnd (10 # 100).
Definition w008 : Q := Eval vm_compute in rnd (8 # 100).
Definition w007 : Q := Eval vm_compute in rnd (7 # 100).

(** The double [100/15] of the complexity mapping. *)
Definition k_slope : Q := Eval vm_compute in rnd (100 # 15).

(** The weight table of the composite score, in the order of the sum. *)
Definition composite_weights : list ((ScoreBreakdown -> Z) * pynum) :=
  [(code_structure, literal 25 100); (testing_ci, literal 20 100);
   (readme, literal 15 100); (project_value, literal 15 100);
   (deployability, literal 10 100); (complexity, literal 8 100);
   (security, literal 7 100)].

(** The weighted sum of a breakdown over a weight table, added from left
    to right. *)
Definition weighted_sum (weights : list ((ScoreBreakdown -> Z) * pynum))
    (b : ScoreBreakdown) : result pynum :=
  match weights with
  | [] => Ok (PyInt 0)
  | (f, w) :: rest =>
      first <- py_mul (PyInt (f b)) w ;;
      for_each (fun s fw => t <- py_mul (PyInt (fst fw b)) (snd fw) ;; py_add s t)
               first rest
  end.

(** The exact weighted sum, in hundredths. *)
Definition weighted_total (b : ScoreBreakdown) : Z :=
  25 * code_structure b + 20 * testing_ci b + 15 * readme b +
  15 * project_value b + 10 * deployability b + 8 * complexity b +
  7 * security b.

Definition fields_between (lo hi : Z) (b : ScoreBreakdown) : Prop :=
  lo <= code_structure b <= hi /\ lo <= testing_ci b <= hi /\
  lo <= readme b <= hi /\ lo <= project_value b <= hi /\
  lo <= deployability b <= hi /\ lo <= complexity b <= hi /\
  lo <= security b <= hi.

(** The real-valued line of the complexity mapping at the average [a], and
    the mapping [max(0, 100 - (a - 5) * (100/15))] read over the reals. *)
Definition linear_score (a : Q) : Q := (100 - (a - 5) * (100 # 15))%Q.

Definition real_complexity_score (a : Q) : Q :=
  if Qle_bool (linear_score a) 0 then 0%Q else linear_score a.

(** A directory entry or file of a walk that counts as a test signal. *)
Definition is_test_dir (d : string) : bool := elem d test_dirs.
Definition is_test_file (f : string * string) : bool :=
  contains "test" (lower (fst f)).

Definition no_test_signals (w : list walk_entry) : bool :=
  forallb (fun e => negb (existsb is_test_dir (dirs e) || existsb is_test_file (files e))) w.

(** Insertion of [x] at position [k] of a listing. *)
Fixpoint insert_at {A : Type} (k : nat) (x : A) (l : list A) : option (list A) :=
  match k, l with
  | O, _ => Some (x :: l)
  | S k', y :: l' => option_map (cons y) (insert_at k' x l')
  | S _, [] => None
  end.

(** Rewriting of the listing of the [i]-th entry, a directory. *)
Fixpoint update_dir (i : nat) (f : tree -> option tree) (t : tree) {struct t}
  : option tree :=
  match t, i with
  | [], _ => None
  | (n, Dir ch) :: t', O => option_map (fun ch' => (n, Dir ch') :: t') (f ch)
  | (_, File _) :: _, O => None
  | p :: t', S i' => option_map (cons p) (update_dir i' f t')
  end.

(** The tree [t] with one more directory [d], of content [sub], placed at
    position [k] of the directory reached by the child indices [loc]. *)
Fixpoint add_dir (loc : list nat) (k : nat) (d : string) (sub : tree) (t : tree)
  : option tree :=
  match loc with
  | [] => insert_at k (d, Dir sub) t
  | i :: loc' => update_dir i (add_dir loc' k d sub) t
  end.

(** Number of repositories whose [critical_flags] list is non-empty, read
    off the length of the list. *)
Definition flagged (repos : list RepositoryAnalysis) : Z :=
  len (filter (fun r => negb (Nat.eqb (List.length (critical_flags r)) 0)) repos).


(** The running totals of the backend and SRE loops: an [int] below 100
    before the first float is added, a double in [[0, 2^60]] afterwards. *)
Definition cap : Q := inject_Z (2 ^ 60).

Definition loop_inv (k : Z) (acc : pynum) : Prop :=
  match acc with
  | PyInt n => 0 <= n <= k
  | PyFloat (Fin q) => (0 <= q <= cap)%Q
  | PyFloat _ => False
  end.

(** Repositories whose two sub-scores read by the role model are in range. *)
Definition role_inputs_in_range (repos : list RepositoryAnalysis) : Prop :=
  Forall (fun r => 0 <= code_structure (score_breakdown r) <= 100 /\
                   0 <= deployability (score_breakdown r) <= 100) repos.

(** *** Sample inputs *)

Definition sample_tmp : string := "/tmp/tmpk3x9".

(** A tree whose only file is a pytest configuration. *)
Definition pytest_only : tree := [("pytest.ini", File "[pytest]")].

(** A small Python project without tests. *)
Definition plain_python : tree :=
  [("README.md", File "# demo");
   ("main.py", File "def main(): return 0");
   ("src", Dir [("util.py", File "def helper(x): return x")])].

(** radon reporting one block of complexity [c] for every file. *)
Definition blocks_of (c : Z) (content : string) : option (list Z) := Some [c].

(** radon on [plain_python]: one block of complexity 1 per file. *)
Definition one_simple_block : string -> option (list Z) := blocks_of 1.

Definition python_repo : Repo :=
  mkRepo "demo" "https://github.com/u/demo" "https://github.com/u/demo.git"
         (Some "Python") 0 0 (Some "A demo").

Definition starred_repo : Repo :=
  mkRepo "popular" "https://github.com/u/popular" "https://github.com/u/popular.git"
         (Some "Go") 30 10 None.

Definition clone_fails (url target : string) : option tree := None.
Definition clone_plain (url target : string) : option tree := Some plain_python.

Definition example_breakdown : ScoreBreakdown := mkBreakdown 80 100 60 40 20 50 80.

Definition sample_analysis (lang desc : option string) (flags : list string)
  : RepositoryAnalysis :=
  mkAnalysis "r" "https://github.com/u/r" lang 0 0 desc 40 (_get_rating_label 40)
             (mkBreakdown 50 0 30 0 20 50 80) [] [] flags [].

End Spec.

(** ** The profile driver ([analyze_profile] of [src/analyzer.py]) *)

Module Profile.
Import Float64 Py Analyzer Scoring.

(** An entry of [user.get_repos()]: the repository object and its [fork]
    attribute. *)
Record ListedRepo : Type := mkListed {
  fork : bool;
  listed : Repo
}.

(** The user object of the hosting API with the listing that
    [get_repos()] yields. *)
Record NamedUser : Type := mkUser {
  login : string;
  user_html_url : string;
  get_repos : list ListedRepo
}.

(** The returned [profile_data]: the part the calculators read, the repository
    count and the two higher-level results.  The keys [analyzed_at] (the
    clock), [languages_detected] and [primary_language] (both depend on the
    iteration order of a [set]) and [llm_summary] (free text of the provider)
    are left out; none of the statements computing them can raise. *)
Record ProfileReport : Type := mkReport {
  profile : ProfileData;
  total_repos_analyzed : Z;
  hiring_readiness : HiringReadiness;
  role_scores : RoleScores
}.

Section AnalyzeProfile.

Variable temp_dir : string.
Variable clone_repo : string -> string -> option tree.
Variable llm : option (string -> option LlmReadme).
Variable cc_visit : string -> option (list Z).

(** [github.get_user]: [None] when it raises [GithubException]. *)
Variable get_user : string -> option NamedUser.

(** The body of the loop over the listing. *)
Definition analyze_listed (repositories : list RepositoryAnalysis) (repo : ListedRepo)
  : result (list RepositoryAnalysis) :=
  if fork repo then Ok repositories
  else
    repo_analysis <- analyze_repo temp_dir clone_repo llm cc_visit (listed repo) ;;
    Ok (repositories ++ [repo_analysis]).

(** The outer [None] is the source's [return None]. *)
Definition analyze_profile (username : string) : result (option ProfileReport) :=
  match get_user username with
  | None => Ok None
  | Some user =>
      repositories <- for_each analyze_listed [] (get_repos user) ;;
      let profile_data := mkProfile (login user) (user_html_url user) repositories in
      hiring_readiness <- compute_hiring_readiness profile_data ;;
      role_scores <- compute_role_fit profile_data ;;
      Ok (Some (mkReport profile_data (len repositories) hiring_readiness role_scores))
  end.

End AnalyzeProfile.

End Profile.

(** ** The summary report ([src/report.py]) *)

Module Report.
Import Py Analyzer Scoring.

(** [sorted(repos, key=lambda x: x.get("composite_score", 0), reverse=True)]:
    a stable sort, so repositories of equal score keep their order. *)
Fixpoint insert_by_score (r : RepositoryAnalysis) (l : list RepositoryAnalysis)
  : list RepositoryAnalysis :=
  match l with
  | [] => [r]
  | y :: l' =>
      if (composite_score y <=? composite_score r)%Z then r :: l
      else y :: insert_by_score r l'
  end.

Definition sorted_repos (repos : list RepositoryAnalysis) : list RepositoryAnalysis :=
  fold_right insert_by_score [] repos.

(** The repositories of the section of highlights: [sorted_repos[:3]]. *)
Definition top_repos (repos : list RepositoryAnalysis) : list RepositoryAnalysis :=
  firstn 3 (sorted_repos repos).

End Report.

(** ** The command line ([main.py]) *)

Module Main.
Import Py.

(** [s.rstrip(c)] for a single character [c]. *)
Fixpoint rstrip (c : ascii) (s : string) : string :=
  match s with
  | EmptyString => EmptyString
  | String a s' =>
      match rstrip c s' with
      | EmptyString => if Ascii.eqb a c then EmptyString else String a EmptyString
      | r => String a r
      end
  end.

(** [s.split(sep)] for a single character [sep]: never an empty list. *)
Fixpoint split (sep : ascii) (s : string) : list string :=
  match s with
  | EmptyString => [EmptyString]
  | String a s' =>
      if Ascii.eqb a sep then EmptyString :: split sep s'
      else match split sep s' with
           | h :: t => String a h :: t
           | [] => [String a EmptyString]
           end
  end.

(** [s.replace(c, e)] for a single character [c] and the empty string [e]. *)
Fixpoint remove_char (c : ascii) (s : string) : string :=
  match s with
  | EmptyString => EmptyString
  | String a s' => if Ascii.eqb a c then remove_char c s' else String a (remove_char c s')
  end.

(** The user name taken from the [profile] argument: the text after the
    last slash, trailing slashes and every at-sign dropped.  Both characters
    are ASCII, so the byte-wise reading agrees with the source on UTF-8
    text. *)
Definition username_of (raw_input : string) : string :=
  remove_char "@" (last (split "/" (rstrip "/" raw_input)) EmptyString).

End Main.

(** ** Further reference definitions *)

Module Cover.
Import Float64 Py Analyzer Scoring Spec Profile.

(** A file that the deploy scan counts: a marker name or a Terraform file. *)
Definition is_deploy_signal (f : string * string) : bool :=
  elem (fst f) deploy_files || endswith (fst f) ".tf".

(** A walk triple at which the second loop of the testing scan returns. *)
Definition is_ci_signal (e : walk_entry) : bool :=
  existsb (fun f => elem (fst f) config_files || contains ".github" (root e)) (files e).

Definition all_files (w : list walk_entry) : list (string * string) :=
  flat_map files w.

(** The least product and the greatest score of the complexity mapping on
    averages of at least 1. *)
Definition p_min : Q := Eval vm_compute in rnd (- (4) * k_slope).
Definition r_max : Q := Eval vm_compute in rnd (100 - p_min).

(** radon reports complexities of at least 1. *)
Definition radon_like (cc_visit : string -> option (list Z)) : Prop :=
  forall content l, cc_visit content = Some l -> Forall (fun c => 1 <= c) l.

(** Some Python file of the walk on which [cc_visit] raises. *)
Definition has_unparsable (cc_visit : string -> option (list Z)) (w : list walk_entry)
  : bool :=
  existsb (fun f => endswith (fst f) ".py" &&
                    match cc_visit (snd f) with None => true | Some _ => false end)
          (flat_map files w).

(** The doubles denoted by the two weight literals only the readiness score
    uses. *)
Definition w035 : Q := Eval vm_compute in rnd (35 # 100).
Definition w005 : Q := Eval vm_compute in rnd (5 # 100).

Definition composites_in_range (repos : list RepositoryAnalysis) : Prop :=
  Forall (fun r => 0 <= composite_score r <= 100) repos.

(** The provider keeps to the score range [[0,100]] it is asked for. *)
Definition provider_in_range (llm : option (string -> option LlmReadme)) : Prop :=
  match llm with
  | None => True
  | Some analyze =>
      forall content answer, analyze content = Some answer -> 0 <= llm_score answer <= 100
  end.

(** The first entry named like a README is a directory. *)
Definition readme_is_directory (t : tree) : bool :=
  match find_readme t with
  | Some (Dir _) => true
  | _ => false
  end.

(** The double that [_calculate_composite] passes to [int], as nested
    roundings. *)
Definition composite_double (b : ScoreBreakdown) : Q :=
  let t1 := rnd (inject_Z (code_structure b) * w025) in
  let t2 := rnd (inject_Z (testing_ci b) * w020) in
  let s := rnd (t1 + t2) in
  let s := rnd (s + rnd (inject_Z (readme b) * w015)) in
  let s := rnd (s + rnd (inject_Z (project_value b) * w015)) in
  let s := rnd (s + rnd (inject_Z (deployability b) * w010)) in
  let s := rnd (s + rnd (inject_Z (complexity b) * w008)) in
  rnd (s + rnd (inject_Z (security b) * w007)).

(** Field-wise order of two breakdowns. *)
Definition breakdown_le (b b' : ScoreBreakdown) : Prop :=
  code_structure b <= code_structure b' /\ testing_ci b <= testing_ci b' /\
  readme b <= readme b' /\ project_value b <= project_value b' /\
  deployability b <= deployability b' /\ complexity b <= complexity b' /\
  security b <= security b'.

(** [c in s] and [c * k] for a character [c]. *)
Fixpoint has_char (c : ascii) (s : string) : bool :=
  match s with
  | EmptyString => false
  | String a s' => Ascii.eqb a c || has_char c s'
  end.

Fixpoint repeat_char (c : ascii) (k : nat) : string :=
  match k with
  | O => EmptyString
  | S k' => String c (repeat_char c k')
  end.

(** The repositories of a listing that [analyze_profile] analyses. *)
Definition non_forks (l : list ListedRepo) : list Repo :=
  map listed (filter (fun r => negb (fork r)) l).

(** The clone of [repo] succeeds and its README entry is a directory. *)
Definition clones_readme_directory (temp_dir : string)
    (clone_repo : string -> string -> option tree) (repo : Repo) : bool :=
  match clone_repo (clone_url repo) (join temp_dir (name repo)) with
  | Some t => readme_is_directory t
  | None => false
  end.

(** Counters as the hosting API reports them. *)
Definition counts_nonneg (repo : Repo) : Prop :=
  0 <= stargazers_count repo /\ 0 <= forks_count repo.

(** The ranges of a repository analysis that the profile calculators rely
    on. *)
Definition analysis_in_range (a : RepositoryAnalysis) : Prop :=
  0 <= composite_score a <= 91 /\
  0 <= code_structure (score_breakdown a) <= 100 /\
  0 <= deployability (score_breakdown a) <= 100.

(** *** Further sample inputs *)

(** radon failing on every text. *)
Definition radon_rejects (content : string) : option (list Z) := None.

(** A provider answering every README with the same verdict. *)
Definition steady_provider (content : string) : option LlmReadme :=
  Some (mkLlmReadme 90 ["Clear goals"] ["No examples"]).

(** A clone whose README entry is a directory. *)
Definition readme_folder : tree :=
  [("readme", Dir [("index.md", File "# docs")]); ("main.py", File "print(1)")].

Definition clone_readme_folder (url target : string) : option tree := Some readme_folder.

Definition sample_user : NamedUser :=
  mkUser "u" "https://github.com/u"
         [mkListed true starred_repo; mkListed false python_repo].

Definition lookup_sample (username : string) : option NamedUser := Some sample_user.

(** A polished Python service: source layout, tests, a CI marker, container
    and Terraform files, and a long README with every section keyword. *)
Definition long_readme : string :=
  ("## Install, usage, contributing and license " ++ repeat_char "." 600)%string.

Definition polished : tree :=
  [("Dockerfile", File "FROM python:3");
   ("README.md", File long_readme);
   ("main.tf", File "terraform {}");
   ("pytest.ini", File "[pytest]");
   ("src", Dir [("app.py", File "def run(): pass")]);
   ("tests", Dir [])].

Definition clone_polished (url target : string) : option tree := Some polished.

(** radon reporting four blocks, of average complexity 5.75, for a file. *)
Definition four_blocks (content : string) : option (list Z) := Some [5; 6; 6; 6].

Definition polished_repo : Repo :=
  mkRepo "polished" "https://github.com/u/polished" "https://github.com/u/polished.git"
         (Some "Python") 1 0 (Some "A small service").

End Cover.

(* ================================================================== *)
(** * Properties *)
(* ================================================================== *)

(** ** Rounding to binary64 *)

Module Float64Facts.
Import Float64.
Lemma rne_bounds x : (Qfloor x <= rne x <= Qfloor x + 1)%Z.
Proof.
  unfold rne. destruct (Qcompare _ _); [destruct (Z.even _)|..]; lia.
Qed.

Lemma rne_Z n : rne (inject_Z n) = n.
Proof.
  unfold rne. rewrite Qfloor_Z.
  assert (H : (inject_Z n - inject_Z n ?= 1 # 2)%Q = Lt).
  { rewrite <- Qlt_alt. lra. }
  now rewrite H.
Qed.

Lemma rne_mono x y : (x <= y)%Q -> (rne x <= rne y)%Z.
Proof.
  intros Hxy.
  pose proof (Qfloor_resp_le _ _ Hxy) as Hf.
  pose proof (rne_bounds x) as Hx. pose proof (rne_bounds y) as Hy.
  destruct (Z.eq_dec (Qfloor x) (Qfloor y)) as [E|NE]; [|lia].
  unfold rne in *. rewrite <- E in *.
  destruct (Qcompare_spec (x - inject_Z (Qfloor x)) (1#2)) as [Ex|Lx|Gx];
  destruct (Qcompare_spec (y - inject_Z (Qfloor x)) (1#2)) as [Ey|Ly|Gy];
  try destruct (Z.even (Qfloor x)); try lia; exfalso; lra.
Qed.

Lemma rne_nonneg x : (0 <= x)%Q -> (0 <= rne x)%Z.
Proof.
  intros H. pose proof (rne_mono (inject_Z 0) x H) as H'. now rewrite rne_Z in H'.
Qed.

Lemma rne_proper x y : (x == y)%Q -> rne x = rne y.
Proof.
  intros E. apply Z.le_antisymm; apply rne_mono; rewrite E; apply Qle_refl.
Qed.

Lemma inject_pow_pos s : (0 <= s)%Z -> (0 < inject_Z (2 ^ s))%Q.
Proof.
  intros Hs. change 0%Q with (inject_Z 0). rewrite <- Zlt_Qlt.
  apply Z.pow_pos_nonneg; lia.
Qed.

Lemma Qdiv_le_mono x y c : (0 < c)%Q -> (x <= y)%Q -> (x / c <= y / c)%Q.
Proof.
  intros Hc Hxy. apply Qle_shift_div_l; [exact Hc|].
  unfold Qdiv. rewrite <- Qmult_assoc, (Qmult_comm (/ c)), Qmult_inv_r, Qmult_1_r.
  - exact Hxy.
  - intros E. rewrite E in Hc. apply (Qlt_irrefl 0 Hc).
Qed.

Lemma inject_pow_div a b :
  (0 <= b <= a)%Z -> (inject_Z (2 ^ a) / inject_Z (2 ^ b) == inject_Z (2 ^ (a - b)))%Q.
Proof.
  intros H. pose proof (inject_pow_pos b (proj1 H)) as Hb.
  replace a with ((a - b) + b)%Z at 1 by lia.
  rewrite Z.pow_add_r by lia. rewrite inject_Z_mult.
  field. intros E. rewrite E in Hb. apply (Qlt_irrefl 0 Hb).
Qed.

Lemma rnd_mag_mono x y : (0 <= x)%Q -> (x <= y)%Q -> (rnd_mag x <= rnd_mag y)%Z.
Proof.
  intros H0 Hxy. unfold rnd_mag.
  assert (Htx : (0 <= Qfloor x)%Z) by exact (Qfloor_resp_le 0 x H0).
  pose proof (Qfloor_resp_le _ _ Hxy) as Ht.
  set (tx := Qfloor x) in *. set (ty := Qfloor y) in *.
  pose proof (Z.log2_le_mono _ _ Ht) as Hl.
  set (lx := Z.log2 tx) in *. set (ly := Z.log2 ty) in *.
  destruct (Z.eq_dec (Z.max (lx - 52) 0) (Z.max (ly - 52) 0)) as [E|NE].
  - rewrite <- E. set (s := Z.max (lx - 52) 0).
    assert (Hs : (0 <= s)%Z) by (subst s; lia).
    apply Z.mul_le_mono_nonneg_r; [apply Z.pow_nonneg; lia|].
    apply rne_mono, Qdiv_le_mono; [now apply inject_pow_pos | exact Hxy].
  - assert (Hlt : (lx < ly)%Z) by lia.
    assert (Hly : (52 < ly)%Z) by lia.
    assert (Hty : (0 < ty)%Z).
    { destruct (Z.lt_trichotomy ty 0) as [C|[C|C]]; [lia| |exact C].
      subst ly. rewrite C in Hly. simpl in Hly. lia. }
    assert (HxB : (x <= inject_Z (2 ^ ly))%Q).
    { apply Qlt_le_weak. apply Qlt_le_trans with (inject_Z (tx + 1)).
      - apply Qlt_floor.
      - rewrite <- Zle_Qle.
        destruct (Z.eq_dec tx 0) as [Z0|NZ].
        + rewrite Z0. pose proof (Z.pow_pos_nonneg 2 ly). lia.
        + pose proof (Z.log2_spec tx ltac:(lia)) as [_ Hu]. fold lx in Hu.
          pose proof (Z.pow_le_mono_r 2 (Z.succ lx) ly ltac:(lia) ltac:(lia)). lia. }
    assert (HBy : (inject_Z (2 ^ ly) <= y)%Q).
    { apply Qle_trans with (inject_Z ty); [|apply Qfloor_le].
      rewrite <- Zle_Qle. pose proof (Z.log2_spec ty Hty) as [Hl' _]. exact Hl'. }
    set (sx := Z.max (lx - 52) 0). set (sy := Z.max (ly - 52) 0).
    assert (Hsx : (0 <= sx <= ly)%Z) by (subst sx; lia).
    assert (Hsy : (0 <= sy <= ly)%Z) by (subst sy; lia).
    apply Z.le_trans with (2 ^ ly)%Z.
    + replace (2 ^ ly)%Z with (2 ^ (ly - sx) * 2 ^ sx)%Z
        by (rewrite <- Z.pow_add_r by lia; f_equal; lia).
      apply Z.mul_le_mono_nonneg_r; [apply Z.pow_nonneg; lia|].
      rewrite <- (rne_Z (2 ^ (ly - sx))).
      rewrite <- (rne_proper _ _ (inject_pow_div ly sx Hsx)).
      apply rne_mono, Qdiv_le_mono; [apply inject_pow_pos; lia | exact HxB].
    + replace (2 ^ ly)%Z with (2 ^ (ly - sy) * 2 ^ sy)%Z at 1
        by (rewrite <- Z.pow_add_r by lia; f_equal; lia).
      apply Z.mul_le_mono_nonneg_r; [apply Z.pow_nonneg; lia|].
      rewrite <- (rne_Z (2 ^ (ly - sy))).
      rewrite <- (rne_proper _ _ (inject_pow_div ly sy Hsy)).
      apply rne_mono, Qdiv_le_mono; [apply inject_pow_pos; lia | exact HBy].
Qed.

Lemma rnd_mag_nonneg x : (0 <= x)%Q -> (0 <= rnd_mag x)%Z.
Proof.
  intros H. unfold rnd_mag. apply Z.mul_nonneg_nonneg.
  - apply rne_nonneg. apply Qle_shift_div_l; [apply inject_pow_pos; lia|]. lra.
  - apply Z.pow_nonneg; lia.
Qed.

Lemma rnd_units_mono x y : (x <= y)%Q -> (rnd_units x <= rnd_units y)%Z.
Proof.
  intros Hxy. unfold rnd_units.
  destruct (Qcompare_spec x 0) as [Ex|Lx|Gx];
  destruct (Qcompare_spec y 0) as [Ey|Ly|Gy].
  all: try (apply rnd_mag_mono; lra).
  all: try (exfalso; lra).
  - pose proof (rnd_mag_nonneg (-x) ltac:(lra)). pose proof (rnd_mag_nonneg y ltac:(lra)). lia.
  - pose proof (rnd_mag_mono (-y) (-x) ltac:(lra) ltac:(lra)). lia.
  - pose proof (rnd_mag_nonneg (-x) ltac:(lra)). pose proof (rnd_mag_nonneg y ltac:(lra)). lia.
Qed.

Lemma ulp0_pos : (0 < inject_Z ulp0)%Q.
Proof. apply inject_pow_pos. lia. Qed.

Lemma rnd_mono x y : (x <= y)%Q -> (rnd x <= rnd y)%Q.
Proof.
  intros Hxy. unfold rnd. rewrite !Qred_correct.
  apply Qdiv_le_mono; [apply ulp0_pos|].
  rewrite <- Zle_Qle. apply rnd_units_mono.
  apply Qmult_le_compat_r; [exact Hxy | apply Qlt_le_weak, ulp0_pos].
Qed.

Lemma rnd_proper x y : (x == y)%Q -> rnd x = rnd y.
Proof.
  intros E. apply Qred_complete. 
  assert (rnd_units (x * inject_Z ulp0) = rnd_units (y * inject_Z ulp0)) as ->; [|reflexivity].
  apply Z.le_antisymm; apply rnd_units_mono; rewrite E; apply Qle_refl.
Qed.


Lemma rne_err x : (x - (1#2) <= inject_Z (rne x) <= x + (1#2))%Q.
Proof.
  unfold rne.
  pose proof (Qfloor_le x) as Hl. pose proof (Qlt_floor x) as Hu.
  rewrite inject_Z_plus in Hu. change (inject_Z 1) with 1%Q in Hu.
  destruct (Qcompare_spec (x - inject_Z (Qfloor x)) (1#2)) as [E|L|G];
    [destruct (Z.even (Qfloor x))|..];
    rewrite ?inject_Z_plus; change (inject_Z 1) with 1%Q; split; lra.
Qed.

(** Absolute error of rounding a magnitude of at most [2^20] (in units:
    [2^1094]): half a unit in the last place, at most [2^-33]. *)
Lemma rnd_mag_err X :
  (0 <= X)%Q -> (X <= inject_Z (2 ^ 1094))%Q ->
  (X - inject_Z (2 ^ 1041) <= inject_Z (rnd_mag X) <= X + inject_Z (2 ^ 1041))%Q.
Proof.
  intros H0 HB. unfold rnd_mag.
  assert (Hf0 : (0 <= Qfloor X)%Z) by exact (Qfloor_resp_le 0 X H0).
  assert (HfB : (Qfloor X <= 2 ^ 1094)%Z).
  { rewrite <- (Qfloor_Z (2 ^ 1094)). now apply Qfloor_resp_le. }
  pose proof (Z.log2_le_mono _ _ HfB) as Hl.
  rewrite Z.log2_pow2 in Hl by lia.
  set (s := Z.max (Z.log2 (Qfloor X) - 52) 0) in *.
  assert (Hs : (0 <= s <= 1042)%Z) by (subst s; lia).
  pose proof (inject_pow_pos s (proj1 Hs)) as HP.
  assert (HP2 : (inject_Z (2 ^ s) <= 2 * inject_Z (2 ^ 1041))%Q).
  { change 2%Q with (inject_Z 2). rewrite <- inject_Z_mult, <- Zle_Qle.
    change (2 * 2 ^ 1041)%Z with (2 ^ 1042)%Z.
    apply Z.pow_le_mono_r; lia. }
  pose proof (rne_err (X / inject_Z (2 ^ s))) as [Hlo Hhi].
  rewrite inject_Z_mult.
  set (P := inject_Z (2 ^ s)) in *. set (C := inject_Z (2 ^ 1041)) in *.
  set (r := inject_Z (rne (X / P))) in *.
  assert (HX : (X == (X / P) * P)%Q).
  { field. intros E. rewrite E in HP. apply (Qlt_irrefl 0 HP). }
  set (z := (X / P)%Q) in *.
  clearbody P C r z. clear - HP HP2 Hlo Hhi HX.
  rewrite HX. split; nra.
Qed.

Lemma rnd_units_err X :
  (- inject_Z (2 ^ 1094) <= X)%Q -> (X <= inject_Z (2 ^ 1094))%Q ->
  (X - inject_Z (2 ^ 1041) <= inject_Z (rnd_units X) <= X + inject_Z (2 ^ 1041))%Q.
Proof.
  intros Hl Hu. unfold rnd_units.
  destruct (Qcompare_spec X 0) as [E|L|G].
  - apply rnd_mag_err; [rewrite E; apply Qle_refl | exact Hu].
  - pose proof (rnd_mag_err (- X) ltac:(lra) ltac:(lra)) as [A B].
    rewrite inject_Z_opp. split; lra.
  - apply rnd_mag_err; [lra | exact Hu].
Qed.


(** Rounding a real of magnitude at most [2^20] moves it by at most
    [2^-33]. *)
Lemma rnd_err x :
  (- bound <= x <= bound)%Q -> (x - eps <= rnd x <= x + eps)%Q.
Proof.
  intros [Hl Hu]. unfold rnd. rewrite Qred_correct.
  pose proof ulp0_pos as HU.
  assert (HB : (bound * inject_Z ulp0 == inject_Z (2 ^ 1094))%Q) by reflexivity.
  assert (HC : (eps * inject_Z ulp0 == inject_Z (2 ^ 1041))%Q) by reflexivity.
  pose proof (rnd_units_err (x * inject_Z ulp0)) as H.
  set (U := inject_Z ulp0) in *. set (B := inject_Z (2 ^ 1094)) in *.
  set (C := inject_Z (2 ^ 1041)) in *.
  set (r := inject_Z (rnd_units (x * U))) in *.
  assert (H1 : (- B <= x * U)%Q) by (rewrite <- HB; nra).
  assert (H2 : (x * U <= B)%Q) by (rewrite <- HB; nra).
  specialize (H H1 H2). destruct H as [A1 A2].
  rewrite <- HC in A1, A2.
  split.
  - apply Qle_shift_div_l; [exact HU|]. lra.
  - apply Qle_shift_div_r; [exact HU|]. lra.
Qed.

Lemma round64_near x :
  (- bound <= x <= bound)%Q ->
  exists q, round64 x = Fin q /\ (x - eps <= q <= x + eps)%Q.
Proof.
  intros Hx. pose proof (rnd_err x Hx) as [A B].
  exists (rnd x). split; [|split; assumption].
  unfold round64.
  assert (Hh : (bound + eps < inject_Z huge)%Q) by reflexivity.
  destruct (Qle_bool (inject_Z huge) (rnd x)) eqn:E1.
  { apply Qle_bool_iff in E1. exfalso. destruct Hx. lra. }
  destruct (Qle_bool (rnd x) (- inject_Z huge)) eqn:E2.
  { apply Qle_bool_iff in E2. exfalso. destruct Hx. lra. }
  reflexivity.
Qed.


Lemma rnd_0 : rnd 0 = 0%Q.
Proof. reflexivity. Qed.

Lemma round64_near_nonneg x :
  (0 <= x <= bound)%Q ->
  exists q, round64 x = Fin q /\ (x - eps <= q <= x + eps)%Q /\ (0 <= q)%Q.
Proof.
  intros [H0 HB].
  assert (Hx : (- bound <= x <= bound)%Q).
  { split; [|exact HB]. assert (0 <= bound)%Q by (now vm_compute). lra. }
  destruct (round64_near x Hx) as (q & Hq & Hn).
  exists q. repeat split; try apply Hn; try exact Hq.
  pose proof (rnd_mono _ _ H0) as Hm. rewrite rnd_0 in Hm.
  unfold round64 in Hq.
  destruct (Qle_bool _ _); [discriminate|].
  destruct (Qle_bool _ _); [discriminate|].
  injection Hq as <-. exact Hm.
Qed.

(** Integers of magnitude below [2^53] are doubles. *)
Lemma rnd_mag_int n :
  (0 <= n <= 2 ^ 53)%Z -> rnd_mag (inject_Z n * inject_Z ulp0) = (n * ulp0)%Z.
Proof.
  intros Hn. unfold rnd_mag.
  assert (HQ : (inject_Z n * inject_Z ulp0 == inject_Z (n * ulp0))%Q)
    by (now rewrite inject_Z_mult).
  rewrite (Qfloor_comp _ _ HQ), Qfloor_Z.
  set (s := Z.max (Z.log2 (n * ulp0) - 52) 0).
  assert (Hs : (0 <= s <= 1075)%Z).
  { subst s. split; [lia|].
    assert (Hle : (n * ulp0 <= 2 ^ 53 * 2 ^ 1074)%Z).
    { apply Z.mul_le_mono_nonneg_r; [|lia]. unfold ulp0. apply Z.pow_nonneg. lia. }
    apply Z.log2_le_mono in Hle.
    rewrite <- Z.pow_add_r, Z.log2_pow2 in Hle by lia. lia. }
  destruct (Z.eq_dec s 1075) as [E|NE].
  - (* only [n = 2^53] reaches the last binade *)
    assert (Hlog : (1127 <= Z.log2 (n * ulp0))%Z) by (subst s; lia).
    assert (Hn53 : n = (2 ^ 53)%Z).
    { destruct (Z.eq_dec n (2 ^ 53)) as [?|Hne]; [assumption|exfalso].
      assert (Hlt : (n * ulp0 < 2 ^ 1127)%Z).
      { change (2 ^ 1127)%Z with (2 ^ 53 * ulp0)%Z.
        apply Z.mul_lt_mono_pos_r; [now vm_compute | lia]. }
      destruct (Z.eq_dec n 0) as [Z0|NZ].
      + rewrite Z0 in Hlog. simpl in Hlog. lia.
      + assert (Hpos : (0 < n * ulp0)%Z).
        { apply Z.mul_pos_pos; [lia | now vm_compute]. }
        apply Z.log2_lt_pow2 in Hlt; [lia | exact Hpos]. }
    rewrite E, Hn53.
    assert (HE : (inject_Z (2 ^ 53) * inject_Z ulp0 / inject_Z (2 ^ 1075)
                  == inject_Z (2 ^ 52))%Q) by reflexivity.
    rewrite (rne_proper _ _ HE), rne_Z. reflexivity.
  - assert (Hs' : (0 <= s <= 1074)%Z) by lia.
    assert (HE : (inject_Z n * inject_Z ulp0 / inject_Z (2 ^ s)
                  == inject_Z (n * 2 ^ (1074 - s)))%Q).
    { rewrite inject_Z_mult. unfold ulp0.
      replace 1074%Z with ((1074 - s) + s)%Z at 1 by lia.
      rewrite Z.pow_add_r by lia. rewrite inject_Z_mult.
      pose proof (inject_pow_pos s (proj1 Hs')) as HP.
      field. intros E. rewrite E in HP. apply (Qlt_irrefl 0 HP). }
    rewrite (rne_proper _ _ HE), rne_Z.
    rewrite <- Z.mul_assoc, <- Z.pow_add_r by lia.
    unfold ulp0. do 2 f_equal. lia.
Qed.

Lemma Qred_inject n : Qred (inject_Z n) = inject_Z n.
Proof.
  unfold Qred, inject_Z.
  pose proof (Z.ggcd_gcd n 1) as Hg. pose proof (Z.ggcd_correct_divisors n 1) as Hd.
  destruct (Z.ggcd n 1) as [g [a b]]. simpl in *.
  rewrite Z.gcd_1_r in Hg. subst g. destruct Hd as [Ha Hb].
  rewrite Z.mul_1_l in Ha, Hb. subst. reflexivity.
Qed.

Lemma rnd_int n : (- 2 ^ 53 <= n <= 2 ^ 53)%Z -> rnd (inject_Z n) = inject_Z n.
Proof.
  intros Hn. unfold rnd.
  assert (HU : (0 < inject_Z ulp0)%Q) by apply ulp0_pos.
  assert (Hu : rnd_units (inject_Z n * inject_Z ulp0) = (n * ulp0)%Z).
  { unfold rnd_units.
    destruct (Qcompare_spec (inject_Z n * inject_Z ulp0) 0) as [E|L|G].
    - apply rnd_mag_int. split; [|lia].
      destruct (Z.lt_ge_cases n 0) as [Hneg|]; [exfalso|assumption].
      assert (inject_Z n < 0)%Q by (change 0%Q with (inject_Z 0); now rewrite <- Zlt_Qlt).
      nra.
    - assert (Hneg : (n < 0)%Z).
      { destruct (Z.lt_ge_cases n 0) as [|Hge]; [assumption|exfalso].
        assert (0 <= inject_Z n)%Q by (change 0%Q with (inject_Z 0); now rewrite <- Zle_Qle).
        nra. }
      assert (HE : (- (inject_Z n * inject_Z ulp0) == inject_Z (- n) * inject_Z ulp0)%Q)
        by (rewrite inject_Z_opp; ring).
      assert (Hm : rnd_mag (- (inject_Z n * inject_Z ulp0))
                   = rnd_mag (inject_Z (- n) * inject_Z ulp0)).
      { apply Z.le_antisymm; apply rnd_mag_mono; rewrite ?HE; try apply Qle_refl; lra. }
      rewrite Hm, rnd_mag_int by lia. lia.
    - apply rnd_mag_int. split; [|lia].
      destruct (Z.lt_ge_cases n 0) as [Hneg|]; [exfalso|assumption].
      assert (inject_Z n < 0)%Q by (change 0%Q with (inject_Z 0); now rewrite <- Zlt_Qlt).
      nra. }
  rewrite Hu.
  assert (HE : (inject_Z (n * ulp0) / inject_Z ulp0 == inject_Z n)%Q).
  { rewrite inject_Z_mult. field. intros E. rewrite E in HU. apply (Qlt_irrefl 0 HU). }
  rewrite (Qred_complete _ _ HE). apply Qred_inject.
Qed.

Lemma round64_int n :
  (- 2 ^ 53 <= n <= 2 ^ 53)%Z -> round64 (inject_Z n) = Fin (inject_Z n).
Proof.
  intros Hn. unfold round64. rewrite (rnd_int n Hn).
  assert (H1 : (inject_Z n <= inject_Z (2 ^ 53))%Q) by (rewrite <- Zle_Qle; lia).
  assert (H2 : (inject_Z (- 2 ^ 53) <= inject_Z n)%Q) by (rewrite <- Zle_Qle; lia).
  assert (H3 : (inject_Z (2 ^ 53) < inject_Z huge)%Q) by reflexivity.
  assert (H4 : (- inject_Z huge < inject_Z (- 2 ^ 53))%Q) by reflexivity.
  destruct (Qle_bool (inject_Z huge) (inject_Z n)) eqn:E1.
  { apply Qle_bool_iff in E1. exfalso. lra. }
  destruct (Qle_bool (inject_Z n) (- inject_Z huge)) eqn:E2.
  { apply Qle_bool_iff in E2. exfalso. lra. }
  reflexivity.
Qed.
(** Two familiar facts of double arithmetic, as checks of the model:
    [0.1 + 0.2] is the double written [0.30000000000000004], above the
    double [0.3]; and [2 * 0.15 + 18 * 0.15] falls just short of 3. *)
Example tenth_plus_fifth :
  fadd (round64 (1 # 10)) (round64 (2 # 10))
  = round64 (30000000000000004 # 100000000000000000) /\
  fadd (round64 (1 # 10)) (round64 (2 # 10)) <> round64 (3 # 10).
Proof. split; [vm_compute; reflexivity | vm_compute; discriminate]. Qed.

Example short_of_three :
  fgt (fadd (fmul (Fin 2) (round64 (15 # 100))) (fmul (Fin 18) (round64 (15 # 100)))) 2
  = true /\
  fgt (Fin 3) 2 = true /\
  fadd (fmul (Fin 2) (round64 (15 # 100))) (fmul (Fin 18) (round64 (15 # 100)))
  <> Fin 3.
Proof. repeat split; vm_compute; discriminate. Qed.

End Float64Facts.

(** ** Python numeric operators on small values *)

Module PyFacts.
Import Float64 Float64Facts Py Spec.

Lemma bound_val : (bound == 1048576)%Q.
Proof. reflexivity. Qed.

Lemma eps_val : (eps == 1 # 8589934592)%Q.
Proof. reflexivity. Qed.

Lemma inject_Z_bounds n lo hi :
  lo <= n <= hi -> (inject_Z lo <= inject_Z n <= inject_Z hi)%Q.
Proof. intros [H1 H2]. split; rewrite <- Zle_Qle; assumption. Qed.

Lemma float_of_int_exact n :
  - 2 ^ 53 <= n <= 2 ^ 53 -> float_of_int n = Ok (Fin (inject_Z n)).
Proof. intros H. unfold float_of_int. now rewrite round64_int. Qed.

(** The product of a small non-negative [int] and a double in [[0,1]]. *)
Lemma py_mul_int_float n q :
  0 <= n <= 1000 -> (0 <= q <= 1)%Q ->
  exists p, py_mul (PyInt n) (PyFloat (Fin q)) = Ok (PyFloat (Fin p)) /\
            (inject_Z n * q - eps <= p <= inject_Z n * q + eps)%Q /\ (0 <= p)%Q.
Proof.
  intros Hn Hq. unfold py_mul, to_float, bind.
  rewrite float_of_int_exact by lia. cbn [fmul].
  pose proof (inject_Z_bounds n 0 1000 Hn) as Hb.
  change (inject_Z 0) with 0%Q in Hb. change (inject_Z 1000) with 1000%Q in Hb.
  pose proof bound_val as HB.
  destruct (round64_near_nonneg (inject_Z n * q)) as (p & Hp & Hnear & Hpos).
  { split; [|rewrite HB]; nra. }
  exists p. rewrite Hp. auto.
Qed.

Lemma py_add_float a b :
  (0 <= a)%Q -> (0 <= b)%Q -> (a + b <= bound)%Q ->
  exists s, py_add (PyFloat (Fin a)) (PyFloat (Fin b)) = Ok (PyFloat (Fin s)) /\
            (a + b - eps <= s <= a + b + eps)%Q /\ (0 <= s)%Q.
Proof.
  intros Ha Hb Hab. unfold py_add, to_float, bind. cbn [fadd].
  destruct (round64_near_nonneg (a + b)) as (s & Hs & Hnear & Hpos).
  { split; [lra | exact Hab]. }
  exists s. rewrite Hs. auto.
Qed.

Lemma trunc_nonneg q : (0 <= q)%Q -> trunc q = Qfloor q.
Proof.
  intros H. unfold trunc, Qfloor. destruct q as [n d]. simpl.
  unfold Qle in H. simpl in H. rewrite Z.mul_1_r in H.
  apply Z.quot_div_nonneg; lia.
Qed.

End PyFacts.

(** ** The composite score *)

Module CompositeFacts.
Import Float64 Float64Facts Py PyFacts Analyzer Scoring Spec Cover.

Lemma literal_025 : literal 25 100 = PyFloat (Fin w025).
Proof. vm_compute. reflexivity. Qed.
Lemma literal_020 : literal 20 100 = PyFloat (Fin w020).
Proof. vm_compute. reflexivity. Qed.
Lemma literal_015 : literal 15 100 = PyFloat (Fin w015).
Proof. vm_compute. reflexivity. Qed.
Lemma literal_010 : literal 10 100 = PyFloat (Fin w010).
Proof. vm_compute. reflexivity. Qed.
Lemma literal_008 : literal 8 100 = PyFloat (Fin w008).
Proof. vm_compute. reflexivity. Qed.
Lemma literal_007 : literal 7 100 = PyFloat (Fin w007).
Proof. vm_compute. reflexivity. Qed.

(** The float sum stays within [1/200] of the exact weighted sum (stated
    in hundredths). *)
Lemma composite_float_sum b :
  fields_between 0 1000 b ->
  exists S, _calculate_composite b = Ok (trunc S) /\ (0 <= S)%Q /\
            (inject_Z (weighted_total b) - (1 # 2) < 100 * S
             < inject_Z (weighted_total b) + (1 # 2))%Q.
Proof.
  intros (H1 & H2 & H3 & H4 & H5 & H6 & H7).
  unfold _calculate_composite, weighted_total.
  rewrite literal_025, literal_020, literal_015, literal_010, literal_008, literal_007.
  pose proof bound_val as HB. pose proof eps_val as HE.
  pose proof (inject_Z_bounds _ _ _ H1) as B1. pose proof (inject_Z_bounds _ _ _ H2) as B2.
  pose proof (inject_Z_bounds _ _ _ H3) as B3. pose proof (inject_Z_bounds _ _ _ H4) as B4.
  pose proof (inject_Z_bounds _ _ _ H5) as B5. pose proof (inject_Z_bounds _ _ _ H6) as B6.
  pose proof (inject_Z_bounds _ _ _ H7) as B7.
  change (inject_Z 0) with 0%Q in *. change (inject_Z 1000) with 1000%Q in *.
  destruct (py_mul_int_float (code_structure b) w025 H1) as (t1 & -> & N1 & P1);
    [unfold w025; split; lra|].
  destruct (py_mul_int_float (testing_ci b) w020 H2) as (t2 & -> & N2 & P2);
    [unfold w020; split; lra|].
  cbn [bind]. unfold w025, w020 in * |-.
  destruct (py_add_float t1 t2 P1 P2) as (s2 & -> & M2 & Q2); [lra|].
  destruct (py_mul_int_float (readme b) w015 H3) as (t3 & -> & N3 & P3);
    [unfold w015; split; lra|].
  cbn [bind]. unfold w015 in * |-.
  destruct (py_add_float s2 t3 Q2 P3) as (s3 & -> & M3 & Q3); [lra|].
  destruct (py_mul_int_float (project_value b) w015 H4) as (t4 & -> & N4 & P4);
    [unfold w015; split; lra|].
  cbn [bind]. unfold w015 in * |-.
  destruct (py_add_float s3 t4 Q3 P4) as (s4 & -> & M4 & Q4); [lra|].
  destruct (py_mul_int_float (deployability b) w010 H5) as (t5 & -> & N5 & P5);
    [unfold w010; split; lra|].
  cbn [bind]. unfold w010 in * |-.
  destruct (py_add_float s4 t5 Q4 P5) as (s5 & -> & M5 & Q5); [lra|].
  destruct (py_mul_int_float (complexity b) w008 H6) as (t6 & -> & N6 & P6);
    [unfold w008; split; lra|].
  cbn [bind]. unfold w008 in * |-.
  destruct (py_add_float s5 t6 Q5 P6) as (s6 & -> & M6 & Q6); [lra|].
  destruct (py_mul_int_float (security b) w007 H7) as (t7 & -> & N7 & P7);
    [unfold w007; split; lra|].
  cbn [bind]. unfold w007 in * |-.
  destruct (py_add_float s6 t7 Q6 P7) as (s7 & -> & M7 & Q7); [lra|].
  cbn [bind py_int]. exists s7. split; [reflexivity|]. split; [exact Q7|].
  rewrite !inject_Z_plus, !inject_Z_mult.
  change (inject_Z 25) with 25%Q. change (inject_Z 20) with 20%Q.
  change (inject_Z 15) with 15%Q. change (inject_Z 10) with 10%Q.
  change (inject_Z 8) with 8%Q. change (inject_Z 7) with 7%Q.
  split; lra.
Qed.

(** Truncating a real that is within half a hundredth of [n/100]. *)
Lemma floor_near_hundredths n S :
  0 <= n -> (0 <= S)%Q ->
  (inject_Z n - (1 # 2) < 100 * S < inject_Z n + (1 # 2))%Q ->
  n / 100 - 1 <= trunc S <= n / 100 /\ (n mod 100 <> 0 -> trunc S = n / 100).
Proof.
  intros Hn HS [Hl Hu]. rewrite trunc_nonneg by exact HS.
  pose proof (Z.div_mod n 100 ltac:(lia)) as Hdm.
  pose proof (Z.mod_pos_bound n 100 ltac:(lia)) as Hr.
  set (k := n / 100) in *. set (r := n mod 100) in *.
  pose proof (Qfloor_le S) as Fl. pose proof (Qlt_floor S) as Fu.
  set (c := Qfloor S) in *.
  rewrite inject_Z_plus in Fu. change (inject_Z 1) with 1%Q in Fu.
  assert (Hn' : (inject_Z n == 100 * inject_Z k + inject_Z r)%Q).
  { rewrite Hdm, inject_Z_plus, inject_Z_mult. reflexivity. }
  pose proof (inject_Z_bounds r 0 99 ltac:(lia)) as [Br1 Br2].
  change (inject_Z 0) with 0%Q in Br1. change (inject_Z 99) with 99%Q in Br2.
  assert (Hck : (c < k + 1)%Z).
  { rewrite Zlt_Qlt, inject_Z_plus. change (inject_Z 1) with 1%Q. lra. }
  assert (Hkc : (k < c + 2)%Z).
  { rewrite Zlt_Qlt, inject_Z_plus. change (inject_Z 2) with 2%Q. lra. }
  split; [lia|]. intros Hr0.
  assert (Br3 : (1 <= inject_Z r)%Q).
  { change 1%Q with (inject_Z 1). rewrite <- Zle_Qle. lia. }
  assert (Hkc' : (k < c + 1)%Z).
  { rewrite Zlt_Qlt, inject_Z_plus. change (inject_Z 1) with 1%Q. lra. }
  lia.
Qed.

(** The composite score against the exact weighted sum: it returns, never
    exceeds the floor of the exact sum, and falls short of it by one only
    when the exact sum is an integer. *)
Lemma composite_exact_relation b :
  fields_between 0 1000 b ->
  exists c, _calculate_composite b = Ok c /\
            weighted_total b / 100 - 1 <= c <= weighted_total b / 100 /\
            (weighted_total b mod 100 <> 0 -> c = weighted_total b / 100).
Proof.
  intros Hb. destruct (composite_float_sum b Hb) as (S & HS & H0 & Hnear).
  exists (trunc S). split; [exact HS|].
  apply floor_near_hundredths; try assumption.
  destruct Hb as (H1 & H2 & H3 & H4 & H5 & H6 & H7). unfold weighted_total. lia.
Qed.

(** The shortfall is attained: with [readme = 2] and [project_value = 18]
    the exact sum is 3 and the double sum is just below it. *)
Example composite_below_exact_floor :
  _calculate_composite (mkBreakdown 0 0 2 18 0 0 0) = Ok 2 /\
  weighted_total (mkBreakdown 0 0 2 18 0 0 0) = 300.
Proof. split; [vm_compute; reflexivity | reflexivity]. Qed.

(** C6 (as stated, refuted). The composite score is not the truncation of
    the weighted sum itself.  The analysis of the polished sample service
    has the breakdown 70, 80, 100, 2, 80, 95, 80, whose weighted sum is
    exactly 70.00, and its composite score is 69: the double sum falls just
    short of 70. *)
Lemma composite_short_of_weighted_sum :
  exists a,
    analyze_repo sample_tmp clone_polished None four_blocks polished_repo = Ok a /\
    score_breakdown a = mkBreakdown 70 80 100 2 80 95 80 /\
    weighted_total (score_breakdown a) = 100 * 70 /\
    composite_score a = 69 /\
    _calculate_composite (score_breakdown a)
    <> Ok (weighted_total (score_breakdown a) / 100).
Proof.
  eexists. split; [vm_compute; reflexivity|].
  split; [reflexivity|]. split; [reflexivity|]. split; [reflexivity|].
  vm_compute. discriminate.
Qed.

(** C6 (amended). The composite score is the weighted sum of the seven
    fields with the weights 0.25, 0.20, 0.15, 0.15, 0.10, 0.08, 0.07, added
    from left to right in double precision and truncated by [int]: it is
    the table-driven weighted sum passed to [int]; on fields in [0,1000] it
    returns, never exceeds the floor of the exact weighted sum (it is not
    rounded up), equals that floor whenever the exact sum is not an
    integer, and is the floor or one less when it is; the example breakdown
    yields 66. *)
Theorem calculate_composite_weighted_sum (b : ScoreBreakdown) :
  _calculate_composite b = (s <- weighted_sum composite_weights b ;; py_int s) /\
  (fields_between 0 1000 b ->
   exists c, _calculate_composite b = Ok c /\
             weighted_total b / 100 - 1 <= c <= weighted_total b / 100 /\
             (weighted_total b mod 100 <> 0 -> c = weighted_total b / 100)) /\
  _calculate_composite example_breakdown = Ok 66.
Proof.
  split; [|split].
  - unfold _calculate_composite, weighted_sum, composite_weights.
    cbn [for_each fst snd].
    repeat match goal with
           | |- context [bind ?m _] =>
               match m with
               | py_mul _ _ => destruct m; cbn [bind]; try reflexivity
               | py_add _ _ => destruct m; cbn [bind]; try reflexivity
               end
           end.
  - apply composite_exact_relation.
  - vm_compute. reflexivity.
Qed.

(** The relation at the example breakdown: 6660 hundredths, hence 66. *)
Lemma calculate_composite_example_66 :
  fields_between 0 1000 example_breakdown /\
  _calculate_composite example_breakdown = Ok 66.
Proof.
  assert (H : fields_between 0 1000 example_breakdown).
  { unfold fields_between, example_breakdown. simpl. lia. }
  split; [exact H|].
  destruct (proj1 (proj2 (calculate_composite_weighted_sum example_breakdown)) H)
    as (c & Hc & _ & Heq).
  rewrite Hc. f_equal. rewrite Heq; [reflexivity | vm_compute; discriminate].
Defined.
End CompositeFacts.

(** ** [analyze_repo] *)

Module RepoFacts.
Import Float64 Float64Facts Py PyFacts Analyzer Scoring Spec CompositeFacts.

(** C1 (failing input). A Python repository whose functions all have
    cyclomatic complexity 1 gets the complexity sub-score 126, outside
    [0,100]: the mapping of the average complexity has no upper clamp. *)
Theorem complexity_subscore_exceeds_100 :
  exists a,
    analyze_repo sample_tmp clone_plain None one_simple_block python_repo = Ok a /\
    complexity (score_breakdown a) = 126 /\
    ~ fields_between 0 100 (score_breakdown a).
Proof.
  eexists. split; [vm_compute; reflexivity|]. split; [reflexivity|].
  unfold fields_between. simpl. lia.
Qed.

(** C2 (as stated, refuted). A failed clone of a repository with 30 stars
    and 10 forks leaves the flag but not an all-zero breakdown:
    [project_value] is 100. *)
Lemma clone_failure_keeps_project_value :
  exists a,
    analyze_repo sample_tmp clone_fails None one_simple_block starred_repo = Ok a /\
    In "Clone failed - manual inspection required" (critical_flags a) /\
    project_value (score_breakdown a) = 100 /\
    score_breakdown a <> mkBreakdown 0 0 0 0 0 0 0.
Proof.
  eexists. split; [vm_compute; reflexivity|]. split; [left; reflexivity|].
  split; [reflexivity|]. discriminate.
Qed.

(** C2 (amended). When the clone fails, the six sub-scores read from the
    working tree are 0, [project_value] is [min(100, 2*stars + 5*forks)],
    and [critical_flags] is the single entry
    "Clone failed - manual inspection required". *)
Theorem analyze_repo_clone_failure
    (temp_dir : string) (clone_repo : string -> string -> option tree)
    (llm : option (string -> option LlmReadme))
    (cc_visit : string -> option (list Z)) (repo : Repo) :
  0 <= stargazers_count repo -> 0 <= forks_count repo ->
  clone_repo (clone_url repo) (join temp_dir (name repo)) = None ->
  exists a,
    analyze_repo temp_dir clone_repo llm cc_visit repo = Ok a /\
    score_breakdown a =
      mkBreakdown 0 0 0 (Z.min 100 (stargazers_count repo * 2 + forks_count repo * 5))
                  0 0 0 /\
    critical_flags a = ["Clone failed - manual inspection required"].
Proof.
  intros Hs Hf Hclone. unfold analyze_repo. rewrite Hclone. cbn [bind].
  set (pv := Z.min 100 (stargazers_count repo * 2 + forks_count repo * 5)).
  destruct (composite_exact_relation (mkBreakdown 0 0 0 pv 0 0 0)) as (c & Hc & _).
  { unfold fields_between. simpl. subst pv. lia. }
  cbn [code_structure testing_ci readme deployability complexity security].
  rewrite Hc. cbn [bind]. eexists. split; [reflexivity|]. split; reflexivity.
Qed.

(** The failed clone of the repository with 30 stars and 10 forks. *)
Lemma analyze_repo_clone_failure_starred :
  (0 <= stargazers_count starred_repo /\ 0 <= forks_count starred_repo /\
   clone_fails (clone_url starred_repo) (join sample_tmp (name starred_repo)) = None) /\
  exists a,
    analyze_repo sample_tmp clone_fails None one_simple_block starred_repo = Ok a /\
    score_breakdown a = mkBreakdown 0 0 0 100 0 0 0 /\
    critical_flags a = ["Clone failed - manual inspection required"].
Proof.
  assert (H1 : 0 <= stargazers_count starred_repo) by (simpl; lia).
  assert (H2 : 0 <= forks_count starred_repo) by (simpl; lia).
  assert (H3 : clone_fails (clone_url starred_repo) (join sample_tmp (name starred_repo)) = None)
    by reflexivity.
  split; [auto|].
  exact (analyze_repo_clone_failure sample_tmp clone_fails None one_simple_block
           starred_repo H1 H2 H3).
Defined.
End RepoFacts.

(** ** The testing/CI detector *)

Module TestingFacts.
Import Py Analyzer Spec.

Lemma scan_tests_values s w :
  scan_tests s w = s \/ scan_tests s w = s + 20 \/ scan_tests s w = s + 40.
Proof.
  induction w as [|e w IH]; simpl; [now left|].
  destruct (existsb _ (dirs e)); [now right; right|].
  destruct (existsb _ (files e)); [now right; left|exact IH].
Qed.

Lemma scan_ci_values s w :
  scan_ci s w = Z.min 100 s \/ scan_ci s w = Z.min 100 (s + 40).
Proof.
  induction w as [|e w IH]; simpl; [now left|].
  destruct (existsb _ (files e)); [now right|exact IH].
Qed.

(** C4 (as stated, refuted). A tree whose only file is [pytest.ini] scores
    60: the name mentions "test" (+20) and is a CI marker (+40). *)
Lemma testing_ci_can_be_60 :
  fst (_analyze_testing (join sample_tmp "demo") pytest_only) = 60 /\
  ~ In (fst (_analyze_testing (join sample_tmp "demo") pytest_only)) [0; 20; 40; 80].
Proof.
  assert (E : fst (_analyze_testing (join sample_tmp "demo") pytest_only) = 60)
    by (vm_compute; reflexivity).
  split; [exact E|]. rewrite E. simpl. lia.
Qed.

(** C4 (amended). For every working tree the testing/CI sub-score is one of
    the five values 0, 20, 40, 60, 80. *)
Theorem testing_ci_values (path : string) (t : tree) :
  In (fst (_analyze_testing path t)) [0; 20; 40; 60; 80].
Proof.
  unfold _analyze_testing. cbn [fst].
  set (w := walk path t).
  destruct (scan_tests_values 0 w) as [E|[E|E]]; rewrite E;
    destruct (scan_ci_values (0 + 0) w) as [F|F];
    destruct (scan_ci_values (0 + 20) w) as [G|G];
    destruct (scan_ci_values (0 + 40) w) as [K|K];
    simpl in *; rewrite ?F, ?G, ?K; simpl; lia.
Qed.

(** [os.walk] of a directory: its own triple, then the walks of its
    entries in listing order. *)
Lemma walk_dir_Dir top ch :
  walk_dir top (Dir ch) =
  WalkEntry top (dirnames ch) (files_of ch)
  :: flat_map (fun p => walk_dir (join top (fst p)) (snd p)) ch.
Proof.
  cbn [walk_dir]. f_equal.
  induction ch as [|[n c] ch IH]; [reflexivity|].
  cbn [flat_map fst snd]. rewrite <- IH. reflexivity.
Qed.

Lemma scan_tests_quiet_app s w1 w2 :
  no_test_signals w1 = true -> scan_tests s (w1 ++ w2) = scan_tests s w2.
Proof.
  induction w1 as [|e w1 IH]; [reflexivity|]. cbn [no_test_signals forallb app scan_tests].
  intros H. apply andb_true_iff in H as [He Hw].
  apply negb_true_iff, orb_false_iff in He as [Hd Hf].
  unfold is_test_dir in Hd. unfold is_test_file in Hf. rewrite Hd, Hf.
  now apply IH.
Qed.

Lemma no_test_signals_app w1 w2 :
  no_test_signals (w1 ++ w2) = no_test_signals w1 && no_test_signals w2.
Proof. apply forallb_app. Qed.

Lemma insert_at_In {A : Type} k (x : A) l l' : insert_at k x l = Some l' -> In x l'.
Proof.
  revert l l'. induction k as [|k IH]; intros l l' H.
  - destruct l; simpl in H; injection H as <-; now left.
  - destruct l as [|y l]; [discriminate|]. cbn [insert_at] in H.
    destruct (insert_at k x l) as [l0|] eqn:E; [|discriminate].
    injection H as <-. right. eapply IH, E.
Qed.

Lemma update_dir_inv i f t t' :
  update_dir i f t = Some t' ->
  exists pre n ch ch' post,
    t = pre ++ (n, Dir ch) :: post /\ t' = pre ++ (n, Dir ch') :: post /\
    f ch = Some ch'.
Proof.
  revert i t'. induction t as [|[n e] t IH]; intros i t' H; [simpl in H; discriminate|].
  destruct i as [|i].
  - destruct e as [c|ch]; [discriminate|]. cbn [update_dir] in H.
    destruct (f ch) as [ch'|] eqn:E; [|discriminate]. injection H as <-.
    exists [], n, ch, ch', t. auto.
  - assert (H' : option_map (cons (n, e)) (update_dir i f t) = Some t').
    { destruct e; exact H. }
    destruct (update_dir i f t) as [t0|] eqn:E; [|discriminate].
    injection H' as <-.
    destruct (IH _ _ E) as (pre & m & ch & ch' & post & -> & -> & Hf).
    exists ((n, e) :: pre), m, ch, ch', post. auto.
Qed.

Lemma dirnames_app t1 t2 : dirnames (t1 ++ t2) = dirnames t1 ++ dirnames t2.
Proof. apply flat_map_app. Qed.

Lemma files_of_app t1 t2 : files_of (t1 ++ t2) = files_of t1 ++ files_of t2.
Proof. apply flat_map_app. Qed.

(** After the insertion the first loop stops at the parent of the new
    directory, whatever follows in the walk. *)
Lemma scan_tests_after_add loc :
  forall k sub t t' top rest s,
    add_dir loc k "tests" sub t = Some t' ->
    no_test_signals (walk_dir top (Dir t)) = true ->
    scan_tests s (walk_dir top (Dir t') ++ rest) = s + 40.
Proof.
  induction loc as [|i loc IH]; intros k sub t t' top rest s Hadd Hq.
  - cbn [add_dir] in Hadd. apply insert_at_In in Hadd.
    rewrite walk_dir_Dir. cbn [app scan_tests dirs].
    assert (Hin : In "tests" (dirnames t')).
    { unfold dirnames. apply in_flat_map. exists ("tests", Dir sub).
      split; [exact Hadd | now left]. }
    assert (Hex : existsb (fun d => elem d test_dirs) (dirnames t') = true).
    { apply existsb_exists. exists "tests". split; [exact Hin | reflexivity]. }
    now rewrite Hex.
  - cbn [add_dir] in Hadd.
    destruct (update_dir_inv _ _ _ _ Hadd) as (pre & n & ch & ch' & post & -> & -> & Hf).
    rewrite walk_dir_Dir in Hq |- *.
    rewrite !flat_map_app in Hq |- *. cbn [flat_map fst snd] in Hq |- *.
    rewrite !dirnames_app, !files_of_app in Hq |- *.
    cbn [dirnames files_of flat_map fst snd] in Hq |- *.
    change (WalkEntry ?r ?d ?f :: ?l) with ([WalkEntry r d f] ++ l) in Hq.
    rewrite !no_test_signals_app in Hq.
    apply andb_true_iff in Hq as [Hhead Hq].
    apply andb_true_iff in Hq as [Hpre Hq].
    apply andb_true_iff in Hq as [Hmid _].
    change (WalkEntry ?r ?d ?f :: ?l) with ([WalkEntry r d f] ++ l).
    rewrite <- !app_assoc.
    rewrite scan_tests_quiet_app by exact Hhead.
    rewrite scan_tests_quiet_app by exact Hpre.
    eapply IH; eassumption.
Qed.

Lemma scan_ci_bounds s w : Z.min 100 s <= scan_ci s w <= Z.min 100 (s + 40).
Proof. destruct (scan_ci_values s w) as [E|E]; rewrite E; lia. Qed.

(** C9. Adding a directory named [tests], of any content and at any place,
    to a tree without test signals never lowers the testing/CI score. *)
Theorem testing_ci_monotone_add_tests
    (path : string) (t t' : tree) (loc : list nat) (k : nat) (sub : tree) :
  no_test_signals (walk path t) = true ->
  add_dir loc k "tests" sub t = Some t' ->
  fst (_analyze_testing path t) <= fst (_analyze_testing path t').
Proof.
  intros Hq Hadd. unfold _analyze_testing, walk in *. cbn [fst].
  pose proof (scan_tests_after_add loc k sub t t' path [] 0 Hadd Hq) as Hnew.
  rewrite app_nil_r in Hnew. rewrite Hnew.
  pose proof (scan_tests_quiet_app 0 _ [] Hq) as Hold.
  rewrite app_nil_r in Hold. cbn [scan_tests] in Hold. rewrite Hold.
  pose proof (scan_ci_bounds 0 (walk_dir path (Dir t))).
  pose proof (scan_ci_bounds (0 + 40) (walk_dir path (Dir t'))).
  lia.
Qed.

(** [src/tests] added to the sample project. *)
Lemma testing_ci_monotone_plain_python :
  (no_test_signals (walk (join sample_tmp "demo") plain_python) = true /\
   add_dir [2%nat] 1 "tests" [("test_util.py", File "def test_helper(): pass")]
           plain_python
   = Some [("README.md", File "# demo");
           ("main.py", File "def main(): return 0");
           ("src", Dir [("util.py", File "def helper(x): return x");
                        ("tests", Dir [("test_util.py", File "def test_helper(): pass")])])]) /\
  fst (_analyze_testing (join sample_tmp "demo") plain_python)
  <= fst (_analyze_testing (join sample_tmp "demo")
            [("README.md", File "# demo");
             ("main.py", File "def main(): return 0");
             ("src", Dir [("util.py", File "def helper(x): return x");
                          ("tests", Dir [("test_util.py", File "def test_helper(): pass")])])]).
Proof.
  assert (H1 : no_test_signals (walk (join sample_tmp "demo") plain_python) = true)
    by reflexivity.
  assert (H2 : add_dir [2%nat] 1 "tests" [("test_util.py", File "def test_helper(): pass")]
                 plain_python
               = Some [("README.md", File "# demo");
                       ("main.py", File "def main(): return 0");
                       ("src", Dir [("util.py", File "def helper(x): return x");
                                    ("tests", Dir [("test_util.py", File "def test_helper(): pass")])])])
    by reflexivity.
  split; [split; assumption|].
  exact (testing_ci_monotone_add_tests _ _ _ _ _ _ H1 H2).
Defined.
End TestingFacts.

(** ** The complexity mapping *)

Module ComplexityFacts.
Import Float64 Float64Facts Py PyFacts Analyzer Spec.

Lemma round64_proper x y : (x == y)%Q -> round64 x = round64 y.
Proof. intros E. unfold round64. now rewrite (rnd_proper x y E). Qed.

(** A real between two reals whose roundings are finite rounds to a
    finite double between those roundings. *)
Lemma round64_between x lo hi :
  (lo <= x <= hi)%Q ->
  (- inject_Z huge < rnd lo)%Q -> (rnd hi < inject_Z huge)%Q ->
  exists q, round64 x = Fin q /\ (rnd lo <= q <= rnd hi)%Q.
Proof.
  intros [Hl Hh] Blo Bhi.
  pose proof (rnd_mono _ _ Hl) as Ml. pose proof (rnd_mono _ _ Hh) as Mh.
  exists (rnd x). split; [|split; assumption].
  unfold round64.
  destruct (Qle_bool (inject_Z huge) (rnd x)) eqn:E1.
  { apply Qle_bool_iff in E1. exfalso. lra. }
  destruct (Qle_bool (rnd x) (- inject_Z huge)) eqn:E2.
  { apply Qle_bool_iff in E2. exfalso. lra. }
  reflexivity.
Qed.

Lemma fsub_fin a b : fsub (Fin a) (Fin b) = round64 (a - b).
Proof.
  unfold fsub, fneg, fadd. apply round64_proper.
  rewrite Qred_correct. reflexivity.
Qed.

Lemma py_sub_float_int q n :
  - 2 ^ 53 <= n <= 2 ^ 53 ->
  py_sub (PyFloat (Fin q)) (PyInt n) = Ok (PyFloat (round64 (q - inject_Z n))).
Proof.
  intros Hn. unfold py_sub, to_float, bind. rewrite float_of_int_exact by exact Hn.
  now rewrite fsub_fin.
Qed.

Lemma py_sub_int_float n q :
  - 2 ^ 53 <= n <= 2 ^ 53 ->
  py_sub (PyInt n) (PyFloat (Fin q)) = Ok (PyFloat (round64 (inject_Z n - q))).
Proof.
  intros Hn. unfold py_sub, to_float, bind. rewrite float_of_int_exact by exact Hn.
  now rewrite fsub_fin.
Qed.

Lemma slope_literal : int_truediv 100 15 = Ok (PyFloat (Fin k_slope)).
Proof. vm_compute. reflexivity. Qed.

Lemma int_truediv_unfold a b :
  b <> 0 ->
  int_truediv a b =
  match round64 (inject_Z a / inject_Z b) with
  | Fin q => Ok (PyFloat (Fin q))
  | _ => Raise OverflowError
  end.
Proof.
  intros Hb. unfold int_truediv. destruct (Z.eqb_spec b 0); [contradiction|reflexivity].
Qed.

Lemma inject_Z_pos c : 0 < c -> (0 < inject_Z c)%Q.
Proof. intros H. change 0%Q with (inject_Z 0). now rewrite <- Zlt_Qlt. Qed.

(** Bounds of the average from bounds of the total. *)
Lemma avg_bounds total n lo hi :
  0 < n -> lo * n <= total <= hi * n ->
  (inject_Z lo <= inject_Z total / inject_Z n <= inject_Z hi)%Q.
Proof.
  intros Hn [H1 H2]. pose proof (inject_Z_pos n Hn) as Hp.
  split.
  - apply Qle_shift_div_l; [exact Hp|]. rewrite <- inject_Z_mult, <- Zle_Qle. exact H1.
  - apply Qle_shift_div_r; [exact Hp|]. rewrite <- inject_Z_mult, <- Zle_Qle. exact H2.
Qed.

(** An average of exactly 5 scores 100. *)
Lemma complexity_score_at_5 n : 0 < n -> complexity_score (5 * n) n = Ok 100.
Proof.
  intros Hn. unfold complexity_score.
  rewrite int_truediv_unfold by lia.
  assert (E : (inject_Z (5 * n) / inject_Z n == inject_Z 5)%Q).
  { pose proof (inject_Z_pos n Hn) as Hp. rewrite inject_Z_mult. field.
    intros Z0. rewrite Z0 in Hp. apply (Qlt_irrefl 0 Hp). }
  rewrite (round64_proper _ _ E).
  vm_compute. reflexivity.
Qed.

Lemma rnd_20 : rnd 20 = 20%Q.
Proof. reflexivity. Qed.
Lemma rnd_15 : rnd 15 = 15%Q.
Proof. reflexivity. Qed.
Lemma rnd_5 : rnd 5 = 5%Q.
Proof. reflexivity. Qed.
Lemma rnd_100 : rnd 100 = 100%Q.
Proof. reflexivity. Qed.
Lemma rnd_p1000 : rnd (inject_Z (2 ^ 1000)) = inject_Z (2 ^ 1000).
Proof. vm_compute. reflexivity. Qed.
Lemma rnd_p1003 : rnd (inject_Z (2 ^ 1003)) = inject_Z (2 ^ 1003).
Proof. vm_compute. reflexivity. Qed.
Lemma rnd_m1003 : rnd (- inject_Z (2 ^ 1003)) = (- inject_Z (2 ^ 1003))%Q.
Proof. vm_compute. reflexivity. Qed.

Lemma huge_gt_p1003 : (inject_Z (2 ^ 1003) < inject_Z huge)%Q.
Proof. rewrite <- Zlt_Qlt. reflexivity. Qed.

Lemma p1000_pos : (20 <= inject_Z (2 ^ 1000))%Q.
Proof. change 20%Q with (inject_Z 20). rewrite <- Zle_Qle. vm_compute. discriminate. Qed.

Lemma p1003_p1000 : (8 * inject_Z (2 ^ 1000) == inject_Z (2 ^ 1003))%Q.
Proof. reflexivity. Qed.

Lemma k_slope_val : (k_slope == 7505999378950827 # 1125899906842624)%Q.
Proof. reflexivity. Qed.

(** An average of 20 or more (and within the doubles) scores 0. *)
Lemma complexity_score_ge_20 total n :
  0 < n -> 20 * n <= total <= 2 ^ 1000 * n -> complexity_score total n = Ok 0.
Proof.
  intros Hn Ht. unfold complexity_score.
  rewrite int_truediv_unfold by lia.
  pose proof huge_gt_p1003 as Hh. pose proof p1000_pos as Hp.
  pose proof p1003_p1000 as H8. pose proof k_slope_val as Hk.
  pose proof rnd_p1000 as R0. pose proof rnd_p1003 as R3. pose proof rnd_m1003 as Rm.
  pose proof (avg_bounds total n 20 (2 ^ 1000) Hn Ht) as Ha.
  change (inject_Z 20) with 20%Q in Ha.
  set (P := inject_Z (2 ^ 1000)) in *. set (P3 := inject_Z (2 ^ 1003)) in *.
  clearbody P P3.
  destruct (round64_between (inject_Z total / inject_Z n) 20 P Ha) as (q & -> & Bq).
  { rewrite rnd_20. lra. }
  { rewrite R0. lra. }
  rewrite rnd_20, R0 in Bq.
  cbn [bind]. rewrite py_sub_float_int by lia. change (inject_Z 5) with 5%Q.
  destruct (round64_between (q - 5) 15 P) as (d & -> & Bd).
  { split; lra. }
  { rewrite rnd_15. lra. }
  { rewrite R0. lra. }
  rewrite rnd_15, R0 in Bd.
  cbn [bind]. rewrite slope_literal. cbn [bind py_mul to_float fmul].
  destruct (round64_between (d * k_slope) 100 P3) as (p & -> & Bp).
  { rewrite Hk. split; lra. }
  { rewrite rnd_100. lra. }
  { rewrite R3. lra. }
  rewrite rnd_100, R3 in Bp.
  cbn [bind]. rewrite py_sub_int_float by lia. change (inject_Z 100) with 100%Q.
  destruct (round64_between (100 - p) (- P3) 0) as (r & -> & Br).
  { split; lra. }
  { rewrite Rm. lra. }
  { rewrite rnd_0. lra. }
  rewrite rnd_0 in Br.
  cbn [bind]. unfold py_max, py_gt, fgt. change (inject_Z 0) with 0%Q.
  assert (Hle : Qle_bool r 0 = true) by (apply Qle_bool_iff; lra).
  rewrite Hle. reflexivity.
Qed.

Lemma round64_near_between x lo hi :
  (lo <= x <= hi)%Q -> (- bound <= lo)%Q -> (hi <= bound)%Q ->
  exists q, round64 x = Fin q /\ (x - eps <= q <= x + eps)%Q /\
            (rnd lo <= q <= rnd hi)%Q.
Proof.
  intros [Hl Hh] Bl Bh.
  destruct (round64_near x) as (q & Hq & Hn); [split; lra|].
  exists q. split; [exact Hq|]. split; [exact Hn|].
  assert (E : q = rnd x).
  { unfold round64 in Hq.
    destruct (Qle_bool _ _); [discriminate|].
    destruct (Qle_bool _ _); [discriminate|]. now injection Hq. }
  rewrite E. split; apply rnd_mono; assumption.
Qed.

Lemma rnd_101 : rnd 101 = 101%Q.
Proof. reflexivity. Qed.
Lemma rnd_m1 : rnd (- (1)) = (- (1))%Q.
Proof. reflexivity. Qed.

(** Between the two endpoints the score follows the line
    [100 - (avg - 5) * 20/3]: it is the truncation of a double within
    [10^-6] of it. *)
Lemma complexity_score_linear total n :
  0 < n -> 5 * n <= total <= 20 * n ->
  exists s, complexity_score total n = Ok s /\ 0 <= s <= 100 /\
    (linear_score (inject_Z total / inject_Z n) - 1 - (1 # 1000000) < inject_Z s
     <= linear_score (inject_Z total / inject_Z n) + (1 # 1000000))%Q.
Proof.
  intros Hn Ht. unfold complexity_score, linear_score.
  rewrite int_truediv_unfold by lia.
  pose proof (avg_bounds total n 5 20 Hn Ht) as Ha.
  change (inject_Z 5) with 5%Q in Ha. change (inject_Z 20) with 20%Q in Ha.
  pose proof bound_val as HB. pose proof eps_val as HE. pose proof k_slope_val as Hk.
  set (a := (inject_Z total / inject_Z n)%Q) in *. clearbody a.
  destruct (round64_near_between a 5 20 Ha) as (q & -> & Nq & Bq); [lra|lra|].
  rewrite rnd_5, rnd_20 in Bq.
  cbn [bind]. rewrite py_sub_float_int by lia. change (inject_Z 5) with 5%Q.
  destruct (round64_near_between (q - 5) 0 15) as (d & -> & Nd & Bd); [split; lra|lra|lra|].
  rewrite rnd_0, rnd_15 in Bd.
  cbn [bind]. rewrite slope_literal. cbn [bind py_mul to_float fmul].
  destruct (round64_near_between (d * k_slope) 0 101) as (p & -> & Np & Bp);
    [rewrite Hk; split; lra|lra|lra|].
  rewrite rnd_0, rnd_101 in Bp. rewrite Hk in Np.
  cbn [bind]. rewrite py_sub_int_float by lia. change (inject_Z 100) with 100%Q.
  destruct (round64_near_between (100 - p) (- (1)) 100) as (r & -> & Nr & Br);
    [split; lra|lra|lra|].
  rewrite rnd_m1, rnd_100 in Br.
  cbn [bind]. unfold py_max, py_gt, fgt. change (inject_Z 0) with 0%Q.
  destruct (Qle_bool r 0) eqn:E; cbn [negb py_int].
  - apply Qle_bool_iff in E. exists 0. split; [reflexivity|]. split; [lia|].
    change (inject_Z 0) with 0%Q. split; lra.
  - assert (Hr : (0 < r)%Q).
    { destruct (Qlt_le_dec 0 r) as [L|L]; [exact L|].
      apply Qle_bool_iff in L. congruence. }
    exists (trunc r). split; [reflexivity|].
    rewrite trunc_nonneg by lra.
    pose proof (Qfloor_le r) as Fl. pose proof (Qlt_floor r) as Fu.
    rewrite inject_Z_plus in Fu. change (inject_Z 1) with 1%Q in Fu.
    assert (H0 : 0 <= Qfloor r) by exact (Qfloor_resp_le 0 r (Qlt_le_weak _ _ Hr)).
    assert (H100 : Qfloor r < 101).
    { rewrite Zlt_Qlt. change (inject_Z 101) with 101%Q. lra. }
    split; [lia|]. split; lra.
Qed.

(** Blocks that all have complexity 1 (an average of 1) score 126. *)
Lemma complexity_score_all_simple n : 0 < n -> complexity_score n n = Ok 126.
Proof.
  intros Hn. unfold complexity_score.
  rewrite int_truediv_unfold by lia.
  assert (E : (inject_Z n / inject_Z n == inject_Z 1)%Q).
  { pose proof (inject_Z_pos n Hn) as Hp. field.
    intros Z0. rewrite Z0 in Hp. apply (Qlt_irrefl 0 Hp). }
  rewrite (round64_proper _ _ E).
  vm_compute. reflexivity.
Qed.

(** C3 (as stated, refuted). With an average complexity of 6 the sub-score
    is 93, not the value 280/3 of the real-valued formula: the result is
    truncated to an integer. *)
Lemma complexity_score_is_truncated :
  _analyze_complexity_python (blocks_of 6) (join sample_tmp "demo") plain_python = 93 /\
  ~ (inject_Z 93 == real_complexity_score 6)%Q.
Proof.
  split; [vm_compute; reflexivity|].
  vm_compute. discriminate.
Qed.

(** C3 (amended). With [n > 0] analysed blocks of total complexity [total]
    (average [avg_cc = total / n]) the complexity sub-score is
    [int(max(0, 100 - (avg_cc - 5) * (100/15)))] in double precision:
    [avg_cc = 5] gives 100, [avg_cc >= 20] (up to [2^1000]) gives 0, and for
    [5 <= avg_cc <= 20] the value lies in [0,100] and is the truncation of a
    double within [10^-6] of the line; when no block is found or the
    analysis raises, the sub-score is 50. *)
Theorem complexity_mapping
    (cc_visit : string -> option (list Z)) (path : string) (t : tree) :
  (forall e, visit_walk cc_visit (0, 0) (walk path t) = Raise e ->
             _analyze_complexity_python cc_visit path t = 50) /\
  (forall n total,
      visit_walk cc_visit (0, 0) (walk path t) = Ok (n, total) ->
      let score := _analyze_complexity_python cc_visit path t in
      let avg_cc := (inject_Z total / inject_Z n)%Q in
      (n <= 0 -> score = 50) /\
      (0 < n -> total = 5 * n -> score = 100) /\
      (0 < n -> 20 * n <= total <= 2 ^ 1000 * n -> score = 0) /\
      (0 < n -> 5 * n <= total <= 20 * n ->
       0 <= score <= 100 /\
       (linear_score avg_cc - 1 - (1 # 1000000) < inject_Z score
        <= linear_score avg_cc + (1 # 1000000))%Q)).
Proof.
  split.
  - intros e He. unfold _analyze_complexity_python. rewrite He. reflexivity.
  - intros n total Hv. unfold _analyze_complexity_python. rewrite Hv.
    cbn [bind fst snd]. cbv zeta.
    split; [|split; [|split]].
    + intros Hn. destruct (Z.ltb_spec 0 n); [lia|reflexivity].
    + intros Hn ->. destruct (Z.ltb_spec 0 n); [|lia].
      now rewrite complexity_score_at_5.
    + intros Hn Ht. destruct (Z.ltb_spec 0 n); [|lia].
      now rewrite complexity_score_ge_20.
    + intros Hn Ht. destruct (Z.ltb_spec 0 n); [|lia].
      destruct (complexity_score_linear total n Hn Ht) as (s & -> & Hs & Hl).
      cbn [try_except]. split; assumption.
Qed.

(** Two blocks of complexity 5: the average is 5 and the score 100. *)
Lemma complexity_mapping_average_5 :
  visit_walk (blocks_of 5) (0, 0) (walk (join sample_tmp "demo") plain_python)
  = Ok (2, 10) /\
  _analyze_complexity_python (blocks_of 5) (join sample_tmp "demo") plain_python = 100.
Proof.
  assert (H : visit_walk (blocks_of 5) (0, 0) (walk (join sample_tmp "demo") plain_python)
              = Ok (2, 10)) by reflexivity.
  split; [exact H|].
  destruct (complexity_mapping (blocks_of 5) (join sample_tmp "demo") plain_python)
    as [_ Hm].
  destruct (Hm 2 10 H) as (_ & H5 & _).
  apply H5; [lia | reflexivity].
Defined.
End ComplexityFacts.

(** ** Profile-level scores *)

Module ScoringFacts.
Import Float64 Float64Facts Py PyFacts Analyzer Scoring Spec ComplexityFacts.

(** *** Security baseline *)

Lemma deduction_fold repos acc :
  fold_left (fun sb r => if has_critical_flags r then sb - 20 else sb) repos acc
  = acc - 20 * flagged repos.
Proof.
  revert acc. unfold flagged, len.
  induction repos as [|r repos IH]; intros acc; cbn [fold_left filter].
  - simpl. lia.
  - rewrite IH. unfold has_critical_flags.
    destruct (critical_flags r); cbn [List.length Nat.eqb negb]; lia.
Qed.



(** *** Fit labels *)

(** C8. The fit label is "High Fit" exactly for scores above 80,
    "Moderate Fit" exactly for scores above 50 and at most 80, "Low Fit"
    otherwise; 81 is high and 80 is moderate, whereas the tier and rating
    bounds are inclusive (85 is already the top tier). *)
Theorem fit_label_thresholds (s : Z) :
  (get_fit_label s = "High Fit" <-> 80 < s) /\
  (get_fit_label s = "Moderate Fit" <-> 50 < s <= 80) /\
  (get_fit_label s = "Low Fit" <-> s <= 50) /\
  get_fit_label 81 = "High Fit" /\
  get_fit_label 80 = "Moderate Fit" /\
  tier_of 85 = "🏆 Hire-Ready" /\ tier_of 84 = "✅ Competitive".
Proof.
  unfold get_fit_label.
  destruct (Z.ltb_spec 80 s); [|destruct (Z.ltb_spec 50 s)];
    repeat split; intros; try lia; try discriminate; try reflexivity.
Qed.

(** *** Empty profile *)

(** C5 (failing input). On an empty repository list the readiness is 0 in
    the lowest tier, and every role scores 0, but the role labels are the
    empty placeholder of the initial table, not "Low Fit", which is what
    [get_fit_label] gives to a score of 0 on the other path. *)
Theorem empty_profile_scores (user url : string) :
  compute_hiring_readiness (mkProfile user url [])
  = Ok (mkReadiness 0 "🔴 Not Ready" "Foundational gaps; focus on fundamentals first") /\
  compute_role_fit (mkProfile user url [])
  = Ok (mkRoles (mkRoleFit 0 EmptyString) (mkRoleFit 0 EmptyString)
                (mkRoleFit 0 EmptyString)) /\
  EmptyString <> "Low Fit" /\
  get_fit_label 0 = "Low Fit".
Proof.
  repeat split. discriminate.
Qed.

(** *** Role fit on missing descriptions *)

Lemma keyword_hit_None keywords : keyword_hit keywords None = Ok false.
Proof. induction keywords as [|k ks IH]; [reflexivity|exact IH]. Qed.

Lemma keyword_hit_total keywords description :
  exists hit, keyword_hit keywords description = Ok hit.
Proof.
  induction keywords as [|k ks IH]; [now exists false|].
  cbn [keyword_hit]. destruct description as [[|c s]|]; cbn [truthy]; try exact IH.
  cbn [str_lower bind]. destruct (contains k _); [now exists true|exact IH].
Qed.

Lemma ml_loop_total repos acc : exists n, for_each ml_step acc repos = Ok n.
Proof.
  revert acc. induction repos as [|r repos IH]; intros acc; [now exists acc|].
  cbn [for_each]. unfold ml_step at 1.
  destruct (keyword_hit_total ml_keywords (description r)) as (hit & ->).
  cbn [bind]. apply IH.
Qed.


Lemma rnd_cap_100 : rnd (cap + 100) = cap.
Proof. vm_compute. reflexivity. Qed.

Lemma cap_lt_huge : (cap < inject_Z huge)%Q.
Proof. unfold cap. rewrite <- Zlt_Qlt. reflexivity. Qed.

Lemma cap_ge : (100 <= cap)%Q.
Proof. unfold cap. change 100%Q with (inject_Z 100). rewrite <- Zle_Qle. vm_compute. discriminate. Qed.

Lemma round64_capped x :
  (0 <= x <= cap + 100)%Q -> exists q, round64 x = Fin q /\ (0 <= q <= cap)%Q.
Proof.
  intros Hx. pose proof cap_lt_huge as Hc. pose proof cap_ge as Hg.
  destruct (round64_between x 0 (cap + 100) Hx) as (q & Hq & Bq).
  - rewrite rnd_0. lra.
  - rewrite rnd_cap_100. exact Hc.
  - rewrite rnd_0, rnd_cap_100 in Bq. exists q. split; [exact Hq|exact Bq].
Qed.

Lemma py_add_int_step k acc inc :
  loop_inv k acc -> 0 <= k <= 100 -> 0 <= inc <= 100 ->
  exists acc', py_add acc (PyInt inc) = Ok acc' /\ loop_inv (k + inc) acc'.
Proof.
  intros Hinv Hk Hinc. destruct acc as [n|[q| | |]]; cbn [loop_inv] in Hinv; try contradiction.
  - exists (PyInt (n + inc)). split; [reflexivity|]. cbn [loop_inv]. lia.
  - unfold py_add, to_float, bind. rewrite float_of_int_exact by lia. cbn [fadd].
    pose proof (inject_Z_bounds inc 0 100 Hinc) as Hb.
    change (inject_Z 0) with 0%Q in Hb. change (inject_Z 100) with 100%Q in Hb.
    destruct (round64_capped (q + inject_Z inc)) as (q' & -> & Bq'); [split; lra|].
    exists (PyFloat (Fin q')). split; [reflexivity|exact Bq'].
Qed.

Lemma py_add_float_step k acc b :
  loop_inv k acc -> 0 <= k <= 100 -> (0 <= b <= 50)%Q ->
  exists q, py_add acc (PyFloat (Fin b)) = Ok (PyFloat (Fin q)) /\ (0 <= q <= cap)%Q.
Proof.
  intros Hinv Hk Hb. pose proof cap_ge as Hg.
  destruct acc as [n|[q| | |]]; cbn [loop_inv] in Hinv; try contradiction.
  - unfold py_add, to_float, bind. rewrite float_of_int_exact by lia. cbn [fadd].
    pose proof (inject_Z_bounds n 0 100 ltac:(lia)) as Hn.
    change (inject_Z 0) with 0%Q in Hn. change (inject_Z 100) with 100%Q in Hn.
    destruct (round64_capped (inject_Z n + b)) as (q' & -> & Bq'); [split; lra|].
    exists q'. split; [reflexivity|exact Bq'].
  - unfold py_add, to_float, bind. cbn [fadd].
    destruct (round64_capped (q + b)) as (q' & -> & Bq'); [split; lra|].
    exists q'. split; [reflexivity|exact Bq'].
Qed.

(** The bonus [x / d] of a sub-score in [0,100]. *)
Lemma bonus_total x d :
  0 <= x <= 100 -> 2 <= d <= 10 ->
  exists b, int_truediv x d = Ok (PyFloat (Fin b)) /\ (0 <= b <= 50)%Q.
Proof.
  intros Hx Hd. rewrite int_truediv_unfold by lia.
  assert (Hq : (0 <= inject_Z x / inject_Z d <= 50)%Q).
  { pose proof (avg_bounds x d 0 50 ltac:(lia) ltac:(nia)) as H.
    exact H. }
  destruct (round64_between _ 0 50 Hq) as (b & -> & Bb).
  - rewrite rnd_0. pose proof cap_lt_huge. pose proof cap_ge. lra.
  - assert (E : rnd 50 = 50%Q) by reflexivity. rewrite E.
    pose proof cap_lt_huge. pose proof cap_ge. lra.
  - assert (E : rnd 50 = 50%Q) by reflexivity. rewrite rnd_0, E in Bb.
    exists b. split; [reflexivity|exact Bb].
Qed.

Lemma be_step_total acc r :
  loop_inv 0 acc ->
  0 <= code_structure (score_breakdown r) <= 100 ->
  exists acc', be_step acc r = Ok acc' /\ loop_inv 0 acc'.
Proof.
  intros Hinv Hcs. unfold be_step.
  assert (H1 : exists a1, (if language_in r be_languages
                           then py_add acc (PyInt 10) else Ok acc) = Ok a1 /\
                          loop_inv 10 a1).
  { destruct (language_in r be_languages).
    - destruct (py_add_int_step 0 acc 10 Hinv) as (a & Ha & Ia); try lia. exists a. split; [exact Ha|exact Ia].
    - exists acc. split; [reflexivity|].
      destruct acc as [n|[q| | |]]; cbn [loop_inv] in *; try lia; assumption. }
  destruct H1 as (a1 & -> & I1). cbn [bind].
  destruct (keyword_hit_total be_keywords (description r)) as (hit & ->). cbn [bind].
  assert (H2 : exists a2, (if hit then py_add a1 (PyInt 15) else Ok a1) = Ok a2 /\
                          loop_inv 25 a2).
  { destruct hit.
    - destruct (py_add_int_step 10 a1 15 I1) as (a & Ha & Ia); try lia. exists a. split; [exact Ha|exact Ia].
    - exists a1. split; [reflexivity|].
      destruct a1 as [n|[q| | |]]; cbn [loop_inv] in *; try lia; assumption. }
  destruct H2 as (a2 & -> & I2). cbn [bind].
  destruct (bonus_total (code_structure (score_breakdown r)) 10 Hcs) as (b & -> & Bb); [lia|].
  cbn [bind].
  destruct (py_add_float_step 25 a2 b I2) as (q & -> & Bq); [lia|exact Bb|].
  exists (PyFloat (Fin q)). split; [reflexivity|exact Bq].
Qed.

Lemma sre_step_total acc r :
  loop_inv 0 acc ->
  0 <= deployability (score_breakdown r) <= 100 ->
  exists acc', sre_step acc r = Ok acc' /\ loop_inv 0 acc'.
Proof.
  intros Hinv Hd. unfold sre_step.
  destruct (keyword_hit_total sre_keywords (description r)) as (hit & ->). cbn [bind].
  assert (H2 : exists a2, (if hit then py_add acc (PyInt 20) else Ok acc) = Ok a2 /\
                          loop_inv 20 a2).
  { destruct hit.
    - destruct (py_add_int_step 0 acc 20 Hinv) as (a & Ha & Ia); try lia. exists a. split; [exact Ha|exact Ia].
    - exists acc. split; [reflexivity|].
      destruct acc as [n|[q| | |]]; cbn [loop_inv] in *; try lia; assumption. }
  destruct H2 as (a2 & -> & I2). cbn [bind].
  destruct (bonus_total (deployability (score_breakdown r)) 2 Hd) as (b & -> & Bb); [lia|].
  cbn [bind].
  destruct (py_add_float_step 20 a2 b I2) as (q & -> & Bq); [lia|exact Bb|].
  exists (PyFloat (Fin q)). split; [reflexivity|exact Bq].
Qed.

Lemma loop_total (step : pynum -> RepositoryAnalysis -> result pynum)
    (P : RepositoryAnalysis -> Prop) :
  (forall acc r, loop_inv 0 acc -> P r ->
                 exists acc', step acc r = Ok acc' /\ loop_inv 0 acc') ->
  forall repos acc, loop_inv 0 acc -> Forall P repos ->
    exists acc', for_each step acc repos = Ok acc' /\ loop_inv 0 acc'.
Proof.
  intros Hstep. induction repos as [|r repos IH]; intros acc Hinv HP.
  - exists acc. split; [reflexivity|exact Hinv].
  - inversion HP as [|? ? Hr Hrest]; subst. cbn [for_each].
    destruct (Hstep acc r Hinv Hr) as (a & -> & Ia). cbn [bind].
    apply IH; assumption.
Qed.

Lemma py_int_inv k acc : loop_inv k acc -> exists n, py_int acc = Ok n.
Proof.
  destruct acc as [n|[q| | |]]; cbn [loop_inv]; intros H; try contradiction;
    eexists; reflexivity.
Qed.

Lemma compute_role_fit_total profile_data :
  role_inputs_in_range (repositories profile_data) ->
  exists roles, compute_role_fit profile_data = Ok roles.
Proof.
  intros Hr. unfold compute_role_fit.
  destruct (repositories profile_data) as [|r0 repos] eqn:E; [eexists; reflexivity|].
  destruct (ml_loop_total (r0 :: repos) 0) as (ml & ->). cbn [bind].
  destruct (loop_total be_step
              (fun r => 0 <= code_structure (score_breakdown r) <= 100)
              be_step_total (r0 :: repos) (PyInt 0)) as (be & -> & Ibe).
  { cbn [loop_inv]. lia. }
  { eapply Forall_impl; [|exact Hr]. intros a [Ha _]. exact Ha. }
  cbn [bind]. destruct (py_int_inv 0 be Ibe) as (bi & ->). cbn [bind].
  destruct (loop_total sre_step
              (fun r => 0 <= deployability (score_breakdown r) <= 100)
              sre_step_total (r0 :: repos) (PyInt 0)) as (sr & -> & Isr).
  { cbn [loop_inv]. lia. }
  { eapply Forall_impl; [|exact Hr]. intros a [_ Ha]. exact Ha. }
  cbn [bind]. destruct (py_int_inv 0 sr Isr) as (si & ->). cbn [bind].
  eexists. reflexivity.
Qed.

(** C10. On repositories whose [code_structure] and [deployability] are in
    [0,100], [compute_role_fit] returns a result; and for every repository
    with a missing description none of the three keyword tests fires, so
    the steps of the three loops add no keyword bonus (+15, +15, +20). *)
Theorem role_fit_total_on_null_description (profile_data : ProfileData) :
  role_inputs_in_range (repositories profile_data) ->
  (exists roles, compute_role_fit profile_data = Ok roles) /\
  (forall r, In r (repositories profile_data) -> description r = None ->
     keyword_hit ml_keywords (description r) = Ok false /\
     keyword_hit be_keywords (description r) = Ok false /\
     keyword_hit sre_keywords (description r) = Ok false /\
     (forall ml_score,
         ml_step ml_score r =
         Ok (if language_is r "Jupyter Notebook" || language_is r "Python"
             then ml_score + 10 else ml_score)) /\
     (forall be_score,
         be_step be_score r =
         (s <- (if language_in r be_languages
                then py_add be_score (PyInt 10) else Ok be_score) ;;
          bonus <- int_truediv (code_structure (score_breakdown r)) 10 ;;
          py_add s bonus)) /\
     (forall sre_score,
         sre_step sre_score r =
         (bonus <- int_truediv (deployability (score_breakdown r)) 2 ;;
          py_add sre_score bonus))).
Proof.
  intros Hr. split; [now apply compute_role_fit_total|].
  intros r _ Hd. unfold ml_step, be_step, sre_step. rewrite Hd.
  rewrite !keyword_hit_None. cbn [bind].
  repeat split; intros; reflexivity.
Qed.

(** A profile of two repositories, the first without description. *)
Lemma role_fit_null_description_sample :
  role_inputs_in_range
    [sample_analysis (Some "Python") None []; sample_analysis None (Some "REST api") []] /\
  compute_role_fit
    (mkProfile "u" "https://github.com/u"
       [sample_analysis (Some "Python") None []; sample_analysis None (Some "REST api") []])
  = Ok (mkRoles (mkRoleFit 10 "Low Fit") (mkRoleFit 35 "Low Fit") (mkRoleFit 20 "Low Fit")).
Proof.
  assert (H : role_inputs_in_range
                [sample_analysis (Some "Python") None [];
                 sample_analysis None (Some "REST api") []]).
  { repeat constructor; simpl; lia. }
  split; [exact H|].
  destruct (role_fit_total_on_null_description
              (mkProfile "u" "https://github.com/u"
                 [sample_analysis (Some "Python") None [];
                  sample_analysis None (Some "REST api") []]) H) as [[roles Hroles] _].
  rewrite Hroles. revert Hroles. vm_compute. intros E. symmetry. exact E.
Defined.

End ScoringFacts.

(** ** The structure and deployability heuristics *)

Module HeuristicFacts.
Import Py Analyzer Spec Cover.

Lemma structure_score_cases path t language :
  In (fst (_analyze_structure path t language)) [30; 50; 60; 70; 80].
Proof.
  unfold _analyze_structure.
  destruct (filter (exists_at_root t) src_dirs) as [|d ds];
    destruct (Z.ltb_spec (file_count (walk path t)) 3);
    try destruct (Z.ltb_spec 50 (file_count (walk path t)));
    cbn [fst]; simpl; tauto.
Qed.

(** X1. [_analyze_structure] returns one of the five scores 30, 50, 60, 70
    and 80; its [language] argument has no influence on the result; and the
    weakness "Very small codebase (skeleton?)" is reported exactly when the
    walk finds fewer than three files. *)
Theorem analyze_structure_values (path : string) (t : tree) (language : option string) :
  In (fst (_analyze_structure path t language)) [30; 50; 60; 70; 80] /\
  _analyze_structure path t language = _analyze_structure path t None /\
  (In "Very small codebase (skeleton?)"
      (note_weaknesses (snd (_analyze_structure path t language)))
   <-> file_count (walk path t) < 3).
Proof.
  unfold _analyze_structure.
  destruct (filter (exists_at_root t) src_dirs) as [|d ds];
    destruct (Z.ltb_spec (file_count (walk path t)) 3);
    try destruct (Z.ltb_spec 50 (file_count (walk path t)));
    cbn [fst snd note_weaknesses]; repeat split; simpl; intros; try lia;
    intuition (try lia; try discriminate).
Qed.

Lemma deploy_file_shift s f : deploy_file s f = s + deploy_file 0 f.
Proof.
  unfold deploy_file. destruct (elem _ _), (String.eqb _ _), (endswith _ _); lia.
Qed.

Lemma deploy_file_nonneg f : 0 <= deploy_file 0 f.
Proof.
  unfold deploy_file. destruct (elem _ _), (String.eqb _ _), (endswith _ _); lia.
Qed.

Lemma deploy_file_zero f : deploy_file 0 f = 0 <-> is_deploy_signal f = false.
Proof.
  unfold deploy_file, is_deploy_signal.
  destruct (elem (fst f) deploy_files) eqn:E1, (String.eqb (fst f) "Dockerfile") eqn:E2,
    (endswith (fst f) ".tf") eqn:E3; cbn; split; intros; try lia; try discriminate;
    try reflexivity.
  apply String.eqb_eq in E2. rewrite E2 in E1. vm_compute in E1. discriminate.
Qed.

Lemma deploy_files_fold fs s :
  s <= fold_left deploy_file fs s /\
  (fold_left deploy_file fs s = s <-> forallb (fun f => negb (is_deploy_signal f)) fs = true).
Proof.
  revert s. induction fs as [|f fs IH]; intros s; cbn [fold_left forallb].
  - split; [lia|]. split; auto.
  - destruct (IH (deploy_file s f)) as [Hle Hiff].
    rewrite deploy_file_shift in *. pose proof (deploy_file_nonneg f) as Hn.
    pose proof (deploy_file_zero f) as Hz.
    split; [lia|]. rewrite andb_true_iff, negb_true_iff. split.
    + intros E. assert (deploy_file 0 f = 0) by lia. split; [now apply Hz|].
      apply Hiff. lia.
    + intros [E1 E2]. apply Hz in E1. apply Hiff in E2. lia.
Qed.

Lemma deploy_walk_fold w s :
  s <= fold_left (fun s e => fold_left deploy_file (files e) s) w s /\
  (fold_left (fun s e => fold_left deploy_file (files e) s) w s = s
   <-> forallb (fun f => negb (is_deploy_signal f)) (all_files w) = true).
Proof.
  revert s. induction w as [|e w IH]; intros s; cbn [fold_left all_files flat_map].
  - split; [lia|]. split; auto.
  - destruct (IH (fold_left deploy_file (files e) s)) as [Hle Hiff].
    destruct (deploy_files_fold (files e) s) as [Hle1 Hiff1].
    fold (all_files w). rewrite forallb_app, andb_true_iff.
    split; [lia|]. split.
    + intros E. assert (E1 : fold_left deploy_file (files e) s = s) by lia.
      split; [now apply Hiff1|]. apply Hiff. rewrite E1 in *. exact E.
    + intros [E1 E2]. apply Hiff1 in E1. apply Hiff in E2. lia.
Qed.

(** Every increment of the deploy scan is at least 20. *)
Lemma deploy_walk_step w s :
  0 <= s -> (s = 0 \/ 20 <= s) ->
  fold_left (fun s e => fold_left deploy_file (files e) s) w s = 0 \/
  20 <= fold_left (fun s e => fold_left deploy_file (files e) s) w s.
Proof.
  revert s. induction w as [|e w IH]; intros s Hs Hc; cbn [fold_left]; [exact Hc|].
  apply IH.
  - destruct (deploy_files_fold (files e) s). lia.
  - clear IH. revert s Hs Hc. induction (files e) as [|f fs IHf]; intros s Hs Hc;
      cbn [fold_left]; [exact Hc|].
    apply IHf.
    + rewrite deploy_file_shift. pose proof (deploy_file_nonneg f). lia.
    + rewrite deploy_file_shift. unfold deploy_file.
      destruct (elem _ _), (String.eqb _ _), (endswith _ _); lia.
Qed.

Lemma deploy_score_range path t :
  fst (_analyze_sec_deploy path t) = 80 /\ 0 <= snd (_analyze_sec_deploy path t) <= 100.
Proof.
  unfold _analyze_sec_deploy. cbn [fst snd].
  destruct (deploy_walk_fold (walk path t) 0) as [Hle _].
  split; [reflexivity|lia].
Qed.

(** X2. [_analyze_sec_deploy] always reports security 80 and a
    deployability score in [[0,100]]; the deployability score is 0 exactly
    when no file of the clone is a deploy marker or a Terraform file, and
    otherwise it is at least 20. *)
Theorem analyze_sec_deploy_values (path : string) (t : tree) :
  fst (_analyze_sec_deploy path t) = 80 /\
  0 <= snd (_analyze_sec_deploy path t) <= 100 /\
  (snd (_analyze_sec_deploy path t) = 0
   <-> forallb (fun f => negb (is_deploy_signal f)) (all_files (walk path t)) = true) /\
  (snd (_analyze_sec_deploy path t) <> 0 -> 20 <= snd (_analyze_sec_deploy path t)).
Proof.
  unfold _analyze_sec_deploy. cbn [fst snd].
  destruct (deploy_walk_fold (walk path t) 0) as [Hle Hiff].
  pose proof (deploy_walk_step (walk path t) 0 ltac:(lia) ltac:(lia)) as Hstep.
  set (d := fold_left _ (walk path t) 0) in *.
  split; [reflexivity|]. split; [lia|]. split.
  - rewrite <- Hiff. lia.
  - intros Hne. lia.
Qed.
End HeuristicFacts.

(** ** The testing and CI detector *)

Module TestingCiFacts.
Import Py Analyzer Spec Cover TestingFacts.

Lemma scan_tests_zero s w : scan_tests s w = s <-> no_test_signals w = true.
Proof.
  induction w as [|e w IH]; cbn [scan_tests no_test_signals forallb]; [tauto|].
  unfold is_test_dir, is_test_file.
  destruct (existsb (fun d => elem d test_dirs) (dirs e)); cbn.
  { split; [lia|discriminate]. }
  destruct (existsb _ (files e)); cbn.
  { split; [lia|discriminate]. }
  exact IH.
Qed.

Lemma scan_ci_char s w :
  scan_ci s w = Z.min 100 (s + if existsb is_ci_signal w then 40 else 0).
Proof.
  induction w as [|e w IH]; cbn [scan_ci existsb]; [now rewrite Z.add_0_r|].
  unfold is_ci_signal at 1. destruct (existsb _ (files e)); cbn; [reflexivity|exact IH].
Qed.

Lemma testing_score_range path t : 0 <= fst (_analyze_testing path t) <= 80.
Proof.
  unfold _analyze_testing. cbn [fst]. rewrite scan_ci_char.
  destruct (scan_tests_values 0 (walk path t)) as [E|[E|E]]; rewrite E;
    destruct (existsb is_ci_signal (walk path t)); lia.
Qed.

Lemma ci_signal_scores_40 path t :
  existsb is_ci_signal (walk path t) = true -> 40 <= fst (_analyze_testing path t).
Proof.
  intros H. unfold _analyze_testing. cbn [fst]. rewrite scan_ci_char, H.
  destruct (scan_tests_values 0 (walk path t)) as [E|[E|E]]; rewrite E; lia.
Qed.

(** X3. The testing score is 0 exactly when the walk shows no test
    directory, no file whose name mentions "test" and no CI signal; a CI
    signal alone is worth at least 40 and a test signal alone at least 20. *)
Theorem testing_ci_zero_iff (path : string) (t : tree) :
  let w := walk path t in
  let score := fst (_analyze_testing path t) in
  (score = 0 <-> no_test_signals w = true /\ existsb is_ci_signal w = false) /\
  (existsb is_ci_signal w = true -> 40 <= score) /\
  (no_test_signals w = false -> 20 <= score).
Proof.
  cbv zeta. unfold _analyze_testing. cbn [fst]. set (w := walk path t).
  rewrite scan_ci_char.
  pose proof (scan_tests_zero 0 w) as Hz.
  destruct (scan_tests_values 0 w) as [E|[E|E]]; rewrite E in *;
    destruct (existsb is_ci_signal w); destruct (no_test_signals w);
    repeat split; intros; try lia; try discriminate; try tauto;
    try (exfalso; destruct Hz as [Hz1 Hz2]; specialize (Hz2 eq_refl); lia);
    try (exfalso; destruct Hz as [Hz1 Hz2]; specialize (Hz1 eq_refl); discriminate);
    try (destruct H; discriminate).
Qed.

(** X4. The CI test [".github" in root] looks at the whole path of the
    walk, the temporary directory and the repository name included: a clone
    whose path mentions ".github" and whose top directory holds a file
    scores at least 40 whatever its content. *)
Theorem testing_ci_path_mentions_github (path : string) (t : tree) :
  contains ".github" path = true -> files_of t <> [] ->
  40 <= fst (_analyze_testing path t).
Proof.
  intros Hp Hf. apply ci_signal_scores_40.
  unfold walk. rewrite walk_dir_Dir. cbn [existsb]. unfold is_ci_signal at 1.
  cbn [files root].
  destruct (files_of t) as [|f fs]; [contradiction|]. cbn [existsb].
  rewrite Hp, orb_true_r. reflexivity.
Qed.

(** A one-page site whose repository is named after the pages domain. *)
Lemma testing_ci_github_pages_site :
  (contains ".github" (join sample_tmp "u.github.io") = true /\
   files_of [("index.html", File "<html></html>")] <> []) /\
  40 <= fst (_analyze_testing (join sample_tmp "u.github.io")
                [("index.html", File "<html></html>")]).
Proof.
  assert (H1 : contains ".github" (join sample_tmp "u.github.io") = true) by reflexivity.
  assert (H2 : files_of [("index.html", File "<html></html>")] <> []) by discriminate.
  split; [split; assumption|].
  exact (testing_ci_path_mentions_github _ _ H1 H2).
Defined.
End TestingCiFacts.

(** ** The range of the complexity score *)

Module ComplexityBound.
Import Float64 Float64Facts Py PyFacts Analyzer Spec Cover ComplexityFacts.

Lemma visit_files_raise cc acc fs :
  existsb (fun f => endswith (fst f) ".py" &&
                    match cc (snd f) with None => true | Some _ => false end) fs = true ->
  visit_files cc acc fs = Raise SyntaxError.
Proof.
  revert acc. induction fs as [|f fs IH]; intros acc H; [discriminate|].
  cbn [existsb visit_files] in *. unfold visit_file.
  destruct (endswith (fst f) ".py"); cbn [andb] in H.
  - destruct (cc (snd f)); cbn [bind]; [|reflexivity].
    cbn [orb] in H. now apply IH.
  - cbn [orb bind] in H |- *. now apply IH.
Qed.

Lemma visit_files_ok_or_syntax cc acc fs :
  (exists acc', visit_files cc acc fs = Ok acc') \/ visit_files cc acc fs = Raise SyntaxError.
Proof.
  revert acc. induction fs as [|f fs IH]; intros acc; [left; now exists acc|].
  cbn [visit_files]. unfold visit_file.
  destruct (endswith (fst f) ".py"); [destruct (cc (snd f))|]; cbn [bind]; auto.
Qed.

Lemma visit_walk_raise cc acc w :
  has_unparsable cc w = true -> visit_walk cc acc w = Raise SyntaxError.
Proof.
  unfold has_unparsable. revert acc. induction w as [|e w IH]; intros acc H; [discriminate|].
  cbn [flat_map visit_walk] in *. rewrite existsb_app in H.
  apply orb_true_iff in H as [H|H].
  - now rewrite visit_files_raise.
  - destruct (visit_files_ok_or_syntax cc acc (files e)) as [[acc' ->]| ->]; cbn [bind];
      [now apply IH|reflexivity].
Qed.

(** X5. One Python file that radon cannot parse discards the blocks
    counted in every other file: the complexity score is the default 50. *)
Theorem complexity_unparsable_file_gives_50
    (cc_visit : string -> option (list Z)) (path : string) (t : tree) :
  has_unparsable cc_visit (walk path t) = true ->
  _analyze_complexity_python cc_visit path t = 50.
Proof.
  intros H. unfold _analyze_complexity_python. now rewrite visit_walk_raise.
Qed.

Lemma complexity_unparsable_plain_python :
  has_unparsable radon_rejects (walk sample_tmp plain_python) = true /\
  _analyze_complexity_python radon_rejects sample_tmp plain_python = 50.
Proof.
  assert (H : has_unparsable radon_rejects (walk sample_tmp plain_python) = true)
    by reflexivity.
  split; [exact H|].
  exact (complexity_unparsable_file_gives_50 radon_rejects sample_tmp plain_python H).
Defined.

Lemma round64_fin_inv x q : round64 x = Fin q -> q = rnd x.
Proof.
  unfold round64. destruct (Qle_bool _ _); [discriminate|].
  destruct (Qle_bool _ _); [discriminate|]. now intros [= <-].
Qed.

(** Rounding a real above a threshold: a finite double above the rounded
    threshold, or an overflow to plus infinity. *)
Lemma round64_above x c :
  (c <= x)%Q -> (- inject_Z huge < rnd c)%Q ->
  round64 x = PInf \/ exists q, round64 x = Fin q /\ (rnd c <= q)%Q.
Proof.
  intros Hx Hc. pose proof (rnd_mono _ _ Hx) as Hm. unfold round64.
  destruct (Qle_bool (inject_Z huge) (rnd x)); [now left|].
  destruct (Qle_bool (rnd x) (- inject_Z huge)) eqn:E.
  - apply Qle_bool_iff in E. exfalso. lra.
  - right. exists (rnd x). split; [reflexivity|exact Hm].
Qed.

Lemma round64_below x c :
  (x <= c)%Q -> (rnd c < inject_Z huge)%Q ->
  round64 x = NInf \/ exists q, round64 x = Fin q /\ (q <= rnd c)%Q.
Proof.
  intros Hx Hc. pose proof (rnd_mono _ _ Hx) as Hm. unfold round64.
  destruct (Qle_bool (inject_Z huge) (rnd x)) eqn:E.
  - apply Qle_bool_iff in E. exfalso. lra.
  - destruct (Qle_bool (rnd x) (- inject_Z huge)); [now left|].
    right. exists (rnd x). split; [reflexivity|exact Hm].
Qed.

Lemma rnd_1 : rnd 1 = 1%Q.
Proof. reflexivity. Qed.

Lemma rnd_m4 : rnd (- (4)) = (- (4))%Q.
Proof. reflexivity. Qed.

Lemma p_min_val : rnd (- (4) * k_slope) = p_min.
Proof. vm_compute. reflexivity. Qed.

Lemma r_max_val : rnd (100 - p_min) = r_max.
Proof. vm_compute. reflexivity. Qed.

Lemma r_max_lt_127 : (r_max < 127)%Q.
Proof. reflexivity. Qed.

Lemma huge_big : (1000 < inject_Z huge)%Q.
Proof. reflexivity. Qed.

Lemma p_min_bounds : (- (27) < p_min < 0)%Q.
Proof. split; reflexivity. Qed.

Lemma k_slope_pos : (k_slope ?= 0)%Q = Gt.
Proof. reflexivity. Qed.

Lemma Ok_inj {A : Type} (a b : A) : Ok a = Ok b -> a = b.
Proof. now intros [= ->]. Qed.

Lemma Raise_Ok {A : Type} e (a : A) : Raise e = Ok a -> False.
Proof. discriminate. Qed.

Lemma int_truediv_Ok a b v :
  b <> 0 -> int_truediv a b = Ok v ->
  v = PyFloat (Fin (rnd (inject_Z a / inject_Z b))).
Proof.
  intros Hb. rewrite int_truediv_unfold by exact Hb. unfold round64.
  destruct (Qle_bool _ _); [intros H; destruct (Raise_Ok _ _ H)|].
  destruct (Qle_bool _ _); [intros H; destruct (Raise_Ok _ _ H)|].
  intros H. symmetry. exact (Ok_inj _ _ H).
Qed.

(** [int(max(0, r))] for a double [r] that is minus infinity or at most
    [r_max]. *)
Lemma clamp_low_bounded r s :
  (r = NInf \/ exists x, r = Fin x /\ (x <= r_max)%Q) ->
  py_int (py_max 0 (PyFloat r)) = Ok s -> 0 <= s <= 126.
Proof.
  pose proof r_max_lt_127 as Hr127.
  intros [->|(x & -> & Hx)].
  - cbn. intros H. apply Ok_inj in H. lia.
  - unfold py_max, py_gt, fgt. change (inject_Z 0) with 0%Q.
    destruct (Qle_bool x 0) eqn:E; cbn [negb py_int]; intros H; apply Ok_inj in H.
    + lia.
    + assert (H0 : (0 < x)%Q).
      { destruct (Qlt_le_dec 0 x) as [L|L]; [exact L|].
        apply Qle_bool_iff in L. congruence. }
      subst s. rewrite trunc_nonneg by lra.
      pose proof (Qfloor_le x) as Fl.
      assert (0 <= Qfloor x) by exact (Qfloor_resp_le 0 x (Qlt_le_weak _ _ H0)).
      assert (Qfloor x < 127); [|lia].
      rewrite Zlt_Qlt. change (inject_Z 127) with 127%Q. lra.
Qed.

(** The mapping on an average of at least 1: a value in [[0,126]] whenever
    it returns one. *)
Lemma complexity_score_bounded total n s :
  0 < n -> n <= total -> complexity_score total n = Ok s -> 0 <= s <= 126.
Proof.
  intros Hn Ht. unfold complexity_score.
  pose proof (avg_bounds total n 1 total Hn ltac:(nia)) as [Ha _].
  change (inject_Z 1) with 1%Q in Ha.
  pose proof huge_big as HH. pose proof p_min_bounds as Hpm.
  pose proof k_slope_val as Hk.
  destruct (int_truediv total n) as [v|] eqn:Ev; cbn [bind];
    [|intros H; destruct (Raise_Ok _ _ H)].
  apply int_truediv_Ok in Ev; [|lia]. subst v.
  set (q := rnd (inject_Z total / inject_Z n)).
  assert (Hq : (1 <= q)%Q).
  { subst q. rewrite <- rnd_1. now apply rnd_mono. }
  clearbody q.
  rewrite py_sub_float_int by lia. change (inject_Z 5) with 5%Q.
  cbn [bind]. rewrite slope_literal. cbn [bind py_mul to_float].
  assert (Hp : fmul (round64 (q - 5)) (Fin k_slope) = PInf \/
               exists p, fmul (round64 (q - 5)) (Fin k_slope) = Fin p /\ (p_min <= p)%Q).
  { destruct (round64_above (q - 5) (- (4))) as [E|(d & E & Hd)];
      [lra|rewrite rnd_m4; lra| |].
    - rewrite E. left. unfold fmul, fsign. now rewrite k_slope_pos.
    - rewrite E. rewrite rnd_m4 in Hd. cbn [fmul].
      destruct (round64_above (d * k_slope) (- (4) * k_slope)) as [E'|(p & E' & Hp)].
      + rewrite Hk. lra.
      + rewrite p_min_val. lra.
      + now left.
      + right. exists p. rewrite p_min_val in Hp. auto. }
  destruct Hp as [->|(p & -> & Hp)].
  - unfold py_sub, to_float, bind. rewrite float_of_int_exact by lia.
    intros E. eapply clamp_low_bounded; [|exact E]. left. reflexivity.
  - rewrite py_sub_int_float by lia. change (inject_Z 100) with 100%Q. cbn [bind].
    intros E. eapply clamp_low_bounded; [|exact E].
    destruct (round64_below (100 - p) (100 - p_min)) as [E'|(r & E' & Hr)].
    + lra.
    + rewrite r_max_val. pose proof r_max_lt_127. lra.
    + now left.
    + right. exists r. rewrite r_max_val in Hr. auto.
Qed.

(** The accumulator of the walk counts blocks and sums complexities. *)
Lemma visit_walk_counts cc w :
  radon_like cc ->
  forall acc acc', 0 <= fst acc <= snd acc ->
    visit_walk cc acc w = Ok acc' -> 0 <= fst acc' <= snd acc'.
Proof.
  intros Hcc.
  assert (Hfold : forall l acc, Forall (fun c => 1 <= c) l -> 0 <= fst acc <= snd acc ->
            0 <= fst (fold_left (fun a c => (fst a + 1, snd a + c)) l acc)
              <= snd (fold_left (fun a c => (fst a + 1, snd a + c)) l acc)).
  { induction l as [|c l IH]; intros acc Hl Ha; cbn [fold_left]; [exact Ha|].
    inversion Hl; subst. apply IH; [assumption|]. cbn [fst snd]. lia. }
  assert (Hfiles : forall fs acc acc', 0 <= fst acc <= snd acc ->
            visit_files cc acc fs = Ok acc' -> 0 <= fst acc' <= snd acc').
  { induction fs as [|f fs IH]; intros acc acc' Ha; cbn [visit_files].
    - now intros [= <-].
    - unfold visit_file. destruct (endswith (fst f) ".py").
      + destruct (cc (snd f)) as [l|] eqn:E; cbn [bind]; [|discriminate].
        apply IH. apply Hfold; [eapply Hcc; eassumption|exact Ha].
      + cbn [bind]. now apply IH. }
  induction w as [|e w IH]; intros acc acc' Ha; cbn [visit_walk].
  - now intros [= <-].
  - destruct (visit_files cc acc (files e)) as [a|] eqn:E; cbn [bind]; [|discriminate].
    apply IH. eapply Hfiles; eassumption.
Qed.

Lemma complexity_python_bounded cc_visit path t :
  radon_like cc_visit -> 0 <= _analyze_complexity_python cc_visit path t <= 126.
Proof.
  intros Hcc. unfold _analyze_complexity_python.
  destruct (visit_walk cc_visit (0, 0) (walk path t)) as [[n total]|] eqn:E;
    cbn [bind try_except fst snd]; [|lia].
  pose proof (visit_walk_counts cc_visit _ Hcc (0, 0) _ ltac:(cbn; lia) E) as Hc.
  cbn [fst snd] in Hc.
  destruct (Z.ltb_spec 0 n); cbn [try_except]; [|lia].
  destruct (complexity_score total n) as [s|] eqn:Es; cbn [try_except]; [|lia].
  eapply complexity_score_bounded; [| |exact Es]; lia.
Qed.

Lemma radon_like_blocks_of c : 1 <= c -> radon_like (blocks_of c).
Proof.
  intros Hc content l H. unfold blocks_of in H. injection H as <-.
  repeat constructor. exact Hc.
Qed.

(** X6. With block complexities of at least 1, as radon reports them, the
    complexity score of a Python repository lies in [[0,126]] for every
    clone: no exception escapes and the double arithmetic cannot leave the
    range. *)
Theorem complexity_subscore_range
    (cc_visit : string -> option (list Z)) (path : string) (t : tree) :
  radon_like cc_visit ->
  0 <= _analyze_complexity_python cc_visit path t <= 126.
Proof. exact (complexity_python_bounded cc_visit path t). Qed.

Lemma complexity_subscore_plain_python :
  radon_like one_simple_block /\
  0 <= _analyze_complexity_python one_simple_block sample_tmp plain_python <= 126.
Proof.
  assert (H : radon_like one_simple_block) by (apply radon_like_blocks_of; lia).
  split; [exact H|].
  exact (complexity_subscore_range one_simple_block sample_tmp plain_python H).
Defined.
End ComplexityBound.

(** ** The README score *)

Module ReadmeFacts.
Import Float64 Float64Facts Py PyFacts Analyzer Scoring Spec Cover ComplexityFacts.
Import ComplexityBound.

Lemma readme_heuristic_values content :
  In (readme_heuristic content) [30; 40; 50; 60; 70; 80; 90; 100].
Proof.
  unfold readme_heuristic.
  destruct (500 <? _)%Z, (contains "install" content), (contains "usage" content),
    (contains "contributing" content), (contains "license" content),
    (contains "##" content); simpl; tauto.
Qed.

Lemma floor_unique q m : (inject_Z m <= q)%Q -> (q < inject_Z m + 1)%Q -> Qfloor q = m.
Proof.
  intros H1 H2. pose proof (Qfloor_le q) as Fl. pose proof (Qlt_floor q) as Fu.
  rewrite inject_Z_plus in Fu. change (inject_Z 1) with 1%Q in Fu.
  assert (Qfloor q < m + 1).
  { rewrite Zlt_Qlt, inject_Z_plus. change (inject_Z 1) with 1%Q. lra. }
  assert (m < Qfloor q + 1).
  { rewrite Zlt_Qlt, inject_Z_plus. change (inject_Z 1) with 1%Q. lra. }
  lia.
Qed.

(** [int(k / 2)] on a small non-negative [int] is the integer half. *)
Lemma int_half k :
  0 <= k <= 2 ^ 19 ->
  (avg <- int_truediv k 2 ;; py_int avg) = Ok (k / 2).
Proof.
  intros Hk. rewrite int_truediv_unfold by lia.
  pose proof (Z.div_mod k 2 ltac:(lia)) as Hdm.
  pose proof (Z.mod_pos_bound k 2 ltac:(lia)) as Hr.
  set (m := k / 2) in *.
  assert (Hm : 0 <= m <= 2 ^ 19)
    by (subst m; split; [apply Z.div_pos; lia|apply Z.div_le_upper_bound; lia]).
  pose proof (inject_Z_bounds m 0 (2 ^ 19) Hm) as Bm.
  change (inject_Z 0) with 0%Q in Bm. change (inject_Z (2 ^ 19)) with 524288%Q in Bm.
  pose proof bound_val as HB. pose proof eps_val as HE.
  assert (Hx : (inject_Z k / inject_Z 2 == inject_Z m + inject_Z (k mod 2) * (1 # 2))%Q).
  { rewrite Hdm at 1. rewrite inject_Z_plus, inject_Z_mult. field. }
  rewrite (round64_proper _ _ Hx).
  destruct (Z.eq_dec (k mod 2) 0) as [E|E].
  - rewrite E.
    assert (Hx' : (inject_Z m + inject_Z 0 * (1 # 2) == inject_Z m)%Q) by ring.
    rewrite (round64_proper _ _ Hx'), round64_int by lia.
    cbn [bind py_int]. f_equal. rewrite trunc_nonneg by lra. apply Qfloor_Z.
  - assert (E1 : k mod 2 = 1) by lia. rewrite E1. change (inject_Z 1) with 1%Q.
    destruct (round64_near_between (inject_Z m + 1 * (1 # 2)) (inject_Z m) (inject_Z (m + 1)))
      as (q & -> & Nq & Bq).
    + rewrite inject_Z_plus. change (inject_Z 1) with 1%Q. split; lra.
    + lra.
    + rewrite inject_Z_plus. change (inject_Z 1) with 1%Q. lra.
    + rewrite !rnd_int in Bq by lia. rewrite inject_Z_plus in Bq.
      change (inject_Z 1) with 1%Q in Bq.
      cbn [bind py_int]. f_equal. rewrite trunc_nonneg by lra.
      apply floor_unique; lra.
Qed.

(** The averaging branch of [_analyze_readme] on a heuristic score [h] and
    a provider score in [[0,100]]. *)
Lemma readme_average_value (h : Z) (answer : LlmReadme) (fallback : Z * option Notes) :
  30 <= h <= 100 -> 0 <= llm_score answer <= 100 ->
  try_except
    (avg <- int_truediv (h + llm_score answer) 2 ;;
     n <- py_int avg ;;
     Ok (Z.min 100 n,
         Some (mkNotes (llm_strengths answer) (llm_weaknesses answer))))
    fallback
  = ((h + llm_score answer) / 2,
     Some (mkNotes (llm_strengths answer) (llm_weaknesses answer))) /\
  15 <= (h + llm_score answer) / 2 <= 100.
Proof.
  intros Hh Hl.
  assert (Hd : 15 <= (h + llm_score answer) / 2 <= 100).
  { split; [apply Z.div_le_lower_bound; lia|apply Z.div_le_upper_bound; lia]. }
  split; [|exact Hd].
  pose proof (int_half (h + llm_score answer) ltac:(lia)) as Hhalf.
  destruct (int_truediv (h + llm_score answer) 2) as [v|]; cbn [bind] in Hhalf |- *;
    [|destruct (Raise_Ok _ _ Hhalf)].
  rewrite Hhalf. cbn [bind try_except]. f_equal. lia.
Qed.

(** X7. Without a provider [_analyze_readme] scores 0 when no entry of the
    top directory is named like a README, raises [IsADirectoryError] when
    the first such entry is a directory, and returns a multiple of ten
    between 30 and 100, with no notes, when the first such entry is a
    regular file that [open] reads. *)
Theorem analyze_readme_heuristic (path : string) (t : tree) :
  (find_readme t = None -> _analyze_readme None path t = Ok (0, None)) /\
  (forall children, find_readme t = Some (Dir children) ->
     _analyze_readme None path t = Raise IsADirectoryError) /\
  (forall text, find_readme t = Some (File text) ->
     exists score, _analyze_readme None path t = Ok (score, None) /\
                   In score [30; 40; 50; 60; 70; 80; 90; 100]).
Proof.
  unfold _analyze_readme. split; [|split].
  - intros ->. reflexivity.
  - intros children ->. reflexivity.
  - intros text ->.
    pose proof (readme_heuristic_values (lower text)) as H.
    exists (readme_heuristic (lower text)). split; [|exact H].
    f_equal. f_equal. simpl in H. lia.
Qed.

(** X8. When the provider answers with a score in [[0,100]], the README
    score is the integer half of the sum of the heuristic and the provider
    score, between 15 and 100, and the notes are the provider's. *)
Theorem analyze_readme_provider_average
    (analyze : string -> option LlmReadme) (path : string) (t : tree)
    (text : string) (answer : LlmReadme) :
  find_readme t = Some (File text) ->
  analyze (lower text) = Some answer ->
  0 <= llm_score answer <= 100 ->
  let h := readme_heuristic (lower text) in
  _analyze_readme (Some analyze) path t
  = Ok ((h + llm_score answer) / 2,
        Some (mkNotes (llm_strengths answer) (llm_weaknesses answer))) /\
  15 <= (h + llm_score answer) / 2 <= 100.
Proof.
  intros Hf Ha Hl. cbv zeta. unfold _analyze_readme. rewrite Hf, Ha.
  pose proof (readme_heuristic_values (lower text)) as H.
  assert (Hh : 30 <= readme_heuristic (lower text) <= 100) by (simpl in H; lia).
  destruct (readme_average_value (readme_heuristic (lower text)) answer
              (Z.min 100 (readme_heuristic (lower text)), None) Hh Hl) as [E Hd].
  split; [|exact Hd]. f_equal. exact E.
Qed.

(** The sample project, its README judged 90 by the provider. *)
Lemma analyze_readme_provider_sample :
  (find_readme plain_python = Some (File "# demo") /\
   steady_provider (lower "# demo") = Some (mkLlmReadme 90 ["Clear goals"] ["No examples"]) /\
   0 <= llm_score (mkLlmReadme 90 ["Clear goals"] ["No examples"]) <= 100) /\
  _analyze_readme (Some steady_provider) sample_tmp plain_python
  = Ok (60, Some (mkNotes ["Clear goals"] ["No examples"])).
Proof.
  assert (H1 : find_readme plain_python = Some (File "# demo")) by reflexivity.
  assert (H2 : steady_provider (lower "# demo")
               = Some (mkLlmReadme 90 ["Clear goals"] ["No examples"])) by reflexivity.
  assert (H3 : 0 <= llm_score (mkLlmReadme 90 ["Clear goals"] ["No examples"]) <= 100)
    by (simpl; lia).
  split; [auto|].
  exact (proj1 (analyze_readme_provider_average steady_provider sample_tmp plain_python
                  "# demo" (mkLlmReadme 90 ["Clear goals"] ["No examples"]) H1 H2 H3)).
Defined.

Lemma analyze_readme_range llm path t :
  provider_in_range llm -> readme_is_directory t = false ->
  exists s n, _analyze_readme llm path t = Ok (s, n) /\ 0 <= s <= 100.
Proof.
  intros Hp Hd. unfold readme_is_directory in Hd. unfold _analyze_readme.
  destruct (find_readme t) as [[text|ch]|] eqn:Ef; try discriminate.
  - pose proof (readme_heuristic_values (lower text)) as H.
    assert (Hh : 30 <= readme_heuristic (lower text) <= 100) by (simpl in H; lia).
    destruct llm as [analyze|].
    + destruct (analyze (lower text)) as [answer|] eqn:Ea.
      * destruct (readme_average_value (readme_heuristic (lower text)) answer
                    (Z.min 100 (readme_heuristic (lower text)), None) Hh (Hp _ _ Ea))
          as [E Hr].
        do 2 eexists. split; [f_equal; exact E|lia].
      * do 2 eexists. split; [reflexivity|lia].
    + do 2 eexists. split; [reflexivity|lia].
  - do 2 eexists. split; [reflexivity|lia].
Qed.
End ReadmeFacts.

(** ** Rating and tier labels *)

Module LabelFacts.
Import Py Analyzer Scoring Spec.

(** X9. The rating of a repository and the tier of a profile use the same
    inclusive bounds 85, 70, 55 and 40, which cut the integers into five
    bands with five distinct labels each; two scores have the same tier
    exactly when they have the same rating; and every tier has a non-empty
    entry in the table of [get_tier_label]. *)
Theorem rating_and_tier_bands (s : Z) :
  (_get_rating_label s = _get_rating_label 85 <-> 85 <= s) /\
  (_get_rating_label s = _get_rating_label 70 <-> 70 <= s < 85) /\
  (_get_rating_label s = _get_rating_label 55 <-> 55 <= s < 70) /\
  (_get_rating_label s = _get_rating_label 40 <-> 40 <= s < 55) /\
  (_get_rating_label s = _get_rating_label 39 <-> s < 40) /\
  (forall s', tier_of s = tier_of s' <-> _get_rating_label s = _get_rating_label s') /\
  get_tier_label (tier_of s) <> EmptyString.
Proof.
  assert (B : forall x,
    (85 <= x /\ _get_rating_label x = _get_rating_label 85 /\ tier_of x = tier_of 85) \/
    (70 <= x < 85 /\ _get_rating_label x = _get_rating_label 70 /\ tier_of x = tier_of 70) \/
    (55 <= x < 70 /\ _get_rating_label x = _get_rating_label 55 /\ tier_of x = tier_of 55) \/
    (40 <= x < 55 /\ _get_rating_label x = _get_rating_label 40 /\ tier_of x = tier_of 40) \/
    (x < 40 /\ _get_rating_label x = _get_rating_label 39 /\ tier_of x = tier_of 39)).
  { intros x. unfold _get_rating_label, tier_of.
    destruct (Z.leb_spec 85 x); [left; repeat split; lia|].
    destruct (Z.leb_spec 70 x); [right; left; repeat split; lia|].
    destruct (Z.leb_spec 55 x); [right; right; left; repeat split; lia|].
    destruct (Z.leb_spec 40 x); [right; right; right; left; repeat split; lia|].
    right; right; right; right. repeat split; lia. }
  assert (D : forall a b, In a [85; 70; 55; 40; 39] -> In b [85; 70; 55; 40; 39] ->
              (_get_rating_label a = _get_rating_label b -> a = b) /\
              (tier_of a = tier_of b -> a = b)).
  { intros a b Ha Hb. simpl in Ha, Hb.
    destruct Ha as [<-|[<-|[<-|[<-|[<-|[]]]]]]; destruct Hb as [<-|[<-|[<-|[<-|[<-|[]]]]]];
      split; intros E; try reflexivity; vm_compute in E; discriminate E. }
  assert (M : forall x, exists r, In r [85; 70; 55; 40; 39] /\
              _get_rating_label x = _get_rating_label r /\ tier_of x = tier_of r /\
              (r = 85 <-> 85 <= x) /\ (r = 70 <-> 70 <= x < 85) /\
              (r = 55 <-> 55 <= x < 70) /\ (r = 40 <-> 40 <= x < 55) /\ (r = 39 <-> x < 40)).
  { intros x. destruct (B x) as [H|[H|[H|[H|H]]]]; destruct H as (Hx & H1 & H2);
      [exists 85|exists 70|exists 55|exists 40|exists 39]; simpl; repeat split; auto; lia. }
  destruct (M s) as (r & Hr & R1 & T1 & I85 & I70 & I55 & I40 & I39).
  assert (K : forall c, In c [85; 70; 55; 40; 39] ->
              (_get_rating_label s = _get_rating_label c <-> r = c)).
  { intros c Hc. rewrite R1. split; [apply (D r c Hr Hc)|intros ->; reflexivity]. }
  split; [rewrite K by (simpl; tauto); exact I85|].
  split; [rewrite K by (simpl; tauto); exact I70|].
  split; [rewrite K by (simpl; tauto); exact I55|].
  split; [rewrite K by (simpl; tauto); exact I40|].
  split; [rewrite K by (simpl; tauto); exact I39|].
  split.
  - intros s'. destruct (M s') as (r' & Hr' & R1' & T1' & _).
    rewrite R1, T1, R1', T1'. split; intros E.
    + apply (D r r' Hr Hr') in E. now subst.
    + apply (D r r' Hr Hr') in E. now subst.
  - rewrite T1. simpl in Hr.
    destruct Hr as [<-|[<-|[<-|[<-|[<-|[]]]]]]; vm_compute; discriminate.
Qed.
End LabelFacts.

(** ** The range of the hiring-readiness score *)

Module ReadinessFacts.
Import Float64 Float64Facts Py PyFacts Analyzer Scoring Spec Cover.
Import CompositeFacts ComplexityFacts ComplexityBound ScoringFacts.

Lemma literal_035 : literal 35 100 = PyFloat (Fin w035).
Proof. vm_compute. reflexivity. Qed.

Lemma literal_005 : literal 5 100 = PyFloat (Fin w005).
Proof. vm_compute. reflexivity. Qed.

Lemma sum_shift l a : fold_left Z.add l a = a + fold_left Z.add l 0.
Proof.
  revert a. induction l as [|x l IH]; intros a; cbn [fold_left]; [lia|].
  rewrite IH, (IH (0 + x)). lia.
Qed.

Lemma sum_cons x l : sum (x :: l) = x + sum l.
Proof. unfold sum. cbn [fold_left]. rewrite sum_shift. lia. Qed.

Lemma sum_bounds l :
  Forall (fun x => 0 <= x <= 100) l -> 0 <= sum l <= 100 * len l.
Proof.
  unfold len. induction 1 as [|x l Hx Hl IH]; [cbn; lia|].
  rewrite sum_cons. cbn [List.length]. lia.
Qed.

Lemma huge_gt_100 : (100 < inject_Z huge)%Q.
Proof. reflexivity. Qed.

(** The mean of a non-empty list of scores in [[0,100]]. *)
Lemma mean_bounds l :
  l <> [] -> Forall (fun x => 0 <= x <= 100) l ->
  exists q, mean l = Ok (PyFloat (Fin q)) /\ (0 <= q <= 100)%Q.
Proof.
  intros Hne Hl. pose proof (sum_bounds l Hl) as Hs.
  assert (Hn : 0 < len l).
  { unfold len. destruct l; [contradiction|]. cbn [List.length]. lia. }
  assert (Hm : mean l = int_truediv (sum l) (len l))
    by (destruct l; [contradiction|reflexivity]).
  rewrite Hm, int_truediv_unfold by lia.
  pose proof huge_gt_100 as HH.
  destruct (round64_between (inject_Z (sum l) / inject_Z (len l)) 0 100) as (q & -> & Bq).
  - exact (avg_bounds (sum l) (len l) 0 100 Hn ltac:(lia)).
  - rewrite rnd_0. lra.
  - rewrite rnd_100. exact HH.
  - rewrite rnd_0, rnd_100 in Bq. now exists q.
Qed.

Lemma insert_desc_Forall (P : Z -> Prop) x l :
  P x -> Forall P l -> Forall P (insert_desc x l).
Proof.
  intros Hx. induction 1 as [|y l Hy Hl IH]; cbn [insert_desc]; [now constructor|].
  destruct (y <=? x)%Z; repeat constructor; assumption.
Qed.

Lemma sorted_desc_Forall (P : Z -> Prop) l : Forall P l -> Forall P (sorted_desc l).
Proof.
  induction 1; cbn; [constructor|]. now apply insert_desc_Forall.
Qed.

Lemma insert_desc_length x l : List.length (insert_desc x l) = S (List.length l).
Proof.
  induction l as [|y l IH]; cbn [insert_desc]; [reflexivity|].
  destruct (y <=? x)%Z; cbn [List.length]; [reflexivity|now rewrite IH].
Qed.

Lemma sorted_desc_length l : List.length (sorted_desc l) = List.length l.
Proof.
  induction l as [|x l IH]; [reflexivity|].
  change (sorted_desc (x :: l)) with (insert_desc x (sorted_desc l)).
  rewrite insert_desc_length, IH. reflexivity.
Qed.

Lemma firstn_Forall {A : Type} (P : A -> Prop) n l :
  Forall P l -> Forall P (firstn n l).
Proof.
  revert l. induction n as [|n IH]; intros l Hl; [constructor|].
  destruct Hl; cbn [firstn]; constructor; auto.
Qed.

Lemma presence_bounds field repos :
  repos <> [] ->
  exists q, presence field repos = Ok (PyFloat (Fin q)) /\ (0 <= q <= 100)%Q.
Proof.
  intros Hne. unfold presence.
  set (hits := filter _ repos).
  assert (Hn : 0 < len repos).
  { unfold len. destruct repos; [contradiction|]. cbn [List.length]. lia. }
  assert (Hh : 0 <= len hits <= len repos).
  { unfold len, hits.
    pose proof (filter_length_le (fun r => (0 <? field (score_breakdown r))%Z) repos). lia. }
  rewrite int_truediv_unfold by lia.
  pose proof huge_gt_100 as HH.
  destruct (round64_between (inject_Z (len hits) / inject_Z (len repos)) 0 1) as (f & -> & Bf).
  - exact (avg_bounds (len hits) (len repos) 0 1 Hn ltac:(lia)).
  - rewrite rnd_0. lra.
  - rewrite rnd_1. lra.
  - rewrite rnd_0, rnd_1 in Bf. cbn [bind].
    unfold py_mul, to_float, bind. rewrite float_of_int_exact by lia. cbn [fmul].
    change (inject_Z 100) with 100%Q.
    destruct (round64_between (f * 100) 0 100) as (q & -> & Bq).
    + split; lra.
    + rewrite rnd_0. lra.
    + rewrite rnd_100. exact HH.
    + rewrite rnd_0, rnd_100 in Bq. now exists q.
Qed.

Lemma py_mul_float_float a w :
  (0 <= a <= 1000)%Q -> (0 <= w <= 1)%Q ->
  exists p, py_mul (PyFloat (Fin a)) (PyFloat (Fin w)) = Ok (PyFloat (Fin p)) /\
            (a * w - eps <= p <= a * w + eps)%Q /\ (0 <= p)%Q.
Proof.
  intros Ha Hw. unfold py_mul, to_float, bind. cbn [fmul].
  pose proof bound_val as HB.
  destruct (round64_near_nonneg (a * w)) as (p & Hp & Hnear & Hpos).
  { split; [|rewrite HB]; nra. }
  exists p. rewrite Hp. auto.
Qed.

Lemma security_baseline_bounds repos : 0 <= security_baseline repos <= 100.
Proof.
  unfold security_baseline. rewrite deduction_fold.
  assert (0 <= flagged repos) by (unfold flagged, len; lia). lia.
Qed.

Lemma trunc_bounds q n : (0 <= q)%Q -> (q < inject_Z n + 1)%Q -> 0 <= trunc q <= n.
Proof.
  intros H0 Hn. rewrite trunc_nonneg by exact H0.
  pose proof (Qfloor_le q) as Fl.
  assert (0 <= Qfloor q) by exact (Qfloor_resp_le 0 q H0).
  assert (Qfloor q < n + 1); [|lia].
  rewrite Zlt_Qlt, inject_Z_plus. change (inject_Z 1) with 1%Q. lra.
Qed.

Lemma readiness_total_range profile_data :
  composites_in_range (repositories profile_data) ->
  exists h, compute_hiring_readiness profile_data = Ok h /\
            0 <= score h <= 100 /\
            tier h = tier_of (score h) /\
            tier_label h = get_tier_label (tier h).
Proof.
  intros Hr. unfold compute_hiring_readiness.
  destruct (repositories profile_data) as [|r0 repos] eqn:E.
  { eexists. split; [reflexivity|]. cbn. repeat split; lia. }
  set (rs := r0 :: repos) in *.
  assert (Hne : rs <> []) by discriminate.
  assert (Hsc : Forall (fun x => 0 <= x <= 100) (map composite_score rs)).
  { apply Forall_map. exact Hr. }
  destruct (mean_bounds (map composite_score rs)) as (avg & -> & Bavg);
    [subst rs; discriminate|exact Hsc|].
  cbn [bind].
  destruct (mean_bounds (firstn 3 (sorted_desc (map composite_score rs)))) as (b3 & -> & Bb3).
  { intros C. apply (f_equal (@List.length Z)) in C.
    rewrite length_firstn, sorted_desc_length, length_map in C.
    subst rs. cbn [List.length] in C. lia. }
  { apply firstn_Forall. now apply sorted_desc_Forall. }
  cbn [bind].
  destruct (presence_bounds testing_ci rs Hne) as (pt & -> & Bpt).
  destruct (presence_bounds deployability rs Hne) as (pd & -> & Bpd).
  cbn [bind].
  rewrite literal_035, literal_025, literal_015, literal_010, literal_005.
  pose proof (security_baseline_bounds rs) as Hsb.
  set (sb := security_baseline rs) in *.
  set (div := Z.min 100 (len (load_languages rs) * 20)).
  assert (Hdiv : 0 <= div <= 100) by (subst div; unfold len; lia).
  pose proof (inject_Z_bounds _ _ _ Hsb) as Bsb. pose proof (inject_Z_bounds _ _ _ Hdiv) as Bdiv.
  change (inject_Z 0) with 0%Q in *. change (inject_Z 100) with 100%Q in *.
  pose proof bound_val as HB. pose proof eps_val as HE.
  destruct (py_mul_float_float avg w035) as (t1 & -> & N1 & P1);
    [lra|unfold w035; split; lra|].
  destruct (py_mul_float_float b3 w025) as (t2 & -> & N2 & P2);
    [lra|unfold w025; split; lra|].
  cbn [bind]. unfold w035, w025 in * |-.
  destruct (py_add_float t1 t2 P1 P2) as (s2 & -> & M2 & Q2); [lra|].
  destruct (py_mul_int_float div w015) as (t3 & -> & N3 & P3);
    [lia|unfold w015; split; lra|].
  cbn [bind]. unfold w015 in * |-.
  destruct (py_add_float s2 t3 Q2 P3) as (s3 & -> & M3 & Q3); [lra|].
  destruct (py_mul_float_float pt w010) as (t4 & -> & N4 & P4);
    [lra|unfold w010; split; lra|].
  cbn [bind]. unfold w010 in * |-.
  destruct (py_add_float s3 t4 Q3 P4) as (s4 & -> & M4 & Q4); [lra|].
  destruct (py_mul_float_float pd w010) as (t5 & -> & N5 & P5);
    [lra|unfold w010; split; lra|].
  cbn [bind]. unfold w010 in * |-.
  destruct (py_add_float s4 t5 Q4 P5) as (s5 & -> & M5 & Q5); [lra|].
  destruct (py_mul_int_float sb w005) as (t6 & -> & N6 & P6);
    [lia|unfold w005; split; lra|].
  cbn [bind]. unfold w005 in * |-.
  destruct (py_add_float s5 t6 Q5 P6) as (s6 & -> & M6 & Q6); [lra|].
  cbn [bind py_int].
  eexists. split; [reflexivity|]. cbn [score tier tier_label].
  split; [|split; reflexivity].
  apply trunc_bounds; [exact Q6|]. change (inject_Z 100) with 100%Q. lra.
Qed.

(** X10. On repositories whose composite scores lie in [[0,100]],
    [compute_hiring_readiness] returns a result without raising, its score
    lies in [[0,100]], its tier is the one the bounds 85, 70, 55 and 40
    assign to the score, and its tier label is the table entry of the
    tier. *)
Theorem hiring_readiness_range (profile_data : ProfileData) :
  composites_in_range (repositories profile_data) ->
  exists h, compute_hiring_readiness profile_data = Ok h /\
            0 <= score h <= 100 /\
            tier h = tier_of (score h) /\
            tier_label h = get_tier_label (tier h).
Proof. exact (readiness_total_range profile_data). Qed.

Lemma hiring_readiness_single_repository :
  composites_in_range [sample_analysis (Some "Python") None []] /\
  exists h,
    compute_hiring_readiness
      (mkProfile "u" "https://github.com/u" [sample_analysis (Some "Python") None []])
    = Ok h /\
    0 <= score h <= 100 /\ tier h = tier_of (score h) /\
    tier_label h = get_tier_label (tier h).
Proof.
  assert (H : composites_in_range [sample_analysis (Some "Python") None []]).
  { repeat constructor; simpl; lia. }
  split; [exact H|].
  exact (hiring_readiness_range
           (mkProfile "u" "https://github.com/u" [sample_analysis (Some "Python") None []]) H).
Defined.
End ReadinessFacts.

(** ** Role fit, languages and the best three repositories *)

Module RoleFacts.
Import Float64 Float64Facts Py PyFacts Analyzer Scoring Spec Cover.
Import ComplexityFacts ScoringFacts ReadinessFacts.

Lemma ml_loop_nonneg repos acc :
  0 <= acc -> exists n, for_each ml_step acc repos = Ok n /\ 0 <= n.
Proof.
  revert acc. induction repos as [|r repos IH]; intros acc Ha; [now exists acc|].
  cbn [for_each]. unfold ml_step at 1.
  destruct (keyword_hit_total ml_keywords (description r)) as (hit & ->).
  cbn [bind]. apply IH.
  destruct hit, (language_is r "Jupyter Notebook" || language_is r "Python"); lia.
Qed.

Lemma py_int_inv_nonneg k acc :
  loop_inv k acc -> exists n, py_int acc = Ok n /\ 0 <= n.
Proof.
  destruct acc as [n|[q| | |]]; cbn [loop_inv]; intros H; try contradiction.
  - exists n. split; [reflexivity|lia].
  - exists (trunc q). split; [reflexivity|].
    rewrite trunc_nonneg by apply H. exact (Qfloor_resp_le 0 q (proj1 H)).
Qed.

Lemma role_fit_total_range profile_data :
  repositories profile_data <> [] ->
  role_inputs_in_range (repositories profile_data) ->
  exists roles, compute_role_fit profile_data = Ok roles /\
    Forall (fun role => 0 <= fit_score role <= 100 /\
                        fit_label role = get_fit_label (fit_score role))
           [ml_engineer roles; backend_engineer roles; sre roles].
Proof.
  intros Hne Hr. unfold compute_role_fit.
  destruct (repositories profile_data) as [|r0 repos] eqn:E; [contradiction|].
  destruct (ml_loop_nonneg (r0 :: repos) 0) as (ml & -> & Hml); [lia|]. cbn [bind].
  destruct (loop_total be_step
              (fun r => 0 <= code_structure (score_breakdown r) <= 100)
              be_step_total (r0 :: repos) (PyInt 0)) as (be & -> & Ibe).
  { cbn [loop_inv]. lia. }
  { eapply Forall_impl; [|exact Hr]. intros a [Ha _]. exact Ha. }
  cbn [bind]. destruct (py_int_inv_nonneg 0 be Ibe) as (bi & -> & Hbi). cbn [bind].
  destruct (loop_total sre_step
              (fun r => 0 <= deployability (score_breakdown r) <= 100)
              sre_step_total (r0 :: repos) (PyInt 0)) as (sr & -> & Isr).
  { cbn [loop_inv]. lia. }
  { eapply Forall_impl; [|exact Hr]. intros a [_ Ha]. exact Ha. }
  cbn [bind]. destruct (py_int_inv_nonneg 0 sr Isr) as (si & -> & Hsi). cbn [bind].
  eexists. split; [reflexivity|].
  cbn [ml_engineer backend_engineer sre].
  repeat constructor; cbn [fit_score fit_label]; lia.
Qed.

(** X11. On a non-empty list of repositories whose [code_structure] and
    [deployability] lie in [[0,100]], [compute_role_fit] returns three
    scores in [[0,100]], each labelled by [get_fit_label] of its score. *)
Theorem role_fit_scores_in_range (profile_data : ProfileData) :
  repositories profile_data <> [] ->
  role_inputs_in_range (repositories profile_data) ->
  exists roles, compute_role_fit profile_data = Ok roles /\
    Forall (fun role => 0 <= fit_score role <= 100 /\
                        fit_label role = get_fit_label (fit_score role))
           [ml_engineer roles; backend_engineer roles; sre roles].
Proof. exact (role_fit_total_range profile_data). Qed.

Lemma role_fit_single_repository :
  (repositories
     (mkProfile "u" "https://github.com/u" [sample_analysis (Some "Go") (Some "REST api") []])
   <> [] /\
   role_inputs_in_range [sample_analysis (Some "Go") (Some "REST api") []]) /\
  exists roles,
    compute_role_fit
      (mkProfile "u" "https://github.com/u" [sample_analysis (Some "Go") (Some "REST api") []])
    = Ok roles /\
    Forall (fun role => 0 <= fit_score role <= 100 /\
                        fit_label role = get_fit_label (fit_score role))
           [ml_engineer roles; backend_engineer roles; sre roles].
Proof.
  assert (H1 : repositories
                 (mkProfile "u" "https://github.com/u"
                    [sample_analysis (Some "Go") (Some "REST api") []]) <> [])
    by discriminate.
  assert (H2 : role_inputs_in_range [sample_analysis (Some "Go") (Some "REST api") []]).
  { repeat constructor; simpl; lia. }
  split; [split; assumption|].
  exact (role_fit_scores_in_range
           (mkProfile "u" "https://github.com/u"
              [sample_analysis (Some "Go") (Some "REST api") []]) H1 H2).
Defined.

Lemma load_languages_fold repos acc :
  NoDup acc ->
  let s := fold_left
    (fun s r => match language r with
                | Some l => if truthy (Some l) then set_add string_dec l s else s
                | None => s
                end) repos acc in
  NoDup s /\
  forall l, In l s <-> In l acc \/
                       (l <> EmptyString /\ exists r, In r repos /\ language r = Some l).
Proof.
  revert acc. induction repos as [|r repos IH]; intros acc Hacc; cbn [fold_left].
  - split; [exact Hacc|]. intros l. split; [auto|]. intros [H|(_ & r & [] & _)]. exact H.
  - set (acc' := match language r with
                 | Some l => if truthy (Some l) then set_add string_dec l acc else acc
                 | None => acc
                 end).
    assert (Hacc' : NoDup acc').
    { subst acc'. destruct (language r) as [l|]; [|exact Hacc].
      destruct (truthy (Some l)); [now apply set_add_nodup|exact Hacc]. }
    assert (Hin : forall l, In l acc' <-> In l acc \/ (l <> EmptyString /\ language r = Some l)).
    { intros l. subst acc'. destruct (language r) as [l0|] eqn:El.
      - destruct l0 as [|c l0]; cbn [truthy].
        + split; [auto|]. intros [H|[Hn H]]; [exact H|]. injection H as <-. contradiction.
        + rewrite set_add_iff. split.
          * intros [->|H]; [right; split; [discriminate|reflexivity]|now left].
          * intros [H|[_ H]]; [now right|]. injection H as <-. now left.
      - split; [auto|]. intros [H|[_ H]]; [exact H|discriminate]. }
    destruct (IH acc' Hacc') as [Hnd Hiff]. split; [exact Hnd|].
    intros l. rewrite Hiff, Hin. split.
    + intros [[H|[Hn H]]|(Hn & r' & Hr' & H)]; auto.
      * right. split; [exact Hn|]. exists r. split; [now left|exact H].
      * right. split; [exact Hn|]. exists r'. split; [now right|exact H].
    + intros [H|(Hn & r' & [<-|Hr'] & H)]; auto.
      right. split; [exact Hn|]. exists r'. auto.
Qed.

(** X12. [load_languages] returns each non-empty language of the
    repositories exactly once and nothing else: missing and empty languages
    are dropped, and there are at most as many languages as repositories. *)
Theorem load_languages_is_set (repos : list RepositoryAnalysis) :
  NoDup (load_languages repos) /\
  (forall l, In l (load_languages repos)
             <-> l <> EmptyString /\ exists r, In r repos /\ language r = Some l) /\
  len (load_languages repos) <= len repos.
Proof.
  destruct (load_languages_fold repos [] (NoDup_nil _)) as [Hnd Hiff].
  fold (load_languages repos) in Hnd, Hiff.
  split; [exact Hnd|]. split.
  - intros l. rewrite Hiff. cbn. tauto.
  - unfold len. apply Nat2Z.inj_le.
    assert (Hincl : incl (load_languages repos)
                         (flat_map (fun r => match language r with
                                             | Some l => [l]
                                             | None => []
                                             end) repos)).
    { intros l Hl. apply Hiff in Hl as [[]|(_ & r & Hr & El)].
      apply in_flat_map. exists r. split; [exact Hr|]. rewrite El. now left. }
    apply (NoDup_incl_length Hnd) in Hincl.
    eapply Nat.le_trans; [exact Hincl|].
    clear. induction repos as [|r repos IH]; [apply Nat.le_refl|].
    cbn [flat_map]. rewrite length_app. cbn [List.length].
    destruct (language r); cbn [List.length]; lia.
Qed.

Lemma insert_desc_perm x l : Permutation (insert_desc x l) (x :: l).
Proof.
  induction l as [|y l IH]; cbn [insert_desc]; [reflexivity|].
  destruct (y <=? x)%Z; [reflexivity|].
  rewrite IH. apply perm_swap.
Qed.

Lemma sorted_desc_perm l : Permutation (sorted_desc l) l.
Proof.
  induction l as [|x l IH]; [reflexivity|].
  change (sorted_desc (x :: l)) with (insert_desc x (sorted_desc l)).
  rewrite insert_desc_perm. now constructor.
Qed.

Lemma insert_desc_sorted x l :
  StronglySorted Z.ge l -> StronglySorted Z.ge (insert_desc x l).
Proof.
  induction 1 as [|y l Hl IH Hy]; cbn [insert_desc]; [repeat constructor|].
  destruct (Z.leb_spec y x).
  - constructor; [now constructor|]. constructor; [lia|].
    eapply Forall_impl; [|exact Hy]. intros a Ha; cbn in *. lia.
  - constructor; [exact IH|].
    eapply Permutation_Forall; [symmetry; apply insert_desc_perm|].
    constructor; [lia|exact Hy].
Qed.

Lemma sorted_desc_sorted l : StronglySorted Z.ge (sorted_desc l).
Proof.
  induction l as [|x l IH]; [constructor|].
  change (sorted_desc (x :: l)) with (insert_desc x (sorted_desc l)).
  now apply insert_desc_sorted.
Qed.

Lemma sorted_split n l :
  StronglySorted Z.ge l ->
  forall x y, In x (firstn n l) -> In y (skipn n l) -> y <= x.
Proof.
  intros Hs. revert n. induction Hs as [|a l Hl IH Ha]; intros n x y Hx Hy.
  - destruct n; cbn in Hx; contradiction.
  - destruct n as [|n]; [cbn in Hx; contradiction|].
    cbn [firstn skipn] in Hx, Hy. destruct Hx as [<-|Hx].
    + rewrite Forall_forall in Ha.
      assert (In y l) by (rewrite <- (firstn_skipn n l); apply in_or_app; now right).
      specialize (Ha y H). lia.
    + eapply IH; eassumption.
Qed.

(** X13. The [best_3] of the readiness score, [sorted(repo_scores,
    reverse=True)[:3]], holds min(3, n) of the n scores, and every score
    left out is at most every score kept; kept and left-out scores together
    are the scores of the profile, with their repetitions. *)
Theorem best_three_are_largest (scores : list Z) :
  let best_3 := firstn 3 (sorted_desc scores) in
  let rest := skipn 3 (sorted_desc scores) in
  Permutation (best_3 ++ rest) scores /\
  List.length best_3 = Nat.min 3 (List.length scores) /\
  (forall x y, In x best_3 -> In y rest -> y <= x).
Proof.
  cbv zeta. split; [|split].
  - rewrite firstn_skipn. apply sorted_desc_perm.
  - rewrite length_firstn, sorted_desc_length. reflexivity.
  - apply sorted_split, sorted_desc_sorted.
Qed.
End RoleFacts.

(** ** The highlights of the report *)

Module ReportFacts.
Import Py Analyzer Scoring Spec Report RoleFacts.

Lemma insert_by_score_scores r l :
  map composite_score (insert_by_score r l) = insert_desc (composite_score r) (map composite_score l).
Proof.
  induction l as [|y l IH]; cbn [insert_by_score map insert_desc]; [reflexivity|].
  destruct (composite_score y <=? composite_score r)%Z; cbn [map]; [reflexivity|].
  now rewrite IH.
Qed.

Lemma sorted_repos_scores repos :
  map composite_score (sorted_repos repos) = sorted_desc (map composite_score repos).
Proof.
  induction repos as [|r repos IH]; [reflexivity|].
  change (sorted_repos (r :: repos)) with (insert_by_score r (sorted_repos repos)).
  rewrite insert_by_score_scores, IH. reflexivity.
Qed.

Lemma insert_by_score_perm r l : Permutation (insert_by_score r l) (r :: l).
Proof.
  induction l as [|y l IH]; cbn [insert_by_score]; [reflexivity|].
  destruct (composite_score y <=? composite_score r)%Z; [reflexivity|].
  rewrite IH. apply perm_swap.
Qed.

Lemma sorted_repos_perm repos : Permutation (sorted_repos repos) repos.
Proof.
  induction repos as [|r repos IH]; [reflexivity|].
  change (sorted_repos (r :: repos)) with (insert_by_score r (sorted_repos repos)).
  rewrite insert_by_score_perm. now constructor.
Qed.

(** The sort is stable: repositories of one score stay in profile order. *)
Lemma insert_by_score_stable v r l :
  filter (fun x => (composite_score x =? v)%Z) (insert_by_score r l)
  = filter (fun x => (composite_score x =? v)%Z) (r :: l).
Proof.
  induction l as [|y l IH]; cbn [insert_by_score]; [reflexivity|].
  destruct (Z.leb_spec (composite_score y) (composite_score r)); [reflexivity|].
  cbn [filter] in IH |- *. rewrite IH.
  destruct (Z.eqb_spec (composite_score y) v), (Z.eqb_spec (composite_score r) v);
    try reflexivity.
  lia.
Qed.

Lemma sorted_repos_stable v repos :
  filter (fun x => (composite_score x =? v)%Z) (sorted_repos repos)
  = filter (fun x => (composite_score x =? v)%Z) repos.
Proof.
  induction repos as [|r repos IH]; [reflexivity|].
  change (sorted_repos (r :: repos)) with (insert_by_score r (sorted_repos repos)).
  rewrite insert_by_score_stable. cbn [filter]. now rewrite IH.
Qed.

(** X14. The three highlighted repositories of the report are taken from
    the repositories of the profile, their scores are the [best_3] of the
    readiness score, no repository left out scores higher than a
    highlighted one, and repositories of equal score are ranked in profile
    order. *)
Theorem report_highlights_are_best_three (repos : list RepositoryAnalysis) :
  let rest := skipn 3 (sorted_repos repos) in
  map composite_score (top_repos repos) = firstn 3 (sorted_desc (map composite_score repos)) /\
  Permutation (top_repos repos ++ rest) repos /\
  (forall r r', In r (top_repos repos) -> In r' rest ->
                composite_score r' <= composite_score r) /\
  (forall v, filter (fun x => (composite_score x =? v)%Z) (sorted_repos repos)
             = filter (fun x => (composite_score x =? v)%Z) repos).
Proof.
  cbv zeta. unfold top_repos. split; [|split; [|split]]; [| | |intros v; apply sorted_repos_stable].
  - rewrite <- firstn_map, sorted_repos_scores. reflexivity.
  - rewrite firstn_skipn. apply sorted_repos_perm.
  - intros r r' Hr Hr'.
    apply (sorted_split 3 (sorted_desc (map composite_score repos)) (sorted_desc_sorted _)).
    + rewrite <- sorted_repos_scores, firstn_map. now apply in_map.
    + rewrite <- sorted_repos_scores, skipn_map. now apply in_map.
Qed.
End ReportFacts.

(** ** The analysis of one repository *)

Module RepoRangeFacts.
Import Float64 Float64Facts Py PyFacts Analyzer Scoring Spec Cover.
Import CompositeFacts ComplexityFacts ComplexityBound ReadmeFacts.
Import TestingFacts HeuristicFacts TestingCiFacts.

Lemma analyze_repo_isdir temp_dir clone_repo llm cc_visit repo t :
  clone_repo (clone_url repo) (join temp_dir (name repo)) = Some t ->
  readme_is_directory t = true ->
  analyze_repo temp_dir clone_repo llm cc_visit repo = Raise IsADirectoryError.
Proof.
  intros Hc Hd. unfold analyze_repo. rewrite Hc.
  destruct (_analyze_structure _ t _) as [ss sn].
  unfold readme_is_directory in Hd. unfold _analyze_readme.
  destruct (find_readme t) as [[text|ch]|]; try discriminate. reflexivity.
Qed.

Lemma analyze_repo_cloned temp_dir clone_repo llm cc_visit repo t :
  counts_nonneg repo ->
  clone_repo (clone_url repo) (join temp_dir (name repo)) = Some t ->
  readme_is_directory t = false ->
  provider_in_range llm -> radon_like cc_visit ->
  exists a, analyze_repo temp_dir clone_repo llm cc_visit repo = Ok a /\
    repo_name a = name repo /\
    fields_between 0 126 (score_breakdown a) /\
    30 <= code_structure (score_breakdown a) <= 80 /\
    testing_ci (score_breakdown a) <= 80 /\
    readme (score_breakdown a) <= 100 /\
    project_value (score_breakdown a) <= 100 /\
    deployability (score_breakdown a) <= 100 /\
    security (score_breakdown a) = 80 /\
    12 <= composite_score a <= 91 /\
    rating a = _get_rating_label (composite_score a) /\
    critical_flags a = [].
Proof.
  intros [Hs Hf] Hc Hd Hp Hcc. unfold analyze_repo. rewrite Hc.
  set (path := join temp_dir (name repo)).
  pose proof (structure_score_cases path t (repo_language repo)) as Hst.
  destruct (_analyze_structure path t (repo_language repo)) as [ss sn]. cbn [fst] in Hst.
  destruct (analyze_readme_range llm path t Hp Hd) as (rs & rn & -> & Hrs).
  cbn [bind].
  pose proof (testing_score_range path t) as Hts.
  destruct (_analyze_testing path t) as [ts tn]. cbn [fst] in Hts.
  pose proof (deploy_score_range path t) as (Hsec & Hdep).
  destruct (_analyze_sec_deploy path t) as [sec dep]. cbn [fst snd] in Hsec, Hdep.
  assert (Hcx : 0 <= (match repo_language repo with
                      | Some "Python" => _analyze_complexity_python cc_visit path t
                      | _ => 50
                      end) <= 126).
  { pose proof (complexity_python_bounded cc_visit path t Hcc).
    repeat match goal with
           | |- context [match ?x with _ => _ end] => destruct x; try lia
           end. }
  set (cx := match repo_language repo with Some "Python" => _ | _ => 50 end) in *.
  clearbody cx.
  set (pv := Z.min 100 (stargazers_count repo * 2 + forks_count repo * 5)).
  assert (Hpv : 0 <= pv <= 100) by (subst pv; lia).
  destruct (if (70 <? rs)%Z && is_empty_notes rn then _ else _) as [st1 wk1].
  destruct (if (0 <? ts)%Z then _ else _) as [st2 wk2].
  cbn [bind].
  simpl in Hst.
  destruct (composite_exact_relation (mkBreakdown ss ts rs pv dep cx sec)) as (c & -> & Hcb & _).
  { unfold fields_between.
    cbn [code_structure testing_ci readme project_value deployability complexity security].
    lia. }
  cbn [bind]. eexists. split; [reflexivity|].
  cbn [score_breakdown composite_score rating critical_flags repo_name].
  unfold fields_between.
  cbn [code_structure testing_ci readme project_value deployability complexity security].
  assert (Ht : 1310 <= weighted_total (mkBreakdown ss ts rs pv dep cx sec) <= 9168).
  { unfold weighted_total.
    cbn [code_structure testing_ci readme project_value deployability complexity security].
    lia. }
  assert (13 <= weighted_total (mkBreakdown ss ts rs pv dep cx sec) / 100 < 92).
  { split; [apply Z.div_le_lower_bound; lia|apply Z.div_lt_upper_bound; lia]. }
  repeat split; try lia.
Qed.

Lemma analyze_repo_uncloned temp_dir clone_repo llm cc_visit repo :
  counts_nonneg repo ->
  clone_repo (clone_url repo) (join temp_dir (name repo)) = None ->
  exists a, analyze_repo temp_dir clone_repo llm cc_visit repo = Ok a /\
    repo_name a = name repo /\
    fields_between 0 100 (score_breakdown a) /\
    0 <= composite_score a <= 15.
Proof.
  intros [Hs Hf] Hclone. unfold analyze_repo. rewrite Hclone. cbn [bind].
  set (pv := Z.min 100 (stargazers_count repo * 2 + forks_count repo * 5)).
  assert (Hpv : 0 <= pv <= 100) by (subst pv; lia).
  destruct (composite_exact_relation (mkBreakdown 0 0 0 pv 0 0 0)) as (c & Hc & Hb & Hm).
  { unfold fields_between.
    cbn [code_structure testing_ci readme project_value deployability complexity security].
    lia. }
  cbn [code_structure testing_ci readme deployability complexity security].
  rewrite Hc. cbn [bind]. eexists. split; [reflexivity|].
  cbn [score_breakdown composite_score repo_name]. unfold fields_between.
  cbn [code_structure testing_ci readme project_value deployability complexity security].
  assert (Ht : weighted_total (mkBreakdown 0 0 0 pv 0 0 0) = 15 * pv).
  { unfold weighted_total.
    cbn [code_structure testing_ci readme project_value deployability complexity security].
    lia. }
  rewrite Ht in Hb, Hm.
  assert (0 <= 15 * pv / 100 <= 15).
  { split; [apply Z.div_pos; lia|apply Z.div_le_upper_bound; lia]. }
  assert (0 <= c).
  { destruct (Z.eq_dec ((15 * pv) mod 100) 0) as [E|E]; [|specialize (Hm E); lia].
    destruct (Z.eq_dec pv 0) as [E0|E0].
    - rewrite E0 in Hc. vm_compute in Hc. apply Ok_inj in Hc. lia.
    - assert (1 <= 15 * pv / 100); [|lia].
      pose proof (Z.div_mod (15 * pv) 100 ltac:(lia)). lia. }
  repeat split; lia.
Qed.

(** X15. A clone whose first README entry is a directory makes
    [analyze_repo] raise [IsADirectoryError]: the [open] of
    [_analyze_readme] is outside every [try]. *)
Theorem analyze_repo_readme_directory
    (temp_dir : string) (clone_repo : string -> string -> option tree)
    (llm : option (string -> option LlmReadme))
    (cc_visit : string -> option (list Z)) (repo : Repo) (t : tree) :
  clone_repo (clone_url repo) (join temp_dir (name repo)) = Some t ->
  readme_is_directory t = true ->
  analyze_repo temp_dir clone_repo llm cc_visit repo = Raise IsADirectoryError.
Proof. exact (analyze_repo_isdir temp_dir clone_repo llm cc_visit repo t). Qed.

Lemma analyze_repo_readme_folder :
  (clone_readme_folder (clone_url python_repo) (join sample_tmp (name python_repo))
   = Some readme_folder /\
   readme_is_directory readme_folder = true) /\
  analyze_repo sample_tmp clone_readme_folder None one_simple_block python_repo
  = Raise IsADirectoryError.
Proof.
  assert (H1 : clone_readme_folder (clone_url python_repo)
                 (join sample_tmp (name python_repo)) = Some readme_folder) by reflexivity.
  assert (H2 : readme_is_directory readme_folder = true) by reflexivity.
  split; [split; assumption|].
  exact (analyze_repo_readme_directory sample_tmp clone_readme_folder None one_simple_block
           python_repo readme_folder H1 H2).
Defined.

(** X16. Every analysis that [analyze_repo] returns for a repository with
    non-negative counters whose clone succeeded, with a provider that keeps
    to [[0,100]] and radon complexities of at least 1, has [code_structure]
    in [[30,80]], [testing_ci] in [[0,80]], [readme], [project_value] and
    [deployability] in [[0,100]], [complexity] in [[0,126]], [security] 80,
    a composite score between 12 and 91 with its rating, and no critical
    flag. *)
Theorem analyze_repo_ranges
    (temp_dir : string) (clone_repo : string -> string -> option tree)
    (llm : option (string -> option LlmReadme))
    (cc_visit : string -> option (list Z)) (repo : Repo) (t : tree)
    (a : RepositoryAnalysis) :
  0 <= stargazers_count repo -> 0 <= forks_count repo ->
  clone_repo (clone_url repo) (join temp_dir (name repo)) = Some t ->
  provider_in_range llm -> radon_like cc_visit ->
  analyze_repo temp_dir clone_repo llm cc_visit repo = Ok a ->
  let b := score_breakdown a in
  30 <= code_structure b <= 80 /\ 0 <= testing_ci b <= 80 /\
  0 <= readme b <= 100 /\ 0 <= project_value b <= 100 /\
  0 <= deployability b <= 100 /\ 0 <= complexity b <= 126 /\
  security b = 80 /\
  12 <= composite_score a <= 91 /\
  rating a = _get_rating_label (composite_score a) /\
  critical_flags a = [].
Proof.
  intros Hs Hf Hc Hp Hcc Ha. cbv zeta.
  destruct (readme_is_directory t) eqn:Hd.
  { rewrite (analyze_repo_isdir temp_dir clone_repo llm cc_visit repo t Hc Hd) in Ha.
    discriminate Ha. }
  destruct (analyze_repo_cloned temp_dir clone_repo llm cc_visit repo t
              (conj Hs Hf) Hc Hd Hp Hcc)
    as (a' & Ha' & _ & Hb & H1 & H2 & H3 & H4 & H5 & H6 & H7 & H8 & H9).
  rewrite Ha in Ha'. apply Ok_inj in Ha'. subst a'.
  destruct Hb as (B1 & B2 & B3 & B4 & B5 & B6 & B7).
  repeat split; try lia; try assumption.
Qed.

Lemma analyze_repo_ranges_plain_python :
  (0 <= stargazers_count python_repo /\ 0 <= forks_count python_repo /\
   clone_plain (clone_url python_repo) (join sample_tmp (name python_repo))
   = Some plain_python /\
   provider_in_range None /\ radon_like one_simple_block) /\
  exists a,
    analyze_repo sample_tmp clone_plain None one_simple_block python_repo = Ok a /\
    let b := score_breakdown a in
    30 <= code_structure b <= 80 /\ 0 <= testing_ci b <= 80 /\
    0 <= readme b <= 100 /\ 0 <= project_value b <= 100 /\
    0 <= deployability b <= 100 /\ 0 <= complexity b <= 126 /\
    security b = 80 /\
    12 <= composite_score a <= 91 /\
    rating a = _get_rating_label (composite_score a) /\
    critical_flags a = [].
Proof.
  assert (H1 : 0 <= stargazers_count python_repo) by (simpl; lia).
  assert (H2 : 0 <= forks_count python_repo) by (simpl; lia).
  assert (H3 : clone_plain (clone_url python_repo) (join sample_tmp (name python_repo))
               = Some plain_python) by reflexivity.
  assert (H4 : provider_in_range None) by exact I.
  assert (H5 : radon_like one_simple_block) by (apply radon_like_blocks_of; lia).
  assert (H6 : exists a,
             analyze_repo sample_tmp clone_plain None one_simple_block python_repo = Ok a)
    by (eexists; vm_compute; reflexivity).
  destruct H6 as (a & H6).
  split; [split; [exact H1|split; [exact H2|split; [exact H3|split; [exact H4|exact H5]]]]|].
  exists a. split; [exact H6|].
  exact (analyze_repo_ranges sample_tmp clone_plain None one_simple_block python_repo
           plain_python a H1 H2 H3 H4 H5 H6).
Defined.
End RepoRangeFacts.

(** ** Monotonicity of the composite score *)

Module CompositeMonotone.
Import Float64 Float64Facts Py PyFacts Analyzer Scoring Spec Cover.
Import CompositeFacts ComplexityFacts ComplexityBound.

Lemma py_mul_int_float_rnd n q :
  0 <= n <= 1000 -> (0 <= q <= 1)%Q ->
  py_mul (PyInt n) (PyFloat (Fin q)) = Ok (PyFloat (Fin (rnd (inject_Z n * q)))) /\
  (inject_Z n * q - eps <= rnd (inject_Z n * q) <= inject_Z n * q + eps)%Q /\
  (0 <= rnd (inject_Z n * q))%Q.
Proof.
  intros Hn Hq. unfold py_mul, to_float, bind.
  rewrite float_of_int_exact by lia. cbn [fmul].
  pose proof (inject_Z_bounds n 0 1000 Hn) as Hb.
  change (inject_Z 0) with 0%Q in Hb. change (inject_Z 1000) with 1000%Q in Hb.
  pose proof bound_val as HB.
  destruct (round64_near_nonneg (inject_Z n * q)) as (p & Hp & Hnear & Hpos).
  { split; [|rewrite HB]; nra. }
  pose proof (round64_fin_inv _ _ Hp) as <-. rewrite Hp. auto.
Qed.

Lemma py_add_float_rnd a b :
  (0 <= a)%Q -> (0 <= b)%Q -> (a + b <= bound)%Q ->
  py_add (PyFloat (Fin a)) (PyFloat (Fin b)) = Ok (PyFloat (Fin (rnd (a + b)))) /\
  (a + b - eps <= rnd (a + b) <= a + b + eps)%Q /\ (0 <= rnd (a + b))%Q.
Proof.
  intros Ha Hb Hab. unfold py_add, to_float, bind. cbn [fadd].
  destruct (round64_near_nonneg (a + b)) as (s & Hs & Hnear & Hpos).
  { split; [lra | exact Hab]. }
  pose proof (round64_fin_inv _ _ Hs) as <-. rewrite Hs. auto.
Qed.

Lemma composite_as_roundings b :
  fields_between 0 1000 b ->
  _calculate_composite b = Ok (trunc (composite_double b)) /\
  (0 <= composite_double b)%Q.
Proof.
  intros (H1 & H2 & H3 & H4 & H5 & H6 & H7).
  unfold _calculate_composite, composite_double. cbv zeta.
  rewrite literal_025, literal_020, literal_015, literal_010, literal_008, literal_007.
  pose proof bound_val as HB. pose proof eps_val as HE.
  pose proof (inject_Z_bounds _ _ _ H1) as B1. pose proof (inject_Z_bounds _ _ _ H2) as B2.
  pose proof (inject_Z_bounds _ _ _ H3) as B3. pose proof (inject_Z_bounds _ _ _ H4) as B4.
  pose proof (inject_Z_bounds _ _ _ H5) as B5. pose proof (inject_Z_bounds _ _ _ H6) as B6.
  pose proof (inject_Z_bounds _ _ _ H7) as B7.
  change (inject_Z 0) with 0%Q in *. change (inject_Z 1000) with 1000%Q in *.
  destruct (py_mul_int_float_rnd (code_structure b) w025 H1) as (-> & N1 & P1);
    [unfold w025; split; lra|].
  destruct (py_mul_int_float_rnd (testing_ci b) w020 H2) as (-> & N2 & P2);
    [unfold w020; split; lra|].
  cbn [bind].
  set (t1 := rnd (inject_Z (code_structure b) * w025)) in *.
  set (t2 := rnd (inject_Z (testing_ci b) * w020)) in *.
  unfold w025, w020 in N1, N2.
  destruct (py_add_float_rnd t1 t2 P1 P2) as (-> & M2 & Q2); [lra|].
  set (s2 := rnd (t1 + t2)) in *.
  destruct (py_mul_int_float_rnd (readme b) w015 H3) as (-> & N3 & P3);
    [unfold w015; split; lra|].
  cbn [bind]. set (t3 := rnd (inject_Z (readme b) * w015)) in *. unfold w015 in N3.
  destruct (py_add_float_rnd s2 t3 Q2 P3) as (-> & M3 & Q3); [lra|].
  set (s3 := rnd (s2 + t3)) in *.
  destruct (py_mul_int_float_rnd (project_value b) w015 H4) as (-> & N4 & P4);
    [unfold w015; split; lra|].
  cbn [bind]. set (t4 := rnd (inject_Z (project_value b) * w015)) in *. unfold w015 in N4.
  destruct (py_add_float_rnd s3 t4 Q3 P4) as (-> & M4 & Q4); [lra|].
  set (s4 := rnd (s3 + t4)) in *.
  destruct (py_mul_int_float_rnd (deployability b) w010 H5) as (-> & N5 & P5);
    [unfold w010; split; lra|].
  cbn [bind]. set (t5 := rnd (inject_Z (deployability b) * w010)) in *. unfold w010 in N5.
  destruct (py_add_float_rnd s4 t5 Q4 P5) as (-> & M5 & Q5); [lra|].
  set (s5 := rnd (s4 + t5)) in *.
  destruct (py_mul_int_float_rnd (complexity b) w008 H6) as (-> & N6 & P6);
    [unfold w008; split; lra|].
  cbn [bind]. set (t6 := rnd (inject_Z (complexity b) * w008)) in *. unfold w008 in N6.
  destruct (py_add_float_rnd s5 t6 Q5 P6) as (-> & M6 & Q6); [lra|].
  set (s6 := rnd (s5 + t6)) in *.
  destruct (py_mul_int_float_rnd (security b) w007 H7) as (-> & N7 & P7);
    [unfold w007; split; lra|].
  cbn [bind]. set (t7 := rnd (inject_Z (security b) * w007)) in *. unfold w007 in N7.
  destruct (py_add_float_rnd s6 t7 Q6 P7) as (-> & M7 & Q7); [lra|].
  cbn [bind py_int]. split; [reflexivity|exact Q7].
Qed.

Lemma weight_nonneg :
  (0 <= w025 /\ 0 <= w020 /\ 0 <= w015 /\ 0 <= w010 /\ 0 <= w008 /\ 0 <= w007)%Q.
Proof. repeat split; discriminate. Qed.

Lemma term_mono n n' w :
  n <= n' -> (0 <= w)%Q -> (rnd (inject_Z n * w) <= rnd (inject_Z n' * w))%Q.
Proof.
  intros Hn Hw. apply rnd_mono. apply Qmult_le_compat_r; [|exact Hw].
  now rewrite <- Zle_Qle.
Qed.

Lemma sum_mono a a' b b' :
  (a <= a')%Q -> (b <= b')%Q -> (rnd (a + b) <= rnd (a' + b'))%Q.
Proof. intros Ha Hb. apply rnd_mono. now apply Qplus_le_compat. Qed.

Lemma composite_double_mono b b' :
  breakdown_le b b' -> (composite_double b <= composite_double b')%Q.
Proof.
  intros (H1 & H2 & H3 & H4 & H5 & H6 & H7).
  destruct weight_nonneg as (W1 & W2 & W3 & W4 & W5 & W6).
  unfold composite_double. cbv zeta.
  do 5 (apply sum_mono; [|apply term_mono; assumption]).
  apply sum_mono; apply term_mono; assumption.
Qed.

(** X17. The composite score is monotone: raising sub-scores, all within
    [[0,1000]], never lowers it, the rounding of the double sum and the
    truncation to an integer included. *)
Theorem composite_monotone (b b' : ScoreBreakdown) :
  fields_between 0 1000 b -> fields_between 0 1000 b' -> breakdown_le b b' ->
  exists c c', _calculate_composite b = Ok c /\ _calculate_composite b' = Ok c' /\
               c <= c'.
Proof.
  intros Hb Hb' Hle.
  destruct (composite_as_roundings b Hb) as [E P].
  destruct (composite_as_roundings b' Hb') as [E' P'].
  exists (trunc (composite_double b)), (trunc (composite_double b')).
  split; [exact E|]. split; [exact E'|].
  rewrite !trunc_nonneg by assumption.
  apply Qfloor_resp_le, composite_double_mono, Hle.
Qed.

(** The example breakdown against the same one with a perfect README. *)
Lemma composite_monotone_better_readme :
  (fields_between 0 1000 example_breakdown /\
   fields_between 0 1000 (mkBreakdown 80 100 100 40 20 50 80) /\
   breakdown_le example_breakdown (mkBreakdown 80 100 100 40 20 50 80)) /\
  exists c c', _calculate_composite example_breakdown = Ok c /\
               _calculate_composite (mkBreakdown 80 100 100 40 20 50 80) = Ok c' /\
               c <= c'.
Proof.
  assert (H1 : fields_between 0 1000 example_breakdown)
    by (unfold fields_between; simpl; lia).
  assert (H2 : fields_between 0 1000 (mkBreakdown 80 100 100 40 20 50 80))
    by (unfold fields_between; simpl; lia).
  assert (H3 : breakdown_le example_breakdown (mkBreakdown 80 100 100 40 20 50 80))
    by (unfold breakdown_le; simpl; lia).
  split; [split; [exact H1|split; [exact H2|exact H3]]|].
  exact (composite_monotone example_breakdown (mkBreakdown 80 100 100 40 20 50 80) H1 H2 H3).
Defined.
End CompositeMonotone.

(** ** The profile argument of the command line *)

Module MainFacts.
Import Py Main Cover.

Lemma remove_char_none c s : has_char c (remove_char c s) = false.
Proof.
  induction s as [|a s IH]; [reflexivity|]. cbn [remove_char].
  destruct (Ascii.eqb a c) eqn:E; [exact IH|]. cbn [has_char]. now rewrite E, IH.
Qed.

Lemma remove_char_keeps d c s : has_char d s = false -> has_char d (remove_char c s) = false.
Proof.
  induction s as [|a s IH]; [reflexivity|]. cbn [remove_char has_char].
  intros H. apply orb_false_iff in H as [H1 H2].
  destruct (Ascii.eqb a c); [now apply IH|]. cbn [has_char]. now rewrite H1, IH.
Qed.

Lemma remove_char_id c s : has_char c s = false -> remove_char c s = s.
Proof.
  induction s as [|a s IH]; [reflexivity|]. cbn [remove_char has_char].
  intros H. apply orb_false_iff in H as [H1 H2]. now rewrite H1, IH.
Qed.

Lemma split_nonempty sep s : split sep s <> [].
Proof.
  destruct s as [|a s]; cbn [split]; [discriminate|].
  destruct (Ascii.eqb a sep); [discriminate|]. destruct (split sep s); discriminate.
Qed.

Lemma split_no_sep sep s : Forall (fun p => has_char sep p = false) (split sep s).
Proof.
  induction s as [|a s IH]; cbn [split]; [repeat constructor|].
  destruct (Ascii.eqb a sep) eqn:E; [constructor; [reflexivity|exact IH]|].
  destruct (split sep s) as [|h t]; [repeat constructor; cbn; now rewrite E|].
  inversion IH; subst. constructor; [|assumption]. cbn [has_char]. now rewrite E.
Qed.

Lemma split_id sep s : has_char sep s = false -> split sep s = [s].
Proof.
  induction s as [|a s IH]; [reflexivity|]. cbn [has_char split].
  intros H. apply orb_false_iff in H as [H1 H2]. now rewrite H1, IH.
Qed.

Lemma last_cons_nonempty {A : Type} (x : A) l d : l <> [] -> last (x :: l) d = last l d.
Proof. destruct l; [contradiction|reflexivity]. Qed.

Lemma split_single sep s h : split sep s = [h] -> has_char sep s = false.
Proof.
  revert h. induction s as [|a s IH]; intros h; cbn [split has_char]; [reflexivity|].
  destruct (Ascii.eqb a sep) eqn:E.
  - intros C. injection C as _ C. destruct (split_nonempty _ _ C).
  - destruct (split sep s) as [|h0 t0] eqn:Es; [destruct (split_nonempty _ _ Es)|].
    intros C. injection C as _ ->. cbn [orb]. eapply IH. reflexivity.
Qed.

Lemma last_split_cons sep x s :
  has_char sep s = true ->
  last (split sep (String x s)) EmptyString = last (split sep s) EmptyString.
Proof.
  intros H. cbn [split]. destruct (Ascii.eqb x sep).
  - apply last_cons_nonempty, split_nonempty.
  - destruct (split sep s) as [|h t] eqn:E; [destruct (split_nonempty _ _ E)|].
    destruct t as [|h' t'].
    + apply split_single in E. congruence.
    + reflexivity.
Qed.

Lemma has_char_app_sep sep a b : has_char sep (a ++ String sep b)%string = true.
Proof.
  induction a as [|x a IH]; cbn [String.append has_char].
  - now rewrite Ascii.eqb_refl.
  - rewrite IH. apply orb_true_r.
Qed.

Lemma split_last_app sep a b :
  last (split sep (a ++ String sep b)%string) EmptyString = last (split sep b) EmptyString.
Proof.
  induction a as [|x a IH].
  - cbn [String.append split]. rewrite Ascii.eqb_refl.
    apply last_cons_nonempty, split_nonempty.
  - cbn [String.append]. rewrite last_split_cons by apply has_char_app_sep. exact IH.
Qed.

Lemma rstrip_no_char c u : has_char c u = false -> rstrip c u = u.
Proof.
  induction u as [|x u IH]; [reflexivity|]. cbn [has_char rstrip].
  intros H. apply orb_false_iff in H as [H1 H2]. rewrite (IH H2), H1.
  destruct u; reflexivity.
Qed.

Lemma rstrip_app_keep c a u :
  u <> EmptyString -> rstrip c u = u -> rstrip c (a ++ u)%string = (a ++ u)%string.
Proof.
  intros Hne Hu. induction a as [|x a IH]; [exact Hu|].
  cbn [String.append rstrip]. rewrite IH.
  destruct (a ++ u)%string eqn:E; [|reflexivity].
  destruct a; [cbn in E; contradiction|discriminate].
Qed.

Lemma rstrip_repeat c k : rstrip c (repeat_char c k) = EmptyString.
Proof.
  induction k as [|k IH]; [reflexivity|]. cbn [repeat_char rstrip].
  now rewrite IH, Ascii.eqb_refl.
Qed.

Lemma rstrip_trailing c s k : rstrip c (s ++ repeat_char c k)%string = rstrip c s.
Proof.
  induction s as [|x s IH]; [apply rstrip_repeat|].
  cbn [String.append rstrip]. now rewrite IH.
Qed.

Lemma has_char_app c a b : has_char c (a ++ b)%string = has_char c a || has_char c b.
Proof.
  induction a as [|x a IH]; [reflexivity|]. cbn [String.append has_char].
  now rewrite IH, orb_assoc.
Qed.

Lemma app_assoc_string a b c : ((a ++ b) ++ c)%string = (a ++ (b ++ c))%string.
Proof. induction a as [|x a IH]; [reflexivity|]. cbn. now rewrite IH. Qed.

(** X18. Whatever the [profile] argument, the user name handed to the
    analyzer contains neither a slash nor an at-sign. *)
Theorem username_has_no_separator (raw_input : string) :
  has_char "/" (username_of raw_input) = false /\
  has_char "@" (username_of raw_input) = false.
Proof.
  unfold username_of. split; [|apply remove_char_none].
  apply remove_char_keeps.
  pose proof (split_no_sep "/" (rstrip "/" raw_input)) as F.
  pose proof (split_nonempty "/" (rstrip "/" raw_input)) as N.
  induction F as [|p l Hp Hl IH]; [contradiction|].
  destruct l as [|q l']; [exact Hp|].
  rewrite last_cons_nonempty by discriminate. apply IH. discriminate.
Qed.

(** X19. A user name [u] without slash and at-sign is recovered from the
    bare name, from any profile URL ending in [/u], each with any number of
    trailing slashes, and from the handle [@u]. *)
Theorem username_of_profile_url (u : string) :
  u <> EmptyString -> has_char "/" u = false -> has_char "@" u = false ->
  (forall k, username_of (u ++ repeat_char "/" k) = u) /\
  (forall dir k, username_of (dir ++ "/" ++ u ++ repeat_char "/" k) = u) /\
  username_of ("@" ++ u) = u.
Proof.
  intros Hne Hs Ha.
  assert (Hsplit : last (split "/" u) EmptyString = u) by (now rewrite split_id).
  split; [|split].
  - intros k. unfold username_of.
    rewrite rstrip_trailing, rstrip_no_char by exact Hs.
    rewrite Hsplit. now apply remove_char_id.
  - intros dir k. unfold username_of.
    replace (dir ++ "/" ++ u ++ repeat_char "/" k)%string
      with ((dir ++ "/" ++ u) ++ repeat_char "/" k)%string
      by (rewrite !app_assoc_string; reflexivity).
    rewrite rstrip_trailing.
    replace (dir ++ "/" ++ u)%string with ((dir ++ "/") ++ u)%string
      by (rewrite app_assoc_string; reflexivity).
    rewrite rstrip_app_keep; [|exact Hne|now apply rstrip_no_char].
    rewrite app_assoc_string. cbn [String.append].
    rewrite split_last_app, Hsplit. now apply remove_char_id.
  - unfold username_of.
    assert (Hs' : has_char "/" ("@" ++ u) = false) by (cbn; exact Hs).
    rewrite rstrip_no_char by exact Hs'. rewrite split_id by exact Hs'.
    cbn [last String.append remove_char]. cbn. now apply remove_char_id.
Qed.

(** The two forms of the help text of the command line. *)
Lemma username_of_torvalds :
  ("torvalds" <> EmptyString /\ has_char "/" "torvalds" = false /\
   has_char "@" "torvalds" = false) /\
  username_of "https://github.com/torvalds/" = "torvalds" /\
  username_of "@torvalds" = "torvalds".
Proof.
  assert (H1 : "torvalds" <> EmptyString) by discriminate.
  assert (H2 : has_char "/" "torvalds" = false) by reflexivity.
  assert (H3 : has_char "@" "torvalds" = false) by reflexivity.
  split; [auto|].
  destruct (username_of_profile_url "torvalds" H1 H2 H3) as (_ & Hurl & Hat).
  split; [exact (Hurl "https://github.com" 1%nat)|exact Hat].
Defined.
End MainFacts.

(** ** The profile driver *)

Module ProfileFacts.
Import Float64 Py Analyzer Scoring Spec Profile Cover.
Import ComplexityBound ReadinessFacts RoleFacts RepoRangeFacts.

Lemma analyze_repo_outcome temp_dir clone_repo llm cc_visit repo :
  provider_in_range llm -> radon_like cc_visit -> counts_nonneg repo ->
  if clones_readme_directory temp_dir clone_repo repo
  then analyze_repo temp_dir clone_repo llm cc_visit repo = Raise IsADirectoryError
  else exists a, analyze_repo temp_dir clone_repo llm cc_visit repo = Ok a /\
                 repo_name a = name repo /\ analysis_in_range a.
Proof.
  intros Hp Hcc Hn. unfold clones_readme_directory.
  destruct (clone_repo (clone_url repo) (join temp_dir (name repo))) as [t|] eqn:Hc.
  - destruct (readme_is_directory t) eqn:Hd.
    + exact (analyze_repo_isdir temp_dir clone_repo llm cc_visit repo t Hc Hd).
    + destruct (analyze_repo_cloned temp_dir clone_repo llm cc_visit repo t Hn Hc Hd Hp Hcc)
        as (a & Ha & Hname & Hb & H1 & _ & _ & _ & H5 & _ & H7 & _).
      exists a. split; [exact Ha|]. split; [exact Hname|].
      destruct Hb as (B1 & B2 & B3 & B4 & B5 & B6 & B7).
      unfold analysis_in_range. lia.
  - destruct (analyze_repo_uncloned temp_dir clone_repo llm cc_visit repo Hn Hc)
      as (a & Ha & Hname & Hb & H1).
    exists a. split; [exact Ha|]. split; [exact Hname|].
    destruct Hb as (B1 & B2 & B3 & B4 & B5 & B6 & B7).
    unfold analysis_in_range. lia.
Qed.

Lemma non_forks_cons x l :
  non_forks (x :: l) = if fork x then non_forks l else listed x :: non_forks l.
Proof. unfold non_forks. cbn [filter]. destruct (fork x); reflexivity. Qed.

(** The loop over the listing, when no analysis raises. *)
Lemma listing_analysed temp_dir clone_repo llm cc_visit l :
  provider_in_range llm -> radon_like cc_visit ->
  Forall counts_nonneg (non_forks l) ->
  Forall (fun r => clones_readme_directory temp_dir clone_repo r = false) (non_forks l) ->
  forall acc, exists done,
    for_each (analyze_listed temp_dir clone_repo llm cc_visit) acc l = Ok (acc ++ done) /\
    map repo_name done = map name (non_forks l) /\
    Forall analysis_in_range done.
Proof.
  intros Hp Hcc. induction l as [|x l IH]; intros Hn Hd acc.
  - exists []. rewrite app_nil_r. repeat split; constructor.
  - rewrite non_forks_cons in Hn, Hd |- *. cbn [for_each]. unfold analyze_listed at 1.
    destruct (fork x).
    + cbn [bind]. exact (IH Hn Hd acc).
    + pose proof (analyze_repo_outcome temp_dir clone_repo llm cc_visit (listed x) Hp Hcc
                    (Forall_inv Hn)) as Ho.
      rewrite (Forall_inv Hd) in Ho. destruct Ho as (a & -> & Hname & Ha).
      cbn [bind].
      destruct (IH (Forall_inv_tail Hn) (Forall_inv_tail Hd) (acc ++ [a]))
        as (done & -> & Hnames & Hdone).
      exists (a :: done). rewrite <- app_assoc. cbn [app map].
      split; [reflexivity|]. split; [now rewrite Hname, Hnames|now constructor].
Qed.

(** The loop over the listing, when some README entry is a directory. *)
Lemma listing_aborts temp_dir clone_repo llm cc_visit l :
  provider_in_range llm -> radon_like cc_visit ->
  Forall counts_nonneg (non_forks l) ->
  Exists (fun r => clones_readme_directory temp_dir clone_repo r = true) (non_forks l) ->
  forall acc,
    for_each (analyze_listed temp_dir clone_repo llm cc_visit) acc l
    = Raise IsADirectoryError.
Proof.
  intros Hp Hcc. induction l as [|x l IH]; intros Hn Hd acc.
  - apply Exists_nil in Hd. contradiction.
  - rewrite non_forks_cons in Hn, Hd. cbn [for_each]. unfold analyze_listed at 1.
    destruct (fork x).
    + cbn [bind]. exact (IH Hn Hd acc).
    + pose proof (analyze_repo_outcome temp_dir clone_repo llm cc_visit (listed x) Hp Hcc
                    (Forall_inv Hn)) as Ho.
      destruct (clones_readme_directory temp_dir clone_repo (listed x)) eqn:E.
      * rewrite Ho. reflexivity.
      * destruct Ho as (a & -> & _). cbn [bind].
        apply Exists_cons in Hd. destruct Hd as [Hd|Hd]; [congruence|].
        exact (IH (Forall_inv_tail Hn) Hd (acc ++ [a])).
Qed.

(** The driver on a listing none of whose analyses raises. *)
Lemma analyze_profile_total
    (temp_dir : string) (clone_repo : string -> string -> option tree)
    (llm : option (string -> option LlmReadme))
    (cc_visit : string -> option (list Z))
    (get_user : string -> option NamedUser) (handle : string) (user : NamedUser) :
  get_user handle = Some user ->
  provider_in_range llm -> radon_like cc_visit ->
  Forall counts_nonneg (non_forks (get_repos user)) ->
  Forall (fun r => clones_readme_directory temp_dir clone_repo r = false)
         (non_forks (get_repos user)) ->
  exists report,
    analyze_profile temp_dir clone_repo llm cc_visit get_user handle = Ok (Some report) /\
    username (profile report) = login user /\
    map repo_name (repositories (profile report)) = map name (non_forks (get_repos user)) /\
    total_repos_analyzed report = len (non_forks (get_repos user)) /\
    Forall analysis_in_range (repositories (profile report)) /\
    0 <= score (hiring_readiness report) <= 100 /\
    Forall (fun role => 0 <= fit_score role <= 100)
           [ml_engineer (role_scores report); backend_engineer (role_scores report);
            sre (role_scores report)].
Proof.
  intros Hu Hp Hcc Hn Hd. unfold analyze_profile. rewrite Hu.
  destruct (listing_analysed temp_dir clone_repo llm cc_visit (get_repos user) Hp Hcc Hn Hd [])
    as (done & -> & Hnames & Hdone).
  cbn [bind app].
  set (pd := mkProfile (login user) (user_html_url user) done).
  destruct (readiness_total_range pd) as (h & -> & Hh & _).
  { unfold composites_in_range. cbn [repositories pd].
    eapply Forall_impl; [|exact Hdone]. intros a (Ha & _). lia. }
  cbn [bind].
  assert (Hroles : exists roles, compute_role_fit pd = Ok roles /\
            Forall (fun role => 0 <= fit_score role <= 100)
                   [ml_engineer roles; backend_engineer roles; sre roles]).
  { destruct done as [|a done'] eqn:Ed.
    - eexists. split; [reflexivity|].
      repeat (apply Forall_cons; [cbn; lia|]). apply Forall_nil.
    - destruct (role_fit_total_range pd) as (roles & Hr & Hf).
      + cbn [repositories pd]. discriminate.
      + unfold role_inputs_in_range. cbn [repositories pd].
        eapply Forall_impl; [|exact Hdone]. intros b (_ & Hb1 & Hb2). split; assumption.
      + exists roles. split; [exact Hr|].
        eapply Forall_impl; [|exact Hf]. intros role (Hrole & _). exact Hrole. }
  destruct Hroles as (roles & -> & Hroles). cbn [bind].
  eexists. split; [reflexivity|].
  cbn [profile total_repos_analyzed hiring_readiness role_scores repositories username pd].
  split; [reflexivity|]. split; [exact Hnames|]. split.
  { unfold len. f_equal.
    rewrite <- (length_map repo_name done), Hnames, length_map. reflexivity. }
  split; [exact Hdone|]. split; [exact Hh|exact Hroles].
Qed.

Lemma exists_or_all {A : Type} (f : A -> bool) (l : list A) :
  Exists (fun x => f x = true) l \/ Forall (fun x => f x = false) l.
Proof.
  induction l as [|x l [IH|IH]].
  - right. constructor.
  - left. now apply Exists_cons_tl.
  - destruct (f x) eqn:E; [left; now apply Exists_cons_hd|right; now constructor].
Qed.

(** X20. Every report that [analyze_profile] returns for a user whose
    non-fork repositories have non-negative counters, with a provider that
    keeps to [[0,100]] and radon complexities of at least 1, covers exactly
    the non-fork repositories, in listing order, whether or not their clone
    succeeded; every composite score lies in [[0,91]]; the readiness score
    and the three role scores lie in [[0,100]]. *)
Theorem analyze_profile_report_ranges
    (temp_dir : string) (clone_repo : string -> string -> option tree)
    (llm : option (string -> option LlmReadme))
    (cc_visit : string -> option (list Z))
    (get_user : string -> option NamedUser) (handle : string) (user : NamedUser)
    (report : ProfileReport) :
  get_user handle = Some user ->
  provider_in_range llm -> radon_like cc_visit ->
  Forall counts_nonneg (non_forks (get_repos user)) ->
  analyze_profile temp_dir clone_repo llm cc_visit get_user handle = Ok (Some report) ->
  username (profile report) = login user /\
  map repo_name (repositories (profile report)) = map name (non_forks (get_repos user)) /\
  total_repos_analyzed report = len (non_forks (get_repos user)) /\
  Forall analysis_in_range (repositories (profile report)) /\
  0 <= score (hiring_readiness report) <= 100 /\
  Forall (fun role => 0 <= fit_score role <= 100)
         [ml_engineer (role_scores report); backend_engineer (role_scores report);
          sre (role_scores report)].
Proof.
  intros Hu Hp Hcc Hn Hrep.
  destruct (exists_or_all (clones_readme_directory temp_dir clone_repo)
              (non_forks (get_repos user))) as [Hex|Hall].
  - unfold analyze_profile in Hrep. rewrite Hu in Hrep.
    rewrite (listing_aborts temp_dir clone_repo llm cc_visit (get_repos user)
               Hp Hcc Hn Hex []) in Hrep.
    discriminate Hrep.
  - destruct (analyze_profile_total temp_dir clone_repo llm cc_visit get_user handle user
                Hu Hp Hcc Hn Hall) as (report' & Hr' & Hall').
    rewrite Hrep in Hr'. injection Hr' as <-. exact Hall'.
Qed.

(** The sample user: one fork, skipped, and one Python project. *)
Lemma analyze_profile_sample_user :
  (lookup_sample "u" = Some sample_user /\
   provider_in_range None /\ radon_like one_simple_block /\
   Forall counts_nonneg (non_forks (get_repos sample_user))) /\
  exists report,
    analyze_profile sample_tmp clone_plain None one_simple_block lookup_sample "u"
    = Ok (Some report) /\
    username (profile report) = login sample_user /\
    map repo_name (repositories (profile report))
    = map name (non_forks (get_repos sample_user)) /\
    total_repos_analyzed report = len (non_forks (get_repos sample_user)) /\
    Forall analysis_in_range (repositories (profile report)) /\
    0 <= score (hiring_readiness report) <= 100 /\
    Forall (fun role => 0 <= fit_score role <= 100)
           [ml_engineer (role_scores report); backend_engineer (role_scores report);
            sre (role_scores report)].
Proof.
  assert (H1 : lookup_sample "u" = Some sample_user) by reflexivity.
  assert (H2 : provider_in_range None) by exact I.
  assert (H3 : radon_like one_simple_block) by (apply radon_like_blocks_of; lia).
  assert (H4 : Forall counts_nonneg (non_forks (get_repos sample_user))).
  { repeat constructor; simpl; lia. }
  assert (H5 : exists report,
             analyze_profile sample_tmp clone_plain None one_simple_block lookup_sample "u"
             = Ok (Some report))
    by (eexists; vm_compute; reflexivity).
  destruct H5 as (report & H5).
  split; [split; [exact H1|split; [exact H2|split; [exact H3|exact H4]]]|].
  exists report. split; [exact H5|].
  exact (analyze_profile_report_ranges sample_tmp clone_plain None one_simple_block
           lookup_sample "u" sample_user report H1 H2 H3 H4 H5).
Defined.

(** X21. One non-fork repository whose clone has a directory as README
    entry aborts the analysis of the whole profile: [analyze_profile] raises
    [IsADirectoryError] and returns no report, whatever the other
    repositories are. *)
Theorem analyze_profile_aborts_on_readme_directory
    (temp_dir : string) (clone_repo : string -> string -> option tree)
    (llm : option (string -> option LlmReadme))
    (cc_visit : string -> option (list Z))
    (get_user : string -> option NamedUser) (handle : string) (user : NamedUser) :
  get_user handle = Some user ->
  provider_in_range llm -> radon_like cc_visit ->
  Forall counts_nonneg (non_forks (get_repos user)) ->
  Exists (fun r => clones_readme_directory temp_dir clone_repo r = true)
         (non_forks (get_repos user)) ->
  analyze_profile temp_dir clone_repo llm cc_visit get_user handle
  = Raise IsADirectoryError.
Proof.
  intros Hu Hp Hcc Hn Hd. unfold analyze_profile. rewrite Hu.
  rewrite (listing_aborts temp_dir clone_repo llm cc_visit (get_repos user) Hp Hcc Hn Hd []).
  reflexivity.
Qed.

(** The sample user, the clone of the Python project holding a README
    directory. *)
Lemma analyze_profile_sample_readme_folder :
  (lookup_sample "u" = Some sample_user /\
   provider_in_range None /\ radon_like one_simple_block /\
   Forall counts_nonneg (non_forks (get_repos sample_user)) /\
   Exists (fun r => clones_readme_directory sample_tmp clone_readme_folder r = true)
          (non_forks (get_repos sample_user))) /\
  analyze_profile sample_tmp clone_readme_folder None one_simple_block lookup_sample "u"
  = Raise IsADirectoryError.
Proof.
  assert (H1 : lookup_sample "u" = Some sample_user) by reflexivity.
  assert (H2 : provider_in_range None) by exact I.
  assert (H3 : radon_like one_simple_block) by (apply radon_like_blocks_of; lia).
  assert (H4 : Forall counts_nonneg (non_forks (get_repos sample_user))).
  { repeat constructor; simpl; lia. }
  assert (H5 : Exists (fun r => clones_readme_directory sample_tmp clone_readme_folder r = true)
                      (non_forks (get_repos sample_user))).
  { apply Exists_cons_hd. reflexivity. }
  split; [split; [exact H1|split; [exact H2|split; [exact H3|split; [exact H4|exact H5]]]]|].
  exact (analyze_profile_aborts_on_readme_directory sample_tmp clone_readme_folder None
           one_simple_block lookup_sample "u" sample_user H1 H2 H3 H4 H5).
Defined.
End ProfileFacts.

(** ** The notes of a repository analysis *)

Module NotesFacts.
Import Float64 Float64Facts Py PyFacts Analyzer Scoring Spec Cover.
Import CompositeFacts ComplexityFacts ComplexityBound ReadmeFacts.
Import TestingFacts HeuristicFacts TestingCiFacts RepoRangeFacts.

Lemma structure_notes_shape path t language :
  exists st,
    snd (_analyze_structure path t language)
    = mkNotes st (if (file_count (walk path t) <? 3)%Z
                  then ["Very small codebase (skeleton?)"] else []) /\
    (st = [] \/ exists x, st = [("Structured project layout (" ++ x)%string]).
Proof.
  unfold _analyze_structure.
  destruct (filter (exists_at_root t) src_dirs) as [|d ds];
    destruct (file_count (walk path t) <? 3)%Z;
    try destruct (50 <? file_count (walk path t))%Z;
    cbn [snd]; eexists; (split; [reflexivity|]); auto; right; eexists; reflexivity.
Qed.

Lemma in_flag {A : Type} (x y : A) (b : bool) :
  In x (if b then [y] else []) <-> b = true /\ y = x.
Proof. destruct b; cbn [In]; intuition discriminate. Qed.

Lemma analyze_readme_no_provider path t :
  readme_is_directory t = false ->
  exists s, _analyze_readme None path t = Ok (s, None) /\ 0 <= s <= 100.
Proof.
  intros Hd. unfold readme_is_directory in Hd. unfold _analyze_readme.
  destruct (find_readme t) as [[text|ch]|]; try discriminate.
  - pose proof (readme_heuristic_values (lower text)) as H.
    eexists. split; [reflexivity|]. simpl in H. lia.
  - eexists. split; [reflexivity|]. lia.
Qed.

(** The notes against the scores, when the README entry is no directory. *)
Lemma analyze_repo_notes_total
    (temp_dir : string) (clone_repo : string -> string -> option tree)
    (cc_visit : string -> option (list Z)) (repo : Repo) (t : tree) :
  0 <= stargazers_count repo -> 0 <= forks_count repo ->
  clone_repo (clone_url repo) (join temp_dir (name repo)) = Some t ->
  readme_is_directory t = false ->
  radon_like cc_visit ->
  exists a, analyze_repo temp_dir clone_repo None cc_visit repo = Ok a /\
    let b := score_breakdown a in
    (In "High community interest (stars/forks)" (strengths a) <-> 50 < project_value b) /\
    (In "Detailed README" (strengths a) <-> 70 < readme b) /\
    (In "Testing infrastructure detected" (strengths a) <-> 0 < testing_ci b) /\
    (In "README lacks depth" (weaknesses a) <-> readme b <= 40) /\
    (In "No tests found" (weaknesses a) <-> testing_ci b = 0) /\
    (In "Very small codebase (skeleton?)" (weaknesses a)
     <-> file_count (walk (join temp_dir (name repo)) t) < 3).
Proof.
  intros Hs Hf Hc Hd Hcc. unfold analyze_repo. rewrite Hc.
  set (path := join temp_dir (name repo)).
  destruct (structure_notes_shape path t (repo_language repo)) as (st & Hsn & Hst).
  pose proof (structure_score_cases path t (repo_language repo)) as Hss.
  destruct (_analyze_structure path t (repo_language repo)) as [ss sn].
  cbn [fst snd] in Hss, Hsn. subst sn. cbn [note_strengths note_weaknesses].
  destruct (analyze_readme_no_provider path t Hd) as (rs & -> & Hrs).
  cbn [bind is_empty_notes]. rewrite !andb_true_r.
  pose proof (testing_score_range path t) as Hts.
  destruct (_analyze_testing path t) as [ts tn]. cbn [fst] in Hts.
  pose proof (deploy_score_range path t) as (Hsec & Hdep).
  destruct (_analyze_sec_deploy path t) as [sec dep]. cbn [fst snd] in Hsec, Hdep.
  assert (Hcx : 0 <= (match repo_language repo with
                      | Some "Python" => _analyze_complexity_python cc_visit path t
                      | _ => 50
                      end) <= 126).
  { pose proof (complexity_python_bounded cc_visit path t Hcc).
    repeat match goal with
           | |- context [match ?x with _ => _ end] => destruct x; try lia
           end. }
  set (cx := match repo_language repo with Some "Python" => _ | _ => 50 end) in *.
  clearbody cx.
  set (pv := Z.min 100 (stargazers_count repo * 2 + forks_count repo * 5)).
  assert (Hpv : 0 <= pv <= 100) by (subst pv; lia).
  clearbody pv.
  set (n := file_count (walk path t)) in *. clearbody n.
  simpl in Hss.
  destruct (composite_exact_relation (mkBreakdown ss ts rs pv dep cx sec)) as (c & Hcomp & _).
  { unfold fields_between.
    cbn [code_structure testing_ci readme project_value deployability complexity security].
    lia. }
  destruct (Z.ltb_spec 70 rs); destruct (Z.leb_spec rs 40); destruct (Z.ltb_spec 0 ts);
    try lia;
    cbn [bind]; rewrite Hcomp; cbn [bind]; (eexists; split; [reflexivity|]);
    cbn [score_breakdown strengths weaknesses project_value readme testing_ci];
    clear Hcomp Hss Hcx Hpv Hsec Hdep Hs Hf Hc Hd Hcc;
    destruct Hst as [->|(x & ->)];
    repeat split; intros Hin;
    rewrite ?in_app_iff, ?in_flag, ?Z.ltb_lt in *; cbn [In String.append] in *;
    intuition (try lia; try discriminate).
Qed.

(** X22. Without a provider, the notes of every analysis that
    [analyze_repo] returns for a cloned repository agree with its scores:
    "High community interest (stars/forks)" is a strength exactly when
    [project_value] exceeds 50, "Detailed README" exactly when [readme]
    exceeds 70, "Testing infrastructure detected" exactly when [testing_ci]
    is positive; "README lacks depth" is a weakness exactly when [readme]
    is at most 40, "No tests found" exactly when [testing_ci] is 0, and
    "Very small codebase (skeleton?)" exactly when the clone has fewer than
    three files. *)
Theorem analyze_repo_notes_match_scores
    (temp_dir : string) (clone_repo : string -> string -> option tree)
    (cc_visit : string -> option (list Z)) (repo : Repo) (t : tree)
    (a : RepositoryAnalysis) :
  0 <= stargazers_count repo -> 0 <= forks_count repo ->
  clone_repo (clone_url repo) (join temp_dir (name repo)) = Some t ->
  radon_like cc_visit ->
  analyze_repo temp_dir clone_repo None cc_visit repo = Ok a ->
  let b := score_breakdown a in
  (In "High community interest (stars/forks)" (strengths a) <-> 50 < project_value b) /\
  (In "Detailed README" (strengths a) <-> 70 < readme b) /\
  (In "Testing infrastructure detected" (strengths a) <-> 0 < testing_ci b) /\
  (In "README lacks depth" (weaknesses a) <-> readme b <= 40) /\
  (In "No tests found" (weaknesses a) <-> testing_ci b = 0) /\
  (In "Very small codebase (skeleton?)" (weaknesses a)
   <-> file_count (walk (join temp_dir (name repo)) t) < 3).
Proof.
  intros Hs Hf Hc Hcc Ha.
  destruct (readme_is_directory t) eqn:Hd.
  { rewrite (analyze_repo_isdir temp_dir clone_repo None cc_visit repo t Hc Hd) in Ha.
    discriminate Ha. }
  destruct (analyze_repo_notes_total temp_dir clone_repo cc_visit repo t Hs Hf Hc Hd Hcc)
    as (a' & Ha' & Hnotes).
  rewrite Ha in Ha'. apply Ok_inj in Ha'. subst a'. exact Hnotes.
Qed.

Lemma analyze_repo_notes_plain_python :
  (0 <= stargazers_count python_repo /\ 0 <= forks_count python_repo /\
   clone_plain (clone_url python_repo) (join sample_tmp (name python_repo))
   = Some plain_python /\
   radon_like one_simple_block) /\
  exists a,
    analyze_repo sample_tmp clone_plain None one_simple_block python_repo = Ok a /\
    let b := score_breakdown a in
    (In "High community interest (stars/forks)" (strengths a) <-> 50 < project_value b) /\
    (In "Detailed README" (strengths a) <-> 70 < readme b) /\
    (In "Testing infrastructure detected" (strengths a) <-> 0 < testing_ci b) /\
    (In "README lacks depth" (weaknesses a) <-> readme b <= 40) /\
    (In "No tests found" (weaknesses a) <-> testing_ci b = 0) /\
    (In "Very small codebase (skeleton?)" (weaknesses a)
     <-> file_count (walk (join sample_tmp (name python_repo)) plain_python) < 3).
Proof.
  assert (H1 : 0 <= stargazers_count python_repo) by (simpl; lia).
  assert (H2 : 0 <= forks_count python_repo) by (simpl; lia).
  assert (H3 : clone_plain (clone_url python_repo) (join sample_tmp (name python_repo))
               = Some plain_python) by reflexivity.
  assert (H4 : radon_like one_simple_block) by (apply radon_like_blocks_of; lia).
  assert (H5 : exists a,
             analyze_repo sample_tmp clone_plain None one_simple_block python_repo = Ok a)
    by (eexists; vm_compute; reflexivity).
  destruct H5 as (a & H5).
  split; [split; [exact H1|split; [exact H2|split; [exact H3|exact H4]]]|].
  exists a. split; [exact H5|].
  exact (analyze_repo_notes_match_scores sample_tmp clone_plain one_simple_block python_repo
           plain_python a H1 H2 H3 H4 H5).
Defined.
End NotesFacts.
